(** * CostGPT: cost attribution for language-model calls

    A shallow embedding of the Python package [costgpt] (pricing.py,
    tracker.py, client.py and the two instrumentation modules) and of the
    part of the hosted service that receives its events (db.py, api/auth.py
    and the event routes of api/routes.py), together with the properties its
    specification states about the package and further properties of the
    code.

    Conventions of the embedding:
    - a Python [int] is a [Z]; a Python [float] is an IEEE 754 binary64 value,
      represented by [spec_float] with the operations of [SpecFloat] at
      precision 53 and maximal exponent 1024 (round to nearest, ties to even);
    - a [str] is a [string], the bytes of its UTF-8 encoding; [None]-able
      values are [option]s;
    - a dict whose iteration order matters is an association list in
      insertion order;
    - code that may raise returns a [result]; code that touches the clock,
      the random source, the network or module globals threads a [World]. *)

From Stdlib Require Import ZArith QArith Qpower List String Ascii Bool.
From Stdlib Require Import Lia Lra Psatz.
From Stdlib Require Import SpecFloat.
Import ListNotations.

Local Open Scope string_scope.
Local Open Scope list_scope.
Local Open Scope Z_scope.

Set Warnings "-register-all".

Set Implicit Arguments.

(* ================================================================== *)
(** ** Python exceptions and fallible results *)

(** The exception classes of [httpx] that the client can meet.  The first
    group derives from [httpx.HTTPError]; the second does not. *)
Inductive httpx_exception : Type :=
  | ConnectTimeout | ReadTimeout | WriteTimeout | PoolTimeout
  | ConnectError | ReadError | WriteError | CloseError
  | LocalProtocolError | RemoteProtocolError
  | ProxyError | UnsupportedProtocol
  | DecodingError | TooManyRedirects
  | HTTPStatusError (status : Z)
  | InvalidURL | CookieConflict | StreamClosed.

Inductive exn : Type :=
  | OverflowError
  | ZeroDivisionError
  | KeyError (key : string)
  | AttributeError (attr : string)
  | TypeError
  | ValueError
  | RecursionError
  | ImportError (msg : string)
  | Httpx (e : httpx_exception).

Inductive result (A : Type) : Type :=
  | Ok (a : A)
  | Raise (e : exn).

Arguments Ok {A} a.
Arguments Raise {A} e.

(* ================================================================== *)
(** ** Python floats *)

Module PyFloat.

Definition prec : Z := 53.
Definition emax : Z := 1024.

Definition float : Type := spec_float.

(** An integer as an exact operand of a correctly rounded operation. *)
Definition of_int (n : Z) : spec_float :=
  match n with
  | Z0 => S754_zero false
  | Zpos p => S754_finite false p 0
  | Zneg p => S754_finite true p 0
  end.

(** The binary64 value nearest to the rational [n / d] (ties to even). *)
Definition nearest (n d : Z) : float := SFdiv prec emax (of_int n) (of_int d).

(** A decimal literal such as [0.80], given as [80 / 100]: the parser
    returns the nearest binary64 value. *)
Definition lit (n d : Z) : float := nearest n d.

Definition zero : float := S754_zero false.

(** [a / b] on ints ("true division"): the correctly rounded quotient;
    [ZeroDivisionError] for a zero divisor, [OverflowError] when the
    quotient is too large for a float. *)
Definition int_truediv (a b : Z) : result float :=
  if Z.eqb b 0 then Raise ZeroDivisionError
  else match nearest a b with
       | S754_infinity _ => Raise OverflowError
       | q => Ok q
       end.

(** [x * y], [x + y] and [x - y] on floats never raise. *)
Definition mul (x y : float) : float := SFmul prec emax x y.
Definition add (x y : float) : float := SFadd prec emax x y.
Definition sub (x y : float) : float := SFsub prec emax x y.

(** [x <= y] on floats. *)
Definition leb (x y : float) : bool := SFleb x y.

(** [int(x)]: truncation toward zero. *)
Definition to_int (x : float) : result Z :=
  match x with
  | S754_zero _ => Ok 0
  | S754_finite s m e =>
      let a := match e with
               | Z0 => Zpos m
               | Zpos p => Z.shiftl (Zpos m) e
               | Zneg p => Z.shiftr (Zpos m) (Zpos p)
               end in
      Ok (if s then - a else a)
  | S754_infinity _ => Raise OverflowError
  | S754_nan => Raise ValueError
  end.

End PyFloat.

Abbreviation float := PyFloat.float.

(* ================================================================== *)
(** ** pricing.py *)

(** [d.get(k)] and [k in d] on a dict kept in insertion order. *)
Fixpoint dict_get {V : Type} (d : list (string * V)) (k : string) : option V :=
  match d with
  | [] => None
  | (k', v) :: rest => if String.eqb k' k then Some v else dict_get rest k
  end.

Definition dict_mem {V : Type} (d : list (string * V)) (k : string) : bool :=
  match dict_get d k with Some _ => true | None => false end.

Definition dict_keys {V : Type} (d : list (string * V)) : list string :=
  map fst d.

(** [s.startswith(p)]. *)
Definition startswith (s p : string) : bool := String.prefix p s.

Definition price_pair : Type := (float * float)%type.

(** Prices are per 1M tokens in USD. *)
Definition PRICING : list (string * price_pair) :=
  [ (* Anthropic Claude *)
    ("claude-opus-4-20250514", (PyFloat.lit 1500 100, PyFloat.lit 7500 100));
    ("claude-sonnet-4-20250514", (PyFloat.lit 300 100, PyFloat.lit 1500 100));
    ("claude-3-5-sonnet-20241022", (PyFloat.lit 300 100, PyFloat.lit 1500 100));
    ("claude-3-5-haiku-20241022", (PyFloat.lit 80 100, PyFloat.lit 400 100));
    ("claude-3-opus-20240229", (PyFloat.lit 1500 100, PyFloat.lit 7500 100));
    ("claude-3-sonnet-20240229", (PyFloat.lit 300 100, PyFloat.lit 1500 100));
    ("claude-3-haiku-20240307", (PyFloat.lit 25 100, PyFloat.lit 125 100));
    (* OpenAI GPT-4 *)
    ("gpt-4o", (PyFloat.lit 250 100, PyFloat.lit 1000 100));
    ("gpt-4o-mini", (PyFloat.lit 15 100, PyFloat.lit 60 100));
    ("gpt-4-turbo", (PyFloat.lit 1000 100, PyFloat.lit 3000 100));
    ("gpt-4", (PyFloat.lit 3000 100, PyFloat.lit 6000 100));
    ("gpt-3.5-turbo", (PyFloat.lit 50 100, PyFloat.lit 150 100));
    (* OpenAI o1 *)
    ("o1", (PyFloat.lit 1500 100, PyFloat.lit 6000 100));
    ("o1-mini", (PyFloat.lit 300 100, PyFloat.lit 1200 100));
    ("o1-preview", (PyFloat.lit 1500 100, PyFloat.lit 6000 100));
    (* Google Gemini *)
    ("gemini-1.5-pro", (PyFloat.lit 125 100, PyFloat.lit 500 100));
    ("gemini-1.5-flash", (PyFloat.lit 75 1000, PyFloat.lit 30 100));
    ("gemini-2.0-flash", (PyFloat.lit 10 100, PyFloat.lit 40 100));
    (* Mistral *)
    ("mistral-large", (PyFloat.lit 200 100, PyFloat.lit 600 100));
    ("mistral-small", (PyFloat.lit 20 100, PyFloat.lit 60 100));
    ("codestral", (PyFloat.lit 20 100, PyFloat.lit 60 100)) ].

(** Aliases for common model name variations. *)
Definition ALIASES : list (string * string) :=
  [ ("claude-3.5-sonnet", "claude-3-5-sonnet-20241022");
    ("claude-3.5-haiku", "claude-3-5-haiku-20241022");
    ("gpt-4o-2024-08-06", "gpt-4o");
    ("gpt-4o-2024-05-13", "gpt-4o") ].

Definition costs : Type := (float * float * float)%type.

Section GetCost.

Variable pricing : list (string * price_pair).
Variable aliases : list (string * string).

(** The [for key in PRICING: ... break] loop: the value of [model_key]
    after the loop. *)
Fixpoint prefix_scan (keys : list string) (model_key : string) : string :=
  match keys with
  | [] => model_key
  | key :: rest =>
      if startswith model_key key || startswith key model_key
      then key
      else prefix_scan rest model_key
  end.

(** Calculate cost for a model call: [(input_cost, output_cost, total_cost)]
    in USD. *)
Definition get_cost_in (model : string) (input_tokens output_tokens : Z)
  : result costs :=
  (* Check aliases *)
  let model_key :=
    match dict_get aliases model with Some c => c | None => model end in
  (* Try exact match, then prefix match *)
  let model_key :=
    if negb (dict_mem pricing model_key)
    then prefix_scan (dict_keys pricing) model_key
    else model_key in
  if negb (dict_mem pricing model_key)
  then (* Unknown model, return 0 cost *)
    Ok (PyFloat.zero, PyFloat.zero, PyFloat.zero)
  else
    match dict_get pricing model_key with
    | None => Raise (KeyError model_key)
    | Some (input_price, output_price) =>
        match PyFloat.int_truediv input_tokens 1000000 with
        | Raise e => Raise e
        | Ok qi =>
            let input_cost := PyFloat.mul qi input_price in
            match PyFloat.int_truediv output_tokens 1000000 with
            | Raise e => Raise e
            | Ok qo =>
                let output_cost := PyFloat.mul qo output_price in
                let total_cost := PyFloat.add input_cost output_cost in
                Ok (input_cost, output_cost, total_cost)
            end
        end
    end.

End GetCost.

Definition get_cost : string -> Z -> Z -> result costs :=
  get_cost_in PRICING ALIASES.

(* ================================================================== *)
(** ** Values shared by tracker.py and client.py *)

(** JSON values: the [metadata] dict, taken to map strings to JSON values,
    and the request bodies. *)
Inductive json : Type :=
  | JNull
  | JInt (n : Z)
  | JFloat (x : float)
  | JStr (s : string)
  | JList (items : list json)
  | JDict (fields : list (string * json)).

Definition json_opt {A : Type} (f : A -> json) (o : option A) : json :=
  match o with Some a => f a | None => JNull end.

(** A float other than [inf], [-inf] and [nan]. *)
Definition is_finite (x : float) : bool :=
  match x with
  | S754_zero _ | S754_finite _ _ _ => true
  | S754_infinity _ | S754_nan => false
  end.

(** [sys.get_int_max_str_digits()]: an int of more digits is not converted
    to a decimal string. *)
Definition int_max_str_digits : Z := 4300.

(** Whether [str(n)] returns for an int [n]. *)
Definition int_encodable (n : Z) : bool :=
  Z.abs n <? 10 ^ int_max_str_digits.

(** Whether [json.dumps(j, allow_nan=False)] returns: it raises
    [ValueError] on a float that is not finite and on an int of more than
    [int_max_str_digits] digits. *)
Fixpoint json_encodable (j : json) : bool :=
  match j with
  | JNull => true
  | JInt n => int_encodable n
  | JFloat x => is_finite x
  | JStr _ => true
  | JList items => forallb json_encodable items
  | JDict fields => forallb (fun kv => json_encodable (snd kv)) fields
  end.

(** A [uuid.UUID], by its 128-bit integer. *)
Definition UUID : Type := Z.

(** An aware [datetime] in UTC. *)
Record datetime : Type := {
  year : Z; month : Z; day : Z;
  hour : Z; minute : Z; second : Z; microsecond : Z
}.

Definition digit_char (d : Z) : ascii :=
  if d <? 10 then ascii_of_nat (48 + Z.to_nat d)%nat
  else ascii_of_nat (87 + Z.to_nat d)%nat.

(** [n] written in base [base] on exactly [width] digits. *)
Fixpoint fixed_width (base : Z) (width : nat) (n : Z) : string :=
  match width with
  | O => EmptyString
  | S k => String.append (fixed_width base k (n / base))
                         (String (digit_char (n mod base)) EmptyString)
  end.

(** [str(u)] for a UUID: 32 hexadecimal digits in groups 8-4-4-4-12. *)
Definition uuid_str (u : UUID) : string :=
  let h := fixed_width 16 32 u in
  (substring 0 8 h ++ "-" ++ substring 8 4 h ++ "-" ++ substring 12 4 h
   ++ "-" ++ substring 16 4 h ++ "-" ++ substring 20 12 h)%string.

(** [d.isoformat()] for an aware UTC datetime. *)
Definition isoformat (d : datetime) : string :=
  (fixed_width 10 4 (year d) ++ "-" ++ fixed_width 10 2 (month d) ++ "-"
   ++ fixed_width 10 2 (day d) ++ "T" ++ fixed_width 10 2 (hour d) ++ ":"
   ++ fixed_width 10 2 (minute d) ++ ":" ++ fixed_width 10 2 (second d)
   ++ (if Z.eqb (microsecond d) 0 then EmptyString
       else "." ++ fixed_width 10 6 (microsecond d))
   ++ "+00:00")%string.

(** Truthiness of an optional string: [None] and [""] are falsy. *)
Definition truthy_str (o : option string) : bool :=
  match o with
  | None => false
  | Some s => negb (String.eqb s "")
  end.

(** [a or b] on optional strings. *)
Definition or_str (a b : option string) : option string :=
  if truthy_str a then a else b.

(** [metadata or {}]. *)
Definition or_empty_dict (m : option (list (string * json)))
  : list (string * json) :=
  match m with
  | Some (f :: fs) => f :: fs
  | _ => []
  end.

(** A single LLM usage event. *)
Record UsageEvent : Type := {
  id : UUID;
  timestamp : datetime;
  model : string;
  input_tokens : Z;
  output_tokens : Z;
  input_cost : float;
  output_cost : float;
  total_cost : float;
  duration_ms : option Z;
  user_id : option string;
  feature : option string;
  metadata : list (string * json)
}.

(** HTTP client for the CostGPT API. *)
Record APIClient : Type := {
  client_api_key : string;
  base_url : string;
  auth_header : string;       (* headers={"Authorization": ...} *)
  client_timeout : float      (* timeout=10.0 *)
}.

(** Track LLM costs with attribution. *)
Record CostTracker : Type := {
  api_key : option string;
  api_url : string;
  default_user_id : option string;
  default_feature : option string;
  _client : option APIClient
}.

(* ================================================================== *)
(** ** The world outside the package *)

Record request : Type := {
  url : string;
  authorization : string;
  body : json;
  timeout : float
}.

(** What [httpx.Client.post] does with a request: it returns a response
    with a status code, or raises. *)
Inductive post_outcome : Type :=
  | Responds (status : Z)
  | Fails (e : httpx_exception).

Inductive provider : Type := anthropic | openai.

(** What can sit in a provider's [create] slot: a callable that comes from
    outside this package (the SDK's own method is [Foreign 0]), or the
    [tracked_create] closure that [instrument] defines. *)
Inductive callable : Type :=
  | Foreign (n : nat)
  | tracked_create (p : provider).

(** [(self, *args, **kwargs)]. *)
Record call_args : Type := {
  self_arg : json;
  args : list json;
  kwargs : list (string * json)
}.

(** An attribute of a result object: missing, or present with a value. *)
Inductive pyattr (A : Type) : Type :=
  | Absent
  | Present (a : A).

Arguments Absent {A}.
Arguments Present {A} a.

(** [result.usage] when it is an object: the two token counts
    ([input_tokens], [output_tokens] for Anthropic; [prompt_tokens],
    [completion_tokens] for OpenAI). *)
Record Usage : Type := {
  usage_in : Z;
  usage_out : Z
}.

(** What the wrapped call returns, as far as the wrappers look at it:
    [result.model], and [result.usage], which may be [None]. *)
Record Response : Type := {
  resp_model : pyattr string;
  resp_usage : pyattr (option Usage);
  resp_payload : json
}.

(** The module globals of an instrumentation module, and the library's
    slot it patches ([None] when the library cannot be imported). *)
Record HookState : Type := {
  library_create : option callable;
  _original_create : option callable;
  _tracker : option CostTracker
}.

Record World : Type := {
  (* what the outside answers, by number of the question *)
  uuid4_source : nat -> UUID;
  utc_clock : nat -> datetime;
  perf_clock : nat -> float;
  network : nat -> request -> post_outcome;
  foreign_code : nat -> nat -> call_args -> result Response;
  (* what the program has done so far *)
  ticks : nat;
  requests : list request;
  calls : list (nat * call_args);
  hooks : provider -> HookState
}.

Definition M (A : Type) : Type := World -> result A * World.

Definition ret {A} (a : A) : M A := fun w => (Ok a, w).

Definition raise {A} (e : exn) : M A := fun w => (Raise e, w).

Definition bind {A B} (c : M A) (k : A -> M B) : M B :=
  fun w => match c w with
           | (Ok a, w') => k a w'
           | (Raise e, w') => (Raise e, w')
           end.

Definition lift {A} (r : result A) : M A := fun w => (r, w).

(** [try: c except <classes>: h]. *)
Definition try_except {A} (c : M A) (catches : exn -> bool) (h : M A) : M A :=
  fun w => match c w with
           | (Ok a, w') => (Ok a, w')
           | (Raise e, w') => if catches e then h w' else (Raise e, w')
           end.

Notation "x <- c ;; k" := (bind c (fun x => k))
  (at level 61, c at next level, right associativity).
Notation "c ;;; k" := (bind c (fun _ => k))
  (at level 61, right associativity).

Definition tick (w : World) : World :=
  {| uuid4_source := uuid4_source w; utc_clock := utc_clock w;
     perf_clock := perf_clock w; network := network w;
     foreign_code := foreign_code w;
     ticks := S (ticks w); requests := requests w; calls := calls w;
     hooks := hooks w |}.

Definition uuid4 : M UUID := fun w => (Ok (uuid4_source w (ticks w)), tick w).

Definition utcnow : M datetime := fun w => (Ok (utc_clock w (ticks w)), tick w).

Definition perf_counter : M float :=
  fun w => (Ok (perf_clock w (ticks w)), tick w).

Definition log_request (r : request) (w : World) : World :=
  {| uuid4_source := uuid4_source w; utc_clock := utc_clock w;
     perf_clock := perf_clock w; network := network w;
     foreign_code := foreign_code w;
     ticks := ticks w; requests := requests w ++ [r]; calls := calls w;
     hooks := hooks w |}.

Definition log_call (n : nat) (a : call_args) (w : World) : World :=
  {| uuid4_source := uuid4_source w; utc_clock := utc_clock w;
     perf_clock := perf_clock w; network := network w;
     foreign_code := foreign_code w;
     ticks := ticks w; requests := requests w; calls := calls w ++ [(n, a)];
     hooks := hooks w |}.

Definition provider_eqb (p q : provider) : bool :=
  match p, q with
  | anthropic, anthropic | openai, openai => true
  | _, _ => false
  end.

Definition set_hook (p : provider) (h : HookState) (w : World) : World :=
  {| uuid4_source := uuid4_source w; utc_clock := utc_clock w;
     perf_clock := perf_clock w; network := network w;
     foreign_code := foreign_code w;
     ticks := ticks w; requests := requests w; calls := calls w;
     hooks := fun q => if provider_eqb q p then h else hooks w q |}.

(* ================================================================== *)
(** ** client.py *)

(** [isinstance(e, httpx.HTTPError)]. *)
Definition is_HTTPError (e : exn) : bool :=
  match e with
  | Httpx (InvalidURL | CookieConflict | StreamClosed) => false
  | Httpx _ => true
  | _ => false
  end.

(** [s.rstrip("/")]. *)
Fixpoint rstrip_slash (s : string) : string :=
  match s with
  | EmptyString => EmptyString
  | String c rest =>
      match rstrip_slash rest with
      | EmptyString => if Ascii.eqb c "/" then EmptyString
                       else String c EmptyString
      | r => String c r
      end
  end.

(** [APIClient.__init__]. *)
Definition APIClient_init (key url : string) : APIClient :=
  {| client_api_key := key;
     base_url := rstrip_slash url;
     auth_header := String.append "Bearer " key;
     client_timeout := PyFloat.lit 100 10 |}.

(** [self._client.post(url, json=payload)].  The request is built first:
    a URL that cannot be parsed raises [httpx.InvalidURL], and a payload that
    [json.dumps(payload, allow_nan=False)] cannot encode raises [ValueError];
    no request exists in either case.  Then the one request is handed to the
    transport, which answers with a status or raises; [requests] records
    the requests handed to the transport. *)
Definition post (c : APIClient) (u : string) (payload : json) : M Z :=
  fun w =>
    let r := {| url := u; authorization := auth_header c;
                body := payload; timeout := client_timeout c |} in
    match network w (List.length (requests w)) r with
    | Fails InvalidURL => (Raise (Httpx InvalidURL), w)
    | outcome =>
        if negb (json_encodable payload) then (Raise ValueError, w)
        else
          match outcome with
          | Responds status => (Ok status, log_request r w)
          | Fails e => (Raise (Httpx e), log_request r w)
          end
    end.

(** [response.raise_for_status()]. *)
Definition raise_for_status (status : Z) : M unit :=
  if (200 <=? status) && (status <=? 299) then ret tt
  else raise (Httpx (HTTPStatusError status)).

Definition event_payload (event : UsageEvent) : json :=
  JDict [ ("id", JStr (uuid_str (id event)));
          ("timestamp", JStr (isoformat (timestamp event)));
          ("model", JStr (model event));
          ("input_tokens", JInt (input_tokens event));
          ("output_tokens", JInt (output_tokens event));
          ("input_cost", JFloat (input_cost event));
          ("output_cost", JFloat (output_cost event));
          ("total_cost", JFloat (total_cost event));
          ("duration_ms", json_opt JInt (duration_ms event));
          ("user_id", json_opt JStr (user_id event));
          ("feature", json_opt JStr (feature event));
          ("metadata", JDict (metadata event)) ].

(** Send a usage event to the API. *)
Definition send_event (self : APIClient) (event : UsageEvent) : M unit :=
  let payload := event_payload event in
  try_except
    (status <- post self (String.append (base_url self) "/v1/events") payload ;;
     raise_for_status status)
    is_HTTPError
    (* Fail silently - don't break the app if tracking fails *)
    (ret tt).


(* ================================================================== *)
(** ** tracker.py *)

(** [CostTracker.__init__]. *)
Definition CostTracker_init (key : option string) (url : string)
    (user feat : option string) : CostTracker :=
  {| api_key := key;
     api_url := url;
     default_user_id := user;
     default_feature := feat;
     _client := if truthy_str key
                then match key with
                     | Some k => Some (APIClient_init k url)
                     | None => None
                     end
                else None |}.

(** Track a single LLM usage event. *)
Definition track (self : CostTracker) (model_ : string)
    (input_tokens_ output_tokens_ : Z)
    (user_id_ feature_ : option string) (duration_ms_ : option Z)
    (metadata_ : option (list (string * json))) : M UsageEvent :=
  c <- lift (get_cost model_ input_tokens_ output_tokens_) ;;
  let '(input_cost_, output_cost_, total_cost_) := c in
  i <- uuid4 ;;
  now <- utcnow ;;
  let event :=
    {| id := i;
       timestamp := now;
       model := model_;
       input_tokens := input_tokens_;
       output_tokens := output_tokens_;
       input_cost := input_cost_;
       output_cost := output_cost_;
       total_cost := total_cost_;
       duration_ms := duration_ms_;
       user_id := or_str user_id_ (default_user_id self);
       feature := or_str feature_ (default_feature self);
       metadata := or_empty_dict metadata_ |} in
  (* Send to API if configured *)
  match _client self with
  | Some client => send_event client event
  | None => ret tt
  end ;;;
  ret event.

(* ================================================================== *)
(** ** instruments/anthropic.py and instruments/openai.py *)

Definition package_name (p : provider) : string :=
  match p with anthropic => "anthropic" | openai => "openai" end.

Definition not_installed_message (p : provider) : string :=
  String.append (package_name p)
    (String.append " package not installed. Run: pip install "
                   (package_name p)).

Definition get_hook (p : provider) : M HookState :=
  fun w => (Ok (hooks w p), w).

Definition put_hook (p : provider) (h : HookState) : M unit :=
  fun w => (Ok tt, set_hook p h w).

(** [result.<name>]. *)
Definition getattr {A} (name : string) (a : pyattr A) : M A :=
  match a with
  | Present v => ret v
  | Absent => raise (AttributeError name)
  end.

(** [int((time.perf_counter() - start) * 1000)]. *)
Definition elapsed_ms (start stop : float) : result Z :=
  PyFloat.to_int (PyFloat.mul (PyFloat.sub stop start) (PyFloat.lit 1000 1)).

(** The body of the closure [tracked_create] of either module.  The names
    [_original_create] and [_tracker] are module globals, read when the
    closure runs; [invoke] calls a callable. *)
Definition tracked_create_body (p : provider)
    (invoke : callable -> call_args -> M Response) (a : call_args)
  : M Response :=
  start <- perf_counter ;;
  h <- get_hook p ;;
  original <- match _original_create h with
              | Some f => ret f
              | None => raise TypeError
              end ;;
  result_ <- invoke original a ;;
  stop <- perf_counter ;;
  duration <- lift (elapsed_ms start stop) ;;
  match p with
  | anthropic =>
      h <- get_hook p ;;
      tr <- match _tracker h with
            | Some t => ret t
            | None => raise (AttributeError "track")
            end ;;
      m <- getattr "model" (resp_model result_) ;;
      u <- getattr "usage" (resp_usage result_) ;;
      i <- match u with
           | Some us => ret (usage_in us)
           | None => raise (AttributeError "input_tokens")
           end ;;
      u' <- getattr "usage" (resp_usage result_) ;;
      o <- match u' with
           | Some us => ret (usage_out us)
           | None => raise (AttributeError "output_tokens")
           end ;;
      track tr m i o None None (Some duration) None ;;;
      ret result_
  | openai =>
      u <- getattr "usage" (resp_usage result_) ;;
      match u with
      | Some _ =>
          h <- get_hook p ;;
          tr <- match _tracker h with
                | Some t => ret t
                | None => raise (AttributeError "track")
                end ;;
          m <- getattr "model" (resp_model result_) ;;
          u1 <- getattr "usage" (resp_usage result_) ;;
          i <- match u1 with
               | Some us => ret (usage_in us)
               | None => raise (AttributeError "prompt_tokens")
               end ;;
          u2 <- getattr "usage" (resp_usage result_) ;;
          o <- match u2 with
               | Some us => ret (usage_out us)
               | None => raise (AttributeError "completion_tokens")
               end ;;
          track tr m i o None None (Some duration) None ;;;
          ret result_
      | None => ret result_
      end
  end.

(** Calling a callable, [depth] frames below the recursion limit. *)
Fixpoint call (depth : nat) (f : callable) (a : call_args) : M Response :=
  match depth with
  | O => raise RecursionError
  | S d =>
      match f with
      | Foreign n =>
          fun w => (foreign_code w n (List.length (calls w)) a, log_call n a w)
      | tracked_create p => tracked_create_body p (call d) a
      end
  end.

Definition recursion_limit : nat := 1000.

(** The host program calling the provider's [create] method. *)
Definition call_site (p : provider) (a : call_args) : M Response :=
  h <- get_hook p ;;
  match library_create h with
  | Some f => call recursion_limit f a
  | None => raise (ImportError (not_installed_message p))
  end.

(** Monkey-patch the provider's SDK to track costs. *)
Definition instrument (p : provider) (tracker : CostTracker) : M unit :=
  h <- get_hook p ;;
  match library_create h with
  | None => raise (ImportError (not_installed_message p))
  | Some current =>
      match _original_create h with
      | Some _ => ret tt  (* Already instrumented *)
      | None =>
          put_hook p {| library_create := Some (tracked_create p);
                        _original_create := Some current;
                        _tracker := Some tracker |}
      end
  end.

(** Remove instrumentation. *)
Definition uninstrument (p : provider) : M unit :=
  h <- get_hook p ;;
  match _original_create h with
  | None => ret tt
  | Some original =>
      match library_create h with
      | Some _ =>
          put_hook p {| library_create := Some original;
                        _original_create := None;
                        _tracker := None |}
      | None => ret tt  (* except ImportError: pass *)
      end
  end.

(* ================================================================== *)
(** ** tracker.py: the instrumentation methods and [track_usage] *)

(** Auto-instrument the Anthropic SDK. *)
Definition instrument_anthropic (self : CostTracker) : M unit :=
  instrument anthropic self.

(** Auto-instrument the OpenAI SDK. *)
Definition instrument_openai (self : CostTracker) : M unit :=
  instrument openai self.

(** [getattr(o, name, default)], for an attribute that may be missing. *)
Definition getattr_or {A} (a : pyattr A) (default : A) : A :=
  match a with
  | Present v => v
  | Absent => default
  end.

(** The token attributes of a usage object, by the SDK it comes from: an
    Anthropic usage has [input_tokens] and [output_tokens], an OpenAI usage
    has [prompt_tokens] and [completion_tokens]. *)
Definition usage_attr (sdk : provider) (us : Usage) (name : string)
  : pyattr Z :=
  match sdk with
  | anthropic =>
      if String.eqb name "input_tokens" then Present (usage_in us)
      else if String.eqb name "output_tokens" then Present (usage_out us)
      else Absent
  | openai =>
      if String.eqb name "prompt_tokens" then Present (usage_in us)
      else if String.eqb name "completion_tokens" then Present (usage_out us)
      else Absent
  end.

(** [getattr(getattr(result, 'usage', None), name, 0)]. *)
Definition usage_tokens_or_zero (sdk : provider) (result_ : Response)
    (name : string) : Z :=
  match getattr_or (resp_usage result_) None with
  | None => 0
  | Some us => getattr_or (usage_attr sdk us name) 0
  end.

(** The [wrapper] that [track_usage(tracker, model, user_id, feature)(fn)]
    returns, called with [a]; [sdk] is the SDK whose result objects [fn]
    returns. *)
Definition track_usage (sdk : provider) (tracker : CostTracker)
    (model_ : string) (user_id_ feature_ : option string) (fn : callable)
    (a : call_args) : M Response :=
  start <- perf_counter ;;
  result_ <- call recursion_limit fn a ;;
  stop <- perf_counter ;;
  duration_ms_ <- lift (elapsed_ms start stop) ;;
  (* Extract token usage from response *)
  let input_tokens_ := usage_tokens_or_zero sdk result_ "input_tokens" in
  let output_tokens_ := usage_tokens_or_zero sdk result_ "output_tokens" in
  track tracker model_ input_tokens_ output_tokens_ user_id_ feature_
        (Some duration_ms_) None ;;;
  ret result_.

(* ================================================================== *)
(** ** The hosted service: hosted/db.py, hosted/api/auth.py and the event
       routes of hosted/api/routes.py *)

Module Hosted.

(** The exceptions the service raises or lets through. *)
Inductive exn : Type :=
  | RuntimeError (msg : string)
  | ValueError (msg : string)
  | HTTPException (status_code : Z) (detail : string)
  | PostgresError (code : nat).

Inductive outcome (A : Type) : Type :=
  | Returns (a : A)
  | Raises (e : exn).

Arguments Returns {A} a.
Arguments Raises {A} e.

(** An [asyncpg.Pool], by its identity. *)
Definition Pool : Type := nat.

(** A row of [SELECT ak.id, ak.key_hash, ak.customer_id FROM api_keys ak]. *)
Record ApiKeyRow : Type := {
  ak_id : UUID;
  ak_key_hash : string;
  ak_customer_id : UUID
}.

Record AuthContext : Type := {
  customer_id : UUID;
  api_key_id : UUID
}.

(** The validated body of [POST /v1/events]. *)
Record EventRequest : Type := {
  req_id : option UUID;
  req_timestamp : option datetime;
  req_model : string;
  req_input_tokens : Z;
  req_output_tokens : Z;
  req_input_cost : float;
  req_output_cost : float;
  req_total_cost : float;
  req_duration_ms : option Z;
  req_user_id : option string;
  req_feature : option string;
  req_metadata : option (list (string * json))
}.

(** A query parameter. *)
Inductive sql_value : Type :=
  | SqlNull
  | SqlInt (n : Z)
  | SqlText (s : string)
  | SqlUuid (u : UUID)
  | SqlDecimalOfStr (x : float)        (* Decimal(str(x)) *)
  | SqlJson (fields : list (string * json)).

Definition sql_opt {A : Type} (f : A -> sql_value) (o : option A)
  : sql_value :=
  match o with Some a => f a | None => SqlNull end.

(** What the service asks of the database. *)
Inductive db_operation : Type :=
  (* db.acquire() *)
  | Acquire (pool : Pool)
  (* SELECT ak.id, ak.key_hash, ak.customer_id FROM api_keys ak
     WHERE ak.key_prefix = $1 AND ak.revoked_at IS NULL *)
  | SelectApiKey (key_prefix : string)
  (* UPDATE api_keys SET last_used_at = now() WHERE id = $1 *)
  | UpdateLastUsed (key_id : UUID)
  (* INSERT INTO events (customer_id, model, input_tokens, output_tokens,
     input_cost, output_cost, total_cost, duration_ms, user_id, feature,
     metadata) VALUES ($1, ..., $11) *)
  | InsertEvent (params : list sql_value).

Record Server : Type := {
  (* what the outside answers *)
  environ : string -> option string;
  create_pool : nat -> string -> Z -> Z -> outcome Pool;
  close_pool : Pool -> option exn;
  database_fails : nat -> db_operation -> option exn;
  select_api_key : nat -> string -> option ApiKeyRow;
  checkpw : string -> string -> outcome bool;
  token_urlsafe : nat -> Z -> string;
  gensalt : nat -> string;
  hashpw : string -> string -> outcome string;
  (* the module global of db.py *)
  _pool : option Pool;
  (* what the service has done so far *)
  pools_created : list Pool;
  pools_closed : list Pool;
  operations : list db_operation;
  draws : nat
}.

Definition H (A : Type) : Type := Server -> outcome A * Server.

Definition ret {A} (a : A) : H A := fun s => (Returns a, s).

Definition raise {A} (e : exn) : H A := fun s => (Raises e, s).

Definition bind {A B} (c : H A) (k : A -> H B) : H B :=
  fun s => match c s with
           | (Returns a, s') => k a s'
           | (Raises e, s') => (Raises e, s')
           end.

Notation "'let*' x ':=' c 'in' k" := (bind c (fun x => k))
  (at level 10, x name, c at level 100, k at level 200).

(** [_pool = pool] for a pool just created; [_pool = None] for a pool
    just closed. *)
Definition pool_created (pool : Pool) (s : Server) : Server :=
  {| environ := environ s; create_pool := create_pool s;
     close_pool := close_pool s; database_fails := database_fails s;
     select_api_key := select_api_key s; checkpw := checkpw s;
     token_urlsafe := token_urlsafe s; gensalt := gensalt s;
     hashpw := hashpw s;
     _pool := Some pool;
     pools_created := pools_created s ++ [pool];
     pools_closed := pools_closed s;
     operations := operations s; draws := draws s |}.

Definition pool_closed (pool : Pool) (s : Server) : Server :=
  {| environ := environ s; create_pool := create_pool s;
     close_pool := close_pool s; database_fails := database_fails s;
     select_api_key := select_api_key s; checkpw := checkpw s;
     token_urlsafe := token_urlsafe s; gensalt := gensalt s;
     hashpw := hashpw s;
     _pool := None;
     pools_created := pools_created s;
     pools_closed := pools_closed s ++ [pool];
     operations := operations s; draws := draws s |}.

Definition log_operation (op : db_operation) (s : Server) : Server :=
  {| environ := environ s; create_pool := create_pool s;
     close_pool := close_pool s; database_fails := database_fails s;
     select_api_key := select_api_key s; checkpw := checkpw s;
     token_urlsafe := token_urlsafe s; gensalt := gensalt s;
     hashpw := hashpw s;
     _pool := _pool s;
     pools_created := pools_created s; pools_closed := pools_closed s;
     operations := operations s ++ [op]; draws := draws s |}.

Definition draw (s : Server) : Server :=
  {| environ := environ s; create_pool := create_pool s;
     close_pool := close_pool s; database_fails := database_fails s;
     select_api_key := select_api_key s; checkpw := checkpw s;
     token_urlsafe := token_urlsafe s; gensalt := gensalt s;
     hashpw := hashpw s;
     _pool := _pool s;
     pools_created := pools_created s; pools_closed := pools_closed s;
     operations := operations s; draws := S (draws s) |}.

(** One operation on the database: it is sent, and fails or not. *)
Definition database (op : db_operation) : H unit :=
  fun s =>
    match database_fails s (List.length (operations s)) op with
    | Some e => (Raises e, log_operation op s)
    | None => (Returns tt, log_operation op s)
    end.

(** [conn.fetchrow] of the query on [api_keys]: the first row of the
    answer, or [None]. *)
Definition fetchrow_api_key (key_prefix : string) : H (option ApiKeyRow) :=
  fun s =>
    match database_fails s (List.length (operations s))
                         (SelectApiKey key_prefix) with
    | Some e => (Raises e, log_operation (SelectApiKey key_prefix) s)
    | None =>
        (Returns (select_api_key s (List.length (operations s)) key_prefix),
         log_operation (SelectApiKey key_prefix) s)
    end.

(** *** hosted/db.py *)

(** Initialize the database connection pool. *)
Definition init_db : H unit :=
  fun s =>
    match environ s "DATABASE_URL" with
    | Some database_url =>
        if String.eqb database_url ""
        then (Raises (ValueError "DATABASE_URL environment variable not set"),
              s)
        else
          match create_pool s (List.length (pools_created s))
                            database_url 2 10 with
          | Returns pool => (Returns tt, pool_created pool s)
          | Raises e => (Raises e, s)
          end
    | None =>
        (Raises (ValueError "DATABASE_URL environment variable not set"), s)
    end.

(** Close the database connection pool. *)
Definition close_db : H unit :=
  fun s =>
    match _pool s with
    | Some pool =>
        match close_pool s pool with
        | Some e => (Raises e, s)
        | None => (Returns tt, pool_closed pool s)
        end
    | None => (Returns tt, s)
    end.

(** Get the database pool. *)
Definition get_db : H Pool :=
  fun s =>
    match _pool s with
    | None => (Raises (RuntimeError "Database not initialized"), s)
    | Some pool => (Returns pool, s)
    end.

(** *** hosted/api/auth.py *)

(** Generate a new API key. Returns [(full_key, prefix, hash)]. *)
Definition generate_api_key : H (string * string * string) :=
  fun s =>
    let random_part := token_urlsafe s (draws s) 32 in
    let full_key := String.append "cg_live_" random_part in
    let key_prefix := substring 0 12 full_key in
    let salt := gensalt s (S (draws s)) in
    match hashpw s full_key salt with
    | Returns key_hash =>
        (Returns (full_key, key_prefix, key_hash), draw (draw s))
    | Raises e => (Raises e, draw (draw s))
    end.

Definition verify_api_key (full_key key_hash : string) : H bool :=
  fun s => (checkpw s full_key key_hash, s).

(** The dependency that authenticates a request, from the bearer token
    on. *)
Definition get_auth_context (token : string) : H AuthContext :=
  if negb (startswith token "cg_live_")
  then raise (HTTPException 401 "Invalid API key format")
  else
    let key_prefix := substring 0 12 token in
    let* db := get_db in
    let* _ := database (Acquire db) in
    let* row := fetchrow_api_key key_prefix in
    match row with
    | None => raise (HTTPException 401 "Invalid API key")
    | Some row =>
        let* valid := verify_api_key token (ak_key_hash row) in
        if negb valid
        then raise (HTTPException 401 "Invalid API key")
        else
          let* _ := database (UpdateLastUsed (ak_id row)) in
          ret {| customer_id := ak_customer_id row;
                 api_key_id := ak_id row |}
    end.

(** *** hosted/api/routes.py *)

(** The eleven parameters of the INSERT into [events]. *)
Definition insert_params (auth : AuthContext) (request : EventRequest)
  : list sql_value :=
  [ SqlUuid (customer_id auth);
    SqlText (req_model request);
    SqlInt (req_input_tokens request);
    SqlInt (req_output_tokens request);
    SqlDecimalOfStr (req_input_cost request);
    SqlDecimalOfStr (req_output_cost request);
    SqlDecimalOfStr (req_total_cost request);
    sql_opt SqlInt (req_duration_ms request);
    sql_opt SqlText (req_user_id request);
    sql_opt SqlText (req_feature request);
    SqlJson (or_empty_dict (req_metadata request)) ].

(** [POST /v1/events], with [auth = Depends(get_auth_context)]. *)
Definition create_event (request : EventRequest) (token : string) : H json :=
  let* auth := get_auth_context token in
  let* db := get_db in
  let* _ := database (Acquire db) in
  let* _ := database (InsertEvent (insert_params auth request)) in
  ret (JDict [("status", JStr "ok")]).

(** The [for event in request.events] loop. *)
Fixpoint insert_events (auth : AuthContext) (events : list EventRequest)
  : H unit :=
  match events with
  | [] => ret tt
  | event :: rest =>
      let* _ := database (InsertEvent (insert_params auth event)) in
      insert_events auth rest
  end.

(** [POST /v1/events/batch]. *)
Definition create_events_batch (events : list EventRequest) (token : string)
  : H json :=
  let* auth := get_auth_context token in
  let* db := get_db in
  let* _ := database (Acquire db) in
  let* _ := insert_events auth events in
  ret (JDict [("status", JStr "ok");
              ("count", JInt (Z.of_nat (List.length events)))]).

End Hosted.

(* ================================================================== *)
(** * Definitions for the statements *)

(* ================================================================== *)
(** ** The price catalog as the specification describes it *)

Module Spec.

(** Step 1 of the catalog's [resolve]: replace an alias by its canonical
    id. *)
Definition canonical (aliases : list (string * string)) (model_name : string)
  : string :=
  match dict_get aliases model_name with
  | Some c => c
  | None => model_name
  end.

(** An entry matches a name by prefix when its id is a prefix of the name
    or the name is a prefix of its id. *)
Definition prefix_match (name : string) (entry : string * price_pair) : bool :=
  String.prefix (fst entry) name || String.prefix name (fst entry).

(** [resolve]: alias replacement, then the exact match, then the first
    entry in declaration order that matches by prefix; [None] is
    [Unresolved]. *)
Definition resolve (pricing : list (string * price_pair))
    (aliases : list (string * string)) (model_name : string)
  : option price_pair :=
  let name := canonical aliases model_name in
  match dict_get pricing name with
  | Some entry => Some entry
  | None => option_map snd (find (prefix_match name) pricing)
  end.

(** [tokens / 1_000_000 * price_per_million]. *)
Definition cost (tokens : Z) (price_per_million : float) : result float :=
  match PyFloat.int_truediv tokens 1000000 with
  | Ok q => Ok (PyFloat.mul q price_per_million)
  | Raise e => Raise e
  end.

(** [compute_cost]: zero for [Unresolved]; the total is the sum of the
    two costs. *)
Definition compute_cost (entry : option price_pair)
    (input_tokens output_tokens : Z) : result costs :=
  match entry with
  | None => Ok (PyFloat.zero, PyFloat.zero, PyFloat.zero)
  | Some (pi, po) =>
      match cost input_tokens pi with
      | Raise e => Raise e
      | Ok input_cost =>
          match cost output_tokens po with
          | Raise e => Raise e
          | Ok output_cost =>
              Ok (input_cost, output_cost,
                  PyFloat.add input_cost output_cost)
          end
      end
  end.

End Spec.

(** A price of the table: a positive finite float in normal form. *)
Definition price_ok (p : float) : bool :=
  match p with
  | S754_finite false m e => bounded 53 1024 m e
  | _ => false
  end.

(** The three costs are [>= 0], in the order of floats. *)
Definition costs_nonnegative (c : costs) : Prop :=
  PyFloat.leb PyFloat.zero (fst (fst c)) = true
  /\ PyFloat.leb PyFloat.zero (snd (fst c)) = true
  /\ PyFloat.leb PyFloat.zero (snd c) = true.

(** Each cost of [c] is [<=] the same cost of [c']. *)
Definition costs_le (c c' : costs) : Prop :=
  PyFloat.leb (fst (fst c)) (fst (fst c')) = true
  /\ PyFloat.leb (snd (fst c)) (snd (fst c')) = true
  /\ PyFloat.leb (snd c) (snd c') = true.

(** Position of the first entry with a given key. *)
Fixpoint index_of (k : string) (keys : list string) : option nat :=
  match keys with
  | [] => None
  | k' :: rest => if String.eqb k' k then Some O
                  else option_map S (index_of k rest)
  end.

(** The longest key that matches a name by prefix (what a longest-prefix
    rule would pick). *)
Definition longest_match (pricing : list (string * price_pair)) (name : string)
  : option (string * price_pair) :=
  fold_left (fun best entry =>
               if Spec.prefix_match name entry
               then match best with
                    | Some b => if (String.length (fst b) <? String.length (fst entry))%nat
                                then Some entry else best
                    | None => Some entry
                    end
               else best)
            pricing None.

(* ================================================================== *)
(** ** Attribution defaults as the specification describes them *)

Module Attribution.

(** The effective [user_id] or [feature] in the specification's words: the
    explicit argument if given, else the tracker's default, else absent. *)
Definition effective (explicit default : option string) : option string :=
  match explicit with
  | Some x => Some x
  | None => default
  end.

End Attribution.

(* ================================================================== *)
(** ** Requests, events and what the transport does *)

(** The request [send_event] puts on the wire, and the one of
    [send_events_batch]. *)
Definition event_request (self : APIClient) (event : UsageEvent) : request :=
  {| url := String.append (base_url self) "/v1/events";
     authorization := auth_header self;
     body := event_payload event;
     timeout := client_timeout self |}.


(** What [send_event] and [send_events_batch] do with their request [r]:
    building it may raise, and then nothing is sent; once it is sent, the
    exceptions of [httpx.HTTPError] and the status are discarded. *)
Definition dispatch (r : request) (w : World) : result unit * World :=
  match network w (List.length (requests w)) r with
  | Fails InvalidURL => (Raise (Httpx InvalidURL), w)
  | outcome =>
      if json_encodable (body r)
      then (match outcome with
            | Responds _ => Ok tt
            | Fails e => if is_HTTPError (Httpx e) then Ok tt
                         else Raise (Httpx e)
            end, log_request r w)
      else (Raise ValueError, w)
  end.

(** Whether the payload of an event can be encoded: its ints fit the
    limit of int to str conversion, its costs are finite, and its metadata
    can be encoded. *)
Definition event_encodable (ev : UsageEvent) : bool :=
  int_encodable (input_tokens ev)
  && int_encodable (output_tokens ev)
  && is_finite (input_cost ev)
  && is_finite (output_cost ev)
  && is_finite (total_cost ev)
  && match duration_ms ev with
     | Some d => int_encodable d
     | None => true
     end
  && json_encodable (JDict (metadata ev)).


(** The costs of [2 ^ 1023 - 1] tokens at the prices of an entry. *)
Definition largest_costs (entry : string * price_pair) : costs :=
  let q := PyFloat.nearest (2 ^ 1023 - 1) 1000000 in
  (PyFloat.mul q (fst (snd entry)), PyFloat.mul q (snd (snd entry)),
   PyFloat.add (PyFloat.mul q (fst (snd entry)))
               (PyFloat.mul q (snd (snd entry)))).

(** The event [track] builds in world [w] once the costs are known. *)
Definition built_event (self : CostTracker) (model_ : string) (i o : Z)
    (c : costs) (u f : option string) (d : option Z)
    (md : option (list (string * json))) (w : World) : UsageEvent :=
  {| id := uuid4_source w (ticks w);
     timestamp := utc_clock w (S (ticks w));
     model := model_;
     input_tokens := i;
     output_tokens := o;
     input_cost := fst (fst c);
     output_cost := snd (fst c);
     total_cost := snd c;
     duration_ms := d;
     user_id := or_str u (default_user_id self);
     feature := or_str f (default_feature self);
     metadata := or_empty_dict md |}.

(** Whether the optional arguments [duration_ms] and [metadata] of [track]
    can be encoded. *)
Definition optional_args_encodable (d : option Z)
    (md : option (list (string * json))) : bool :=
  match d with
  | Some n => int_encodable n
  | None => true
  end
  && json_encodable (JDict (or_empty_dict md)).

(** The failures of the transport: timeouts, connection and other network
    errors, protocol and proxy errors, undecodable or redirected-away
    responses, and responses whose status is not 2xx. *)
Definition transport_failure (o : post_outcome) : bool :=
  match o with
  | Responds status => negb ((200 <=? status) && (status <=? 299))
  | Fails (ConnectTimeout | ReadTimeout | WriteTimeout | PoolTimeout) => true
  | Fails (ConnectError | ReadError | WriteError | CloseError) => true
  | Fails (LocalProtocolError | RemoteProtocolError) => true
  | Fails (ProxyError | UnsupportedProtocol) => true
  | Fails (DecodingError | TooManyRedirects) => true
  | Fails (HTTPStatusError _) => true
  | Fails (InvalidURL | CookieConflict | StreamClosed) => false
  end.

(** The transport answers, or fails as above. *)
Definition answers_or_fails (o : post_outcome) : bool :=
  match o with
  | Responds _ => true
  | Fails _ => transport_failure o
  end.


(* ================================================================== *)
(** ** The hook state machine and the wrappers *)

Inductive hook_status : Type := NOT_INSTALLED | INSTALLED.

Definition status_of (h : HookState) : hook_status :=
  match _original_create h with
  | Some _ => INSTALLED
  | None => NOT_INSTALLED
  end.

Inductive hook_op : Type :=
  | Install (tracker : CostTracker)
  | Uninstall.

Definition run_op (p : provider) (op : hook_op) : M unit :=
  match op with
  | Install tracker => instrument p tracker
  | Uninstall => uninstrument p
  end.

(** A sequence of operations, each started where the previous one left the
    world (whether it returned or raised). *)
Fixpoint run_ops (p : provider) (ops : list hook_op) (w : World) : World :=
  match ops with
  | [] => w
  | op :: rest => run_ops p rest (snd (run_op p op w))
  end.

(** How many [tracked_create] layers stand between the slot and a callable
    of the library: none when the slot holds a foreign callable, one when it
    holds the wrapper and the captured original is foreign. *)
Definition wrap_depth (h : HookState) : option nat :=
  match library_create h with
  | None => None
  | Some (Foreign _) => Some 0%nat
  | Some (tracked_create _) =>
      match _original_create h with
      | Some (Foreign _) => Some 1%nat
      | _ => None
      end
  end.

(** The two shapes of a provider's hook: not installed, with the library's
    callable [f] in the slot; installed, with the wrapper in the slot and
    [f] captured. *)
Definition not_installed_hook (f : callable) : HookState :=
  {| library_create := Some f; _original_create := None; _tracker := None |}.

Definition installed_hook (p : provider) (f : callable) (t : CostTracker)
  : HookState :=
  {| library_create := Some (tracked_create p);
     _original_create := Some f;
     _tracker := Some t |}.

(** The world in which the tracking part of a wrapper runs: the clock was
    read, the original callable [Foreign n] was called with [a], and the
    clock was read again. *)
Definition after_original_call (n : nat) (a : call_args) (w : World) : World :=
  tick (log_call n a (tick w)).

(** What the wrapper does after the original callable returned [r] and the
    duration [d] was measured. *)
Definition after_result (p : provider) (t : CostTracker) (r : Response)
    (d : Z) (w : World) : result Response * World :=
  let tracked m us :=
    match track t m (usage_in us) (usage_out us) None None (Some d) None w with
    | (Ok _, w') => (Ok r, w')
    | (Raise e, w') => (Raise e, w')
    end in
  match p with
  | anthropic =>
      match resp_model r, resp_usage r with
      | Absent, _ => (Raise (AttributeError "model"), w)
      | Present _, Absent => (Raise (AttributeError "usage"), w)
      | Present _, Present None => (Raise (AttributeError "input_tokens"), w)
      | Present m, Present (Some us) => tracked m us
      end
  | openai =>
      match resp_usage r, resp_model r with
      | Absent, _ => (Raise (AttributeError "usage"), w)
      | Present None, _ => (Ok r, w)
      | Present (Some _), Absent => (Raise (AttributeError "model"), w)
      | Present (Some us), Present m => tracked m us
      end
  end.

(* ================================================================== *)
(** ** Binary64 rounding *)

(** The operations of [PyFloat] round an exact rational result to the
    nearest binary64 value.  These definitions relate them to the rationals:
    a rational is located between two multiples of a power of two, shifted,
    rounded to a mantissa at an exponent, and brought to normal form. *)

Definition bpow (e : Z) : Q := (2 ^ e)%Q.

(** The binary magnitude of a positive rational. *)
Definition mag (x : Q) (k : Z) : Prop := (bpow (k - 1) <= x < bpow k)%Q.

(** Where [u] lies in [[0, v)]: at 0, or below, at or above the middle. *)
Definition Qloc (u v : Q) : location :=
  if Qeq_bool u 0 then loc_Exact else loc_Inexact (2 * u ?= v)%Q.

(** [x] lies in [[m * step, (m + 1) * step)] at location [l]. *)
Definition located (x step : Q) (m : Z) (l : location) : Prop :=
  (inject_Z m * step <= x < inject_Z (m + 1) * step)%Q
  /\ l = Qloc (x - inject_Z m * step) step.

Definition inb (x : Q) (m e : Z) (l : location) : Prop :=
  located x (bpow e) m l.

(** The location after one more bit is shifted out. *)
Definition next_loc (odd : bool) (l : location) : location :=
  match odd, l with
  | false, loc_Exact => loc_Exact
  | false, loc_Inexact _ => loc_Inexact Lt
  | true, loc_Exact => loc_Inexact Eq
  | true, loc_Inexact _ => loc_Inexact Gt
  end.

Definition fexp64 (k : Z) : Z := fexp 53 1024 k.

(** The end of [binary_round_aux] for a non-negative number: the rounded
    mantissa is brought back to 53 bits and the exponent is checked. *)
Definition finish (m2 E : Z) : spec_float :=
  let '(mrs, e) := shr_fexp 53 1024 m2 E loc_Exact in
  match shr_m mrs with
  | Z0 => S754_zero false
  | Zpos m => if e <=? 1024 - 53 then S754_finite false m e
              else S754_infinity false
  | Zneg _ => S754_nan
  end.

(** [x] rounds to the mantissa [m2] at the exponent [E]. *)
Definition rounds_to (x : Q) (m2 E : Z) : Prop :=
  exists k m1 l1,
    mag x k /\ E = fexp64 k /\ 0 <= m1 /\ inb x m1 E l1
    /\ m2 = round_nearest_even m1 l1.

(** The float a rounded mantissa at an exponent stands for. *)
Definition normal_mantissa (m2 : Z) : Z := if m2 =? 2 ^ 53 then 2 ^ 52 else m2.
Definition normal_exponent (m2 E : Z) : Z := if m2 =? 2 ^ 53 then E + 1 else E.

(** Non-negative floats in normal form: [+0.0], [+inf], and the positive
    finite floats whose mantissa and exponent are those of binary64. *)
Definition nonneg_valid (f : spec_float) : bool :=
  match f with
  | S754_zero false => true
  | S754_infinity false => true
  | S754_finite false m e => bounded 53 1024 m e
  | _ => false
  end.

(** The value of a non-negative float ([0] for [+inf], which the callers
    treat apart). *)
Definition Qval (f : spec_float) : Q :=
  match f with
  | S754_finite false m e => (inject_Z (Zpos m) * bpow e)%Q
  | _ => 0%Q
  end.

(* ================================================================== *)
(** ** Requests of a tracker and trailing slashes *)

(** The requests a tracker puts on the wire for one event: one when it has
    a client, none in local mode. *)
Definition event_requests (t : CostTracker) (ev : UsageEvent) : list request :=
  match _client t with
  | Some client => [event_request client ev]
  | None => []
  end.


(* ================================================================== *)
(** ** What the hosted service sends to its database *)

(** Several operations sent to the database, in order. *)
Definition log_operations (ops : list Hosted.db_operation)
    (s : Hosted.Server) : Hosted.Server :=
  fold_left (fun s' op => Hosted.log_operation op s') ops s.

(** The INSERT of one event for an authenticated caller. *)
Definition insert_of (auth : Hosted.AuthContext)
    (event : Hosted.EventRequest) : Hosted.db_operation :=
  Hosted.InsertEvent (Hosted.insert_params auth event).

(** Any operation but an INSERT into [events]. *)
Definition not_an_insert (op : Hosted.db_operation) : Prop :=
  match op with
  | Hosted.InsertEvent _ => False
  | _ => True
  end.

(* ================================================================== *)
(** ** Example values *)

Definition example_datetime : datetime :=
  {| year := 2025; month := 2; day := 1;
     hour := 12; minute := 30; second := 0; microsecond := 0 |}.

Definition example_args : call_args :=
  {| self_arg := JStr "client.messages";
     args := [];
     kwargs := [("model", JStr "claude-3-5-sonnet-20241022");
                ("max_tokens", JInt 1024)] |}.

Definition fresh_hook : HookState :=
  {| library_create := Some (Foreign 0);
     _original_create := None;
     _tracker := None |}.

(** A world in which the network gives [net], the SDKs' own [create] returns
    [reply], both libraries are importable and nothing is instrumented. *)
Definition example_world (net : nat -> request -> post_outcome)
    (reply : Response) : World :=
  {| uuid4_source := fun n => Z.of_nat n + 1000;
     utc_clock := fun _ => example_datetime;
     perf_clock := fun n => PyFloat.nearest (Z.of_nat n) 4;
     network := net;
     foreign_code := fun _ _ _ => Ok reply;
     ticks := 0;
     requests := [];
     calls := [];
     hooks := fun _ => fresh_hook |}.

Definition reply_with_usage : Response :=
  {| resp_model := Present "claude-3-5-sonnet-20241022";
     resp_usage := Present (Some {| usage_in := 1000; usage_out := 500 |});
     resp_payload := JStr "Hello" |}.

Definition reply_without_usage : Response :=
  {| resp_model := Present "claude-3-5-sonnet-20241022";
     resp_usage := Present None;
     resp_payload := JStr "Hello" |}.

(** A streaming result: an object with neither [model] nor [usage]. *)
Definition reply_stream : Response :=
  {| resp_model := Absent;
     resp_usage := Absent;
     resp_payload := JStr "event stream" |}.

Definition server_error : nat -> request -> post_outcome :=
  fun _ _ => Responds 500.

Definition accepts : nat -> request -> post_outcome :=
  fun _ _ => Responds 200.

Definition local_tracker : CostTracker :=
  CostTracker_init None "https://api.cost-gpt.com" (Some "bob") (Some "chat").

Definition hosted_tracker : CostTracker :=
  CostTracker_init (Some "key") "https://api.cost-gpt.com/" None None.

(** The example world after [instrument p] with a tracker that dispatches to
    a server answering 500. *)
Definition instrumented_world (p : provider) (reply : Response) : World :=
  snd (instrument p hosted_tracker (example_world server_error reply)).

(** The example world with an SDK whose [create] raises. *)
Definition raising_world (e : exn) : World :=
  {| uuid4_source := fun n => Z.of_nat n + 1000;
     utc_clock := fun _ => example_datetime;
     perf_clock := fun n => PyFloat.nearest (Z.of_nat n) 4;
     network := accepts;
     foreign_code := fun _ _ _ => Raise e;
     ticks := 0;
     requests := [];
     calls := [];
     hooks := fun _ => fresh_hook |}.

(** A row of the key table, a server that has it, and a body. *)
Definition example_row : Hosted.ApiKeyRow :=
  {| Hosted.ak_id := 7;
     Hosted.ak_key_hash := "$2b$12$hash";
     Hosted.ak_customer_id := 42 |}.

(** A server whose database fails at the operation number [failing]
    ([None]: never), with [pool] as its pool. *)
Definition example_server (pool : option Hosted.Pool)
    (failing : option nat) : Hosted.Server :=
  {| Hosted.environ :=
       fun name => if String.eqb name "DATABASE_URL"
                   then Some "postgresql://localhost/costgpt" else None;
     Hosted.create_pool := fun n _ _ _ => Hosted.Returns n;
     Hosted.close_pool := fun _ => None;
     Hosted.database_fails :=
       fun n _ => match failing with
                  | Some k => if Nat.eqb n k
                              then Some (Hosted.PostgresError 0) else None
                  | None => None
                  end;
     Hosted.select_api_key :=
       fun _ prefix => if String.eqb prefix "cg_live_abcd"
                       then Some example_row else None;
     Hosted.checkpw :=
       fun key h => Hosted.Returns (String.eqb key "cg_live_abcdefgh"
                                    && String.eqb h "$2b$12$hash");
     Hosted.token_urlsafe := fun _ _ => "abcdefgh";
     Hosted.gensalt := fun _ => "$2b$12$salt";
     Hosted.hashpw := fun _ _ => Hosted.Returns "$2b$12$hash";
     Hosted._pool := pool;
     Hosted.pools_created := [];
     Hosted.pools_closed := [];
     Hosted.operations := [];
     Hosted.draws := 0 |}.

Definition example_body (model_ : string) : Hosted.EventRequest :=
  {| Hosted.req_id := Some 1000;
     Hosted.req_timestamp := Some example_datetime;
     Hosted.req_model := model_;
     Hosted.req_input_tokens := 1000;
     Hosted.req_output_tokens := 500;
     Hosted.req_input_cost := PyFloat.lit 25 10000;
     Hosted.req_output_cost := PyFloat.lit 5 1000;
     Hosted.req_total_cost := PyFloat.lit 75 10000;
     Hosted.req_duration_ms := Some 250;
     Hosted.req_user_id := None;
     Hosted.req_feature := Some "chat";
     Hosted.req_metadata := None |}.

Definition example_auth : Hosted.AuthContext :=
  {| Hosted.customer_id := 42; Hosted.api_key_id := 7 |}.

(* ================================================================== *)
(** * Properties *)

(* ================================================================== *)
(** ** Binary64 arithmetic on non-negative numbers *)

(** Each operation on non-negative floats is the rounding of a located
    rational; rounding is monotone, and it stays finite below [2 ^ 1023]. *)

(** *** Binary digits *)

Lemma digits2_pos_bounds (p : positive) :
  2 ^ (Zpos (digits2_pos p) - 1) <= Zpos p < 2 ^ Zpos (digits2_pos p).
Proof.
  induction p as [p IH|p IH|]; cbn [digits2_pos].
  - rewrite Pos2Z.inj_succ.
    replace (Z.succ (Zpos (digits2_pos p)) - 1) with (Z.succ (Zpos (digits2_pos p) - 1)) by lia.
    rewrite !Z.pow_succ_r by lia. lia.
  - rewrite Pos2Z.inj_succ.
    replace (Z.succ (Zpos (digits2_pos p)) - 1) with (Z.succ (Zpos (digits2_pos p) - 1)) by lia.
    rewrite !Z.pow_succ_r by lia. lia.
  - simpl. lia.
Qed.

Lemma Zdigits2_bounds (m : Z) :
  0 < m -> 2 ^ (Zdigits2 m - 1) <= m < 2 ^ Zdigits2 m.
Proof.
  destruct m as [|p|p]; try lia. intros _. apply digits2_pos_bounds.
Qed.

Lemma Zdigits2_pos (m : Z) : 0 < m -> 0 < Zdigits2 m.
Proof. destruct m; simpl; lia. Qed.

Lemma Zdigits2_unique (m k : Z) :
  0 < m -> 2 ^ (k - 1) <= m < 2 ^ k -> Zdigits2 m = k.
Proof.
  intros Hm [Hlo Hhi].
  pose proof (Zdigits2_bounds Hm) as [Dlo Dhi].
  pose proof (Zdigits2_pos Hm) as Dpos.
  assert (0 < k).
  { destruct (Z_lt_le_dec 0 k); [assumption|].
    destruct (Z.eq_dec k 0) as [->|]; [simpl in Hhi; lia|].
    rewrite Z.pow_neg_r in Hhi by lia. lia. }
  destruct (Z_lt_le_dec (Zdigits2 m) k).
  - assert (2 ^ Zdigits2 m <= 2 ^ (k - 1)) by (apply Z.pow_le_mono_r; lia). lia.
  - destruct (Z_lt_le_dec k (Zdigits2 m)); [|lia].
    assert (2 ^ k <= 2 ^ (Zdigits2 m - 1)) by (apply Z.pow_le_mono_r; lia). lia.
Qed.

(** *** Powers of two as rationals *)

Lemma bpow_pos (e : Z) : (0 < bpow e)%Q.
Proof. apply Qpower_0_lt. reflexivity. Qed.

Lemma bpow_add (a b : Z) : (bpow (a + b) == bpow a * bpow b)%Q.
Proof. apply Qpower_plus. discriminate. Qed.

Lemma bpow_succ (e : Z) : (bpow (e + 1) == 2 * bpow e)%Q.
Proof. rewrite bpow_add. unfold bpow at 2. simpl. ring. Qed.

Lemma bpow_Z (e : Z) : 0 <= e -> (bpow e == inject_Z (2 ^ e))%Q.
Proof. intros H. unfold bpow. now rewrite Zpower_Qpower. Qed.

Lemma bpow_le (a b : Z) : a <= b -> (bpow a <= bpow b)%Q.
Proof.
  intros H. replace b with (a + (b - a)) by ring. rewrite bpow_add.
  assert (1 <= bpow (b - a))%Q.
  { rewrite bpow_Z by lia. change 1%Q with (inject_Z 1). rewrite <- Zle_Qle.
    assert (0 < 2 ^ (b - a)) by (apply Z.pow_pos_nonneg; lia). lia. }
  pose proof (bpow_pos a). nra.
Qed.

Lemma bpow_lt (a b : Z) : a < b -> (bpow a < bpow b)%Q.
Proof.
  intros H. replace b with (a + (b - a)) by ring. rewrite bpow_add.
  assert (2 <= bpow (b - a))%Q.
  { rewrite bpow_Z by lia. change 2%Q with (inject_Z 2). rewrite <- Zle_Qle.
    replace (b - a) with (Z.succ (b - a - 1)) by lia.
    rewrite Z.pow_succ_r by lia.
    assert (0 < 2 ^ (b - a - 1)) by (apply Z.pow_pos_nonneg; lia). lia. }
  pose proof (bpow_pos a). nra.
Qed.

Lemma bpow_lt_inv (a b : Z) : (bpow a < bpow b)%Q -> a < b.
Proof.
  intros H. destruct (Z_lt_le_dec a b); [assumption|].
  pose proof (@bpow_le b a ltac:(lia)). lra.
Qed.

Lemma mag_le (x y : Q) (kx ky : Z) :
  mag x kx -> mag y ky -> (x <= y)%Q -> kx <= ky.
Proof.
  intros [Hx _] [_ Hy] Hxy.
  assert (bpow (kx - 1) < bpow ky)%Q by lra.
  apply bpow_lt_inv in H. lia.
Qed.

Lemma mag_unique (x : Q) (k k' : Z) : mag x k -> mag x k' -> k = k'.
Proof.
  intros H H'.
  pose proof (mag_le H H' ltac:(lra)). pose proof (mag_le H' H ltac:(lra)). lia.
Qed.

(** *** Locations *)

Lemma Qloc_compat (u u' v v' : Q) :
  (u == u')%Q -> (v == v')%Q -> Qloc u v = Qloc u' v'.
Proof.
  intros Hu Hv. unfold Qloc.
  assert (Qeq_bool u 0 = Qeq_bool u' 0) as ->.
  { destruct (Qeq_bool u' 0) eqn:E.
    - apply Qeq_bool_iff. apply Qeq_bool_iff in E. now rewrite Hu.
    - destruct (Qeq_bool u 0) eqn:E'; [|reflexivity].
      apply Qeq_bool_iff in E'. rewrite Hu in E'.
      apply Qeq_bool_iff in E'. congruence. }
  now rewrite Hu, Hv.
Qed.

Lemma located_compat (x step step' : Q) (m : Z) (l : location) :
  (step == step')%Q -> located x step m l -> located x step' m l.
Proof.
  intros Hs [[H1 H2] H3]. split.
  - rewrite <- Hs. now split.
  - rewrite H3. apply Qloc_compat; [|exact Hs]. now rewrite Hs.
Qed.

Lemma Qloc_exact (u v : Q) : Qloc u v = loc_Exact <-> (u == 0)%Q.
Proof.
  unfold Qloc. destruct (Qeq_bool u 0) eqn:E.
  - apply Qeq_bool_iff in E. tauto.
  - split; [discriminate|]. intros H. apply Qeq_bool_iff in H. congruence.
Qed.

Lemma Qloc_inexact (u v : Q) (c : comparison) :
  Qloc u v = loc_Inexact c <-> (~ u == 0)%Q /\ (2 * u ?= v)%Q = c.
Proof.
  unfold Qloc. destruct (Qeq_bool u 0) eqn:E.
  - apply Qeq_bool_iff in E. split; [discriminate|]. tauto.
  - split.
    + intros H. injection H as H. split; [|exact H].
      intros H'. apply Qeq_bool_iff in H'. congruence.
    + intros [_ H]. now rewrite H.
Qed.

Lemma shr_1_next (mrs : shr_record) :
  0 <= shr_m mrs ->
  shr_m (shr_1 mrs) = shr_m mrs / 2
  /\ loc_of_shr_record (shr_1 mrs)
     = next_loc (Z.odd (shr_m mrs)) (loc_of_shr_record mrs).
Proof.
  destruct mrs as [m r s]. cbn [shr_m]. intros Hm.
  destruct m as [|[p|p|]|p]; try lia; cbn [shr_1 shr_m];
    (split; [| destruct r, s; reflexivity]).
  - reflexivity.
  - rewrite Pos2Z.inj_xI. apply (Z.div_unique (2 * Z.pos p + 1) 2 (Z.pos p) 1); lia.
  - rewrite Pos2Z.inj_xO. apply (Z.div_unique (2 * Z.pos p) 2 (Z.pos p) 0); lia.
  - reflexivity.
Qed.

Lemma located_halve (x step : Q) (m : Z) (l : location) :
  (0 < step)%Q -> 0 <= m -> located x step m l ->
  located x (2 * step) (m / 2) (next_loc (Z.odd m) l).
Proof.
  intros Hstep Hm [[Hlo Hhi] Hl].
  pose proof (Z.div_mod m 2 ltac:(lia)) as Hdm.
  pose proof (Z.mod_pos_bound m 2 ltac:(lia)) as Hb.
  rewrite Zmod_odd in Hdm, Hb.
  set (h := m / 2) in *.
  assert (Hm2 : inject_Z m = (2 * inject_Z h + (if Z.odd m then 1 else 0))%Q).
  { rewrite Hdm at 1. rewrite inject_Z_plus, inject_Z_mult.
    destruct (Z.odd m); reflexivity. }
  rewrite inject_Z_plus in Hhi. change (inject_Z 1) with 1%Q in Hhi.
  rewrite Hm2 in Hlo, Hhi.
  split.
  - rewrite inject_Z_plus. change (inject_Z 1) with 1%Q.
    destruct (Z.odd m); split; nra.
  - set (u := (x - inject_Z m * step)%Q) in *.
    assert (Hu : (x - inject_Z h * (2 * step)
                  == u + (if Z.odd m then 1 else 0) * step)%Q).
    { unfold u. rewrite Hm2. destruct (Z.odd m); ring. }
    rewrite (Qloc_compat Hu (Qeq_refl _)).
    assert (Hu0 : (0 <= u)%Q) by (unfold u; rewrite Hm2; lra).
    assert (Hu1 : (u < step)%Q) by (unfold u; rewrite Hm2; lra).
    destruct (Z.odd m); destruct l as [|c]; symmetry in Hl; cbn [next_loc].
    + apply Qloc_exact in Hl. symmetry. apply Qloc_inexact. split.
      * intros E. lra.
      * apply Qeq_alt. lra.
    + apply Qloc_inexact in Hl. destruct Hl as [Hn _].
      symmetry. apply Qloc_inexact. split.
      * intros E. lra.
      * apply (proj1 (Qgt_alt _ _)). assert (~ u == 0 -> 0 <= u -> 0 < u)%Q by (intros; lra).
        lra.
    + apply Qloc_exact in Hl. symmetry. apply Qloc_exact. lra.
    + apply Qloc_inexact in Hl. destruct Hl as [Hn _].
      symmetry. apply Qloc_inexact. split.
      * intros E. apply Hn. lra.
      * apply (proj1 (Qlt_alt _ _)). lra.
Qed.

Lemma iter_pos_invariant (A : Type) (f : A -> A) (P : Z -> A -> Prop) :
  (forall k a, P k a -> P (k + 1) (f a)) ->
  forall p k a, P k a -> P (k + Zpos p) (iter_pos f p a).
Proof.
  intros Hstep. induction p as [p IH|p IH|]; intros k a Ha; cbn [iter_pos].
  - replace (k + Zpos p~1) with (k + 1 + Zpos p + Zpos p) by lia.
    apply IH, IH, Hstep, Ha.
  - replace (k + Zpos p~0) with (k + Zpos p + Zpos p) by lia.
    apply IH, IH, Ha.
  - apply Hstep, Ha.
Qed.

Lemma shr_record_of_loc_m (m : Z) (l : location) :
  shr_m (shr_record_of_loc m l) = m.
Proof. destruct l as [|[]]; reflexivity. Qed.

Lemma loc_of_shr_record_of_loc (m : Z) (l : location) :
  loc_of_shr_record (shr_record_of_loc m l) = l.
Proof. destruct l as [|[]]; reflexivity. Qed.

(** Shifting [n] bits out keeps the number located. *)
Lemma shr_located (x : Q) (m e : Z) (l : location) (n : Z) :
  0 <= m -> inb x m e l ->
  snd (shr (shr_record_of_loc m l) e n) = e + Z.max n 0
  /\ 0 <= shr_m (fst (shr (shr_record_of_loc m l) e n))
  /\ inb x (shr_m (fst (shr (shr_record_of_loc m l) e n)))
         (e + Z.max n 0)
         (loc_of_shr_record (fst (shr (shr_record_of_loc m l) e n))).
Proof.
  intros Hm Hin.
  set (P := fun (k : Z) (mrs : shr_record) =>
              0 <= shr_m mrs
              /\ inb x (shr_m mrs) (e + k) (loc_of_shr_record mrs)).
  assert (P0 : P 0 (shr_record_of_loc m l)).
  { unfold P. rewrite shr_record_of_loc_m, loc_of_shr_record_of_loc, Z.add_0_r.
    now split. }
  assert (Pstep : forall k a, P k a -> P (k + 1) (shr_1 a)).
  { unfold P. intros k a [Ha Hloc].
    destruct (shr_1_next a Ha) as [Hm' Hl']. rewrite Hm', Hl'. split.
    - apply Z.div_pos; lia.
    - unfold inb in *. apply located_compat with (step := (2 * bpow (e + k))%Q).
      + rewrite Z.add_assoc. symmetry. apply bpow_succ.
      + apply located_halve; [apply bpow_pos | exact Ha | exact Hloc]. }
  pose proof (@iter_pos_invariant _ _ P Pstep) as Piter.
  unfold P in P0, Piter. rewrite Z.add_0_r in P0.
  destruct n as [|p|p]; cbn [shr fst snd].
  - rewrite Z.add_0_r. split; [reflexivity|]. exact P0.
  - replace (Z.max (Zpos p) 0) with (Zpos p) by lia. split; [reflexivity|].
    apply (Piter p 0). now rewrite Z.add_0_r.
  - replace (Z.max (Zneg p) 0) with 0 by lia. rewrite Z.add_0_r.
    split; [reflexivity|]. exact P0.
Qed.

(** A located positive mantissa gives the magnitude. *)
Lemma inb_mag (x : Q) (m e : Z) (l : location) :
  0 < m -> inb x m e l -> mag x (Zdigits2 m + e).
Proof.
  intros Hm [[Hlo Hhi] _].
  pose proof (Zdigits2_bounds Hm) as [Dlo Dhi].
  pose proof (Zdigits2_pos Hm) as Dpos.
  pose proof (bpow_pos e) as He.
  unfold mag. split.
  - replace (Zdigits2 m + e - 1) with ((Zdigits2 m - 1) + e) by ring.
    rewrite bpow_add, bpow_Z by lia.
    rewrite Zle_Qle in Dlo. nra.
  - rewrite bpow_add, bpow_Z by lia.
    assert (inject_Z (m + 1) <= inject_Z (2 ^ Zdigits2 m))%Q
      by (rewrite <- Zle_Qle; lia).
    nra.
Qed.

(** *** Rounding to binary64 *)

Lemma fexp64_eq (k : Z) : fexp64 k = Z.max (k - 53) (-1074).
Proof. reflexivity. Qed.

Lemma binary_round_aux_finish (m e : Z) (l : location) :
  binary_round_aux 53 1024 false m e l
  = finish (round_nearest_even
              (shr_m (fst (shr_fexp 53 1024 m e l)))
              (loc_of_shr_record (fst (shr_fexp 53 1024 m e l))))
           (snd (shr_fexp 53 1024 m e l)).
Proof.
  unfold binary_round_aux, finish.
  destruct (shr_fexp 53 1024 m e l) as [mrs e']. reflexivity.
Qed.

Lemma round_nearest_even_bounds (m : Z) (l : location) :
  m <= round_nearest_even m l <= m + 1.
Proof.
  destruct l as [|[]]; cbn [round_nearest_even]; try lia.
  destruct (Z.even m); lia.
Qed.

Lemma binary_round_aux_rounds (x : Q) (m e : Z) (l : location) :
  0 < m -> inb x m e l -> e <= fexp64 (Zdigits2 m + e) ->
  exists m2 E,
    rounds_to x m2 E /\ binary_round_aux 53 1024 false m e l = finish m2 E.
Proof.
  intros Hm Hin Hpre.
  rewrite binary_round_aux_finish. unfold shr_fexp.
  fold (fexp64 (Zdigits2 m + e)).
  destruct (@shr_located x m e l (fexp64 (Zdigits2 m + e) - e)
              ltac:(lia) Hin) as (He & Hpos & Hloc).
  rewrite He.
  replace (e + Z.max (fexp64 (Zdigits2 m + e) - e) 0)
    with (fexp64 (Zdigits2 m + e)) in * by lia.
  eexists. eexists. split; [|reflexivity].
  exists (Zdigits2 m + e). eexists. eexists.
  split; [apply (inb_mag Hm Hin)|].
  split; [reflexivity|]. split; [exact Hpos|]. split; [exact Hloc|reflexivity].
Qed.

Lemma rounds_to_bounds (x : Q) (m2 E : Z) :
  rounds_to x m2 E ->
  0 <= m2 <= 2 ^ 53 /\ -1074 <= E /\ (-1074 < E -> 2 ^ 52 <= m2).
Proof.
  intros (k & m1 & l1 & [Hlo Hhi] & HE & Hm1 & [[Ilo Ihi] _] & Hm2).
  pose proof (round_nearest_even_bounds m1 l1) as Hr. rewrite <- Hm2 in Hr.
  rewrite fexp64_eq in HE.
  pose proof (bpow_pos E) as HbE.
  assert (Hup : m1 < 2 ^ 53).
  { rewrite Zlt_Qlt. rewrite <- bpow_Z by lia.
    assert (Hk : (bpow k == bpow (k - E) * bpow E)%Q)
      by (rewrite <- bpow_add; now replace (k - E + E) with k by ring).
    assert (bpow (k - E) <= bpow 53)%Q by (apply bpow_le; lia).
    rewrite Hk in Hhi. nra. }
  split; [lia|]. split; [lia|].
  intros HEmin. assert (HEk : E = k - 53) by lia.
  assert (2 ^ 52 < m1 + 1); [|lia].
  rewrite Zlt_Qlt. rewrite <- bpow_Z by lia.
  assert (Hk : (bpow (k - 1) == bpow 52 * bpow E)%Q)
    by (rewrite <- bpow_add; now replace (52 + E) with (k - 1) by lia).
  rewrite Hk in Hlo. nra.
Qed.

Lemma shr_nonpos (mrs : shr_record) (e n : Z) :
  n <= 0 -> shr mrs e n = (mrs, e).
Proof. destruct n; try reflexivity. lia. Qed.

Lemma Zdigits2_le_53 (m : Z) : 0 < m < 2 ^ 53 -> Zdigits2 m <= 53.
Proof.
  intros [Hm Hlt]. pose proof (Zdigits2_bounds Hm) as [Dlo _].
  destruct (Z_lt_le_dec 53 (Zdigits2 m)); [|lia].
  assert (2 ^ 53 <= 2 ^ (Zdigits2 m - 1)) by (apply Z.pow_le_mono_r; lia). lia.
Qed.

Lemma Zdigits2_ge_53 (m : Z) : 2 ^ 52 <= m -> 53 <= Zdigits2 m.
Proof.
  intros Hm. assert (0 < m) as Hpos by lia.
  pose proof (Zdigits2_bounds Hpos) as [_ Dhi].
  pose proof (Zdigits2_pos Hpos).
  destruct (Z_lt_le_dec (Zdigits2 m) 53); [|lia].
  assert (2 ^ Zdigits2 m <= 2 ^ 52) by (apply Z.pow_le_mono_r; lia). lia.
Qed.

(** A mantissa in range at its exponent is canonical. *)
Lemma in_range_canonical (m E : Z) :
  0 < m < 2 ^ 53 -> -1074 <= E -> (-1074 < E -> 2 ^ 52 <= m) ->
  fexp64 (Zdigits2 m + E) = E.
Proof.
  intros Hm HE Hnorm. rewrite fexp64_eq.
  pose proof (Zdigits2_le_53 Hm).
  destruct (Z.eq_dec E (-1074)) as [->|]; [lia|].
  pose proof (Zdigits2_ge_53 (Hnorm ltac:(lia))). lia.
Qed.

Lemma finish_zero (E : Z) : -1074 <= E -> finish 0 E = S754_zero false.
Proof.
  intros HE. unfold finish, shr_fexp. rewrite shr_nonpos; [reflexivity|].
  cbn [Zdigits2]. fold (fexp64 (0 + E)). rewrite fexp64_eq. lia.
Qed.

Lemma finish_in_range (m E : Z) :
  0 < m < 2 ^ 53 -> -1074 <= E -> (-1074 < E -> 2 ^ 52 <= m) ->
  finish m E = if E <=? 971 then S754_finite false (Z.to_pos m) E
               else S754_infinity false.
Proof.
  intros Hm HE Hnorm. unfold finish, shr_fexp.
  fold (fexp64 (Zdigits2 m + E)). rewrite (in_range_canonical Hm HE Hnorm).
  rewrite Z.sub_diag. cbn [shr shr_record_of_loc shr_m].
  destruct m as [|p|p]; try lia. reflexivity.
Qed.

Lemma finish_carry (E : Z) :
  -1074 <= E ->
  finish (2 ^ 53) E = if E + 1 <=? 971
                      then S754_finite false (Z.to_pos (2 ^ 52)) (E + 1)
                      else S754_infinity false.
Proof.
  intros HE. unfold finish, shr_fexp.
  fold (fexp64 (Zdigits2 (2 ^ 53) + E)).
  replace (fexp64 (Zdigits2 (2 ^ 53) + E) - E) with 1.
  - reflexivity.
  - rewrite fexp64_eq. change (Zdigits2 (2 ^ 53)) with 54. lia.
Qed.

Lemma finish_spec (m2 E : Z) :
  0 <= m2 <= 2 ^ 53 -> -1074 <= E -> (-1074 < E -> 2 ^ 52 <= m2) ->
  finish m2 E
  = if m2 =? 0 then S754_zero false
    else if normal_exponent m2 E <=? 971
         then S754_finite false (Z.to_pos (normal_mantissa m2))
                          (normal_exponent m2 E)
         else S754_infinity false.
Proof.
  intros Hm HE Hnorm. unfold normal_mantissa, normal_exponent.
  destruct (Z.eqb_spec m2 0) as [->|H0]; [now apply finish_zero|].
  destruct (Z.eqb_spec m2 (2 ^ 53)) as [->|H53]; [now apply finish_carry|].
  apply finish_in_range; [lia | exact HE | exact Hnorm].
Qed.

Lemma normal_form_canonical (m2 E : Z) :
  0 < m2 <= 2 ^ 53 -> -1074 <= E -> (-1074 < E -> 2 ^ 52 <= m2) ->
  0 < normal_mantissa m2 < 2 ^ 53
  /\ -1074 <= normal_exponent m2 E
  /\ (-1074 < normal_exponent m2 E -> 2 ^ 52 <= normal_mantissa m2).
Proof.
  intros Hm HE Hnorm. unfold normal_mantissa, normal_exponent.
  destruct (Z.eqb_spec m2 (2 ^ 53)) as [->|H53].
  - split; [|split]; lia.
  - split; [lia|]. split; [lia|exact Hnorm].
Qed.

Lemma round_nearest_even_Qloc_mono (m : Z) (u u' step : Q) :
  (0 <= u)%Q -> (u <= u')%Q ->
  round_nearest_even m (Qloc u step) <= round_nearest_even m (Qloc u' step).
Proof.
  intros H0 Hle.
  destruct (Qloc u' step) as [|c'] eqn:L'.
  - apply Qloc_exact in L'.
    assert (L : Qloc u step = loc_Exact) by (apply Qloc_exact; lra).
    rewrite L. lia.
  - apply Qloc_inexact in L'. destruct L' as [_ Hc'].
    destruct (Qloc u step) as [|c] eqn:L.
    + pose proof (round_nearest_even_bounds m (loc_Inexact c')).
      cbn [round_nearest_even] in *. lia.
    + apply Qloc_inexact in L. destruct L as [_ Hc].
      destruct c'.
      * apply Qeq_alt in Hc'.
        destruct c; cbn [round_nearest_even]; try lia.
        -- destruct (Z.even m); lia.
        -- apply Qgt_alt in Hc. lra.
      * apply Qlt_alt in Hc'.
        destruct c; cbn [round_nearest_even]; try lia.
        -- apply Qeq_alt in Hc. lra.
        -- apply Qgt_alt in Hc. lra.
      * pose proof (round_nearest_even_bounds m (loc_Inexact c)).
        cbn [round_nearest_even] in *. lia.
Qed.

Lemma fexp64_mono (k k' : Z) : k <= k' -> fexp64 k <= fexp64 k'.
Proof. rewrite !fexp64_eq. lia. Qed.

(** Rounding is monotone: the rounded mantissas are ordered at equal
    exponents, and otherwise the exponents are. *)
Lemma rounds_to_mono (x y : Q) (m2 E m2' E' : Z) :
  (x <= y)%Q -> rounds_to x m2 E -> rounds_to y m2' E' ->
  (E = E' /\ m2 <= m2') \/ E < E'.
Proof.
  intros Hxy (k & m1 & l1 & Hk & HE & Hm1 & [[Ilo Ihi] Il] & Hm2)
             (k' & m1' & l1' & Hk' & HE' & Hm1' & [[Ilo' Ihi'] Il'] & Hm2').
  pose proof (fexp64_mono (mag_le Hk Hk' Hxy)) as HEE.
  rewrite <- HE, <- HE' in HEE.
  destruct (Z.eq_dec E E') as [<-|]; [left; split; [reflexivity|] | right; lia].
  pose proof (bpow_pos E) as HbE.
  assert (Hm : m1 <= m1').
  { assert (m1 < m1' + 1); [|lia]. rewrite Zlt_Qlt. nra. }
  pose proof (round_nearest_even_bounds m1 l1).
  pose proof (round_nearest_even_bounds m1' l1').
  destruct (Z.eq_dec m1 m1') as [<-|]; [|lia].
  rewrite Hm2, Hm2', Il, Il'.
  apply round_nearest_even_Qloc_mono; lra.
Qed.

Lemma SFleb_zero_l (f : spec_float) :
  match f with
  | S754_zero _ | S754_finite false _ _ | S754_infinity false => True
  | _ => False
  end -> SFleb (S754_zero false) f = true.
Proof. destruct f as [s|[]| |[] m e]; simpl; tauto. Qed.

(** The floats that rounded numbers stand for are ordered as the numbers. *)
Lemma finish_leb (m2 E m2' E' : Z) :
  0 <= m2 <= 2 ^ 53 -> -1074 <= E -> (-1074 < E -> 2 ^ 52 <= m2) ->
  0 <= m2' <= 2 ^ 53 -> -1074 <= E' -> (-1074 < E' -> 2 ^ 52 <= m2') ->
  (E = E' /\ m2 <= m2') \/ E < E' ->
  SFleb (finish m2 E) (finish m2' E') = true.
Proof.
  intros Hm HE Hn Hm' HE' Hn' Hord.
  rewrite (finish_spec Hm HE Hn), (finish_spec Hm' HE' Hn').
  destruct (Z.eqb_spec m2 0) as [->|H0].
  { apply SFleb_zero_l.
    destruct (m2' =? 0); [exact I|].
    destruct (normal_exponent m2' E' <=? 971); exact I. }
  assert (H0' : m2' <> 0) by lia.
  destruct (Z.eqb_spec m2' 0) as [|_]; [contradiction|].
  assert (Hnf : normal_exponent m2 E < normal_exponent m2' E'
                \/ (normal_exponent m2 E = normal_exponent m2' E'
                    /\ normal_mantissa m2 <= normal_mantissa m2')).
  { unfold normal_exponent, normal_mantissa.
    destruct (Z.eqb_spec m2 (2 ^ 53)), (Z.eqb_spec m2' (2 ^ 53)); lia. }
  destruct (@normal_form_canonical m2 E ltac:(lia) HE Hn) as (Hp & _ & _).
  destruct (@normal_form_canonical m2' E' ltac:(lia) HE' Hn') as (Hp' & _ & _).
  destruct (Z.leb_spec (normal_exponent m2 E) 971),
           (Z.leb_spec (normal_exponent m2' E') 971); try reflexivity; [|lia].
  unfold SFleb, SFcompare.
  destruct Hnf as [Hlt|[Heq Hle]].
  - apply Z.compare_lt_iff in Hlt. now rewrite Hlt.
  - rewrite Heq, Z.compare_refl.
    destruct (Pos.compare_cont Eq (Z.to_pos (normal_mantissa m2))
                (Z.to_pos (normal_mantissa m2'))) eqn:C; try reflexivity.
    change (Pos.compare_cont Eq ?a ?b) with (Pos.compare a b) in C.
    apply Pos.compare_gt_iff in C. lia.
Qed.

Lemma binary_round_aux_mono (x y : Q) (m e : Z) (l : location)
    (m' e' : Z) (l' : location) :
  0 < m -> inb x m e l -> e <= fexp64 (Zdigits2 m + e) ->
  0 < m' -> inb y m' e' l' -> e' <= fexp64 (Zdigits2 m' + e') ->
  (x <= y)%Q ->
  SFleb (binary_round_aux 53 1024 false m e l)
        (binary_round_aux 53 1024 false m' e' l') = true.
Proof.
  intros Hm Hin Hpre Hm' Hin' Hpre' Hxy.
  destruct (binary_round_aux_rounds Hm Hin Hpre) as (m2 & E & Hr & ->).
  destruct (binary_round_aux_rounds Hm' Hin' Hpre') as (m2' & E' & Hr' & ->).
  destruct (rounds_to_bounds Hr) as (B1 & B2 & B3).
  destruct (rounds_to_bounds Hr') as (B1' & B2' & B3').
  apply finish_leb; try assumption.
  apply (rounds_to_mono Hxy Hr Hr').
Qed.

Lemma bounded_range (m : positive) (e : Z) :
  bounded 53 1024 m e = true <->
  (0 < Zpos m < 2 ^ 53 /\ -1074 <= e <= 971
   /\ (-1074 < e -> 2 ^ 52 <= Zpos m)).
Proof.
  unfold bounded, canonical_mantissa. rewrite andb_true_iff, Z.eqb_eq, Z.leb_le.
  fold (fexp64 (Zpos (digits2_pos m) + e)). rewrite fexp64_eq.
  change (Zpos (digits2_pos m)) with (Zdigits2 (Zpos m)).
  change (1024 - 53) with 971.
  pose proof (@Zdigits2_bounds (Zpos m) ltac:(lia)) as [Dlo Dhi].
  pose proof (@Zdigits2_pos (Zpos m) ltac:(lia)) as Dpos.
  split.
  - intros [Hc He].
    assert (Hd : Zdigits2 (Zpos m) <= 53) by lia.
    assert (2 ^ Zdigits2 (Zpos m) <= 2 ^ 53) by (apply Z.pow_le_mono_r; lia).
    split; [lia|]. split; [lia|]. intros Hn.
    assert (Zdigits2 (Zpos m) = 53) as Hd' by lia.
    rewrite Hd' in Dlo. exact Dlo.
  - intros (Hm & He & Hn). split; [|lia].
    pose proof (Zdigits2_le_53 Hm).
    destruct (Z.eq_dec e (-1074)) as [->|]; [lia|].
    pose proof (Zdigits2_ge_53 (Hn ltac:(lia))). lia.
Qed.

Lemma finish_valid (m2 E : Z) :
  0 <= m2 <= 2 ^ 53 -> -1074 <= E -> (-1074 < E -> 2 ^ 52 <= m2) ->
  nonneg_valid (finish m2 E) = true.
Proof.
  intros Hm HE Hn. rewrite (finish_spec Hm HE Hn).
  destruct (Z.eqb_spec m2 0) as [|H0]; [reflexivity|].
  destruct (Z.leb_spec (normal_exponent m2 E) 971); [|reflexivity].
  cbn [nonneg_valid]. apply bounded_range.
  destruct (@normal_form_canonical m2 E ltac:(lia) HE Hn) as (Hp & He & Hnn).
  rewrite Z2Pos.id by lia. repeat split; try lia; exact Hnn.
Qed.

Lemma inb_exact (m e : Z) : inb (inject_Z m * bpow e)%Q m e loc_Exact.
Proof.
  unfold inb, located. pose proof (bpow_pos e). split.
  - rewrite inject_Z_plus. change (inject_Z 1) with 1%Q. split; [lra|nra].
  - symmetry. apply Qloc_exact. ring.
Qed.

(** Rounding a float in normal form gives it back. *)
Lemma binary_round_aux_fixed (m : positive) (e : Z) :
  bounded 53 1024 m e = true ->
  binary_round_aux 53 1024 false (Zpos m) e loc_Exact = S754_finite false m e.
Proof.
  intros Hb. apply bounded_range in Hb. destruct Hb as (Hm & He & Hn).
  rewrite binary_round_aux_finish. unfold shr_fexp.
  fold (fexp64 (Zdigits2 (Zpos m) + e)).
  rewrite (@in_range_canonical (Zpos m) e Hm ltac:(lia) Hn), Z.sub_diag.
  cbn [shr shr_record_of_loc fst snd shr_m loc_of_shr_record round_nearest_even].
  rewrite (@finish_in_range (Zpos m) e Hm ltac:(lia) Hn).
  destruct (Z.leb_spec e 971); [reflexivity|lia].
Qed.

Lemma SFleb_finite (m : positive) (e : Z) (m' : positive) (e' : Z) :
  SFleb (S754_finite false m e) (S754_finite false m' e') = true <->
  e < e' \/ (e = e' /\ (Zpos m <= Zpos m')).
Proof.
  unfold SFleb, SFcompare.
  destruct (Z.compare_spec e e') as [->|Hlt|Hgt].
  - change (Pos.compare_cont Eq m m') with (Pos.compare m m').
    destruct (Pos.compare_spec m m') as [->|H|H]; split; try reflexivity;
      try discriminate; try lia.
  - split; [lia|reflexivity].
  - split; [discriminate|lia].
Qed.

Lemma SFleb_Qval (f g : spec_float) :
  nonneg_valid f = true -> nonneg_valid g = true ->
  g <> S754_infinity false ->
  SFleb f g = true -> (Qval f <= Qval g)%Q.
Proof.
  intros Hf Hg Hginf Hle.
  destruct f as [[]|[]| |[] m e]; try discriminate Hf;
    destruct g as [[]|[]| |[] m' e']; try discriminate Hg;
    try discriminate Hle; try congruence; cbn [Qval nonneg_valid] in *.
  - lra.
  - pose proof (bpow_pos e'). assert (0 < inject_Z (Zpos m'))%Q by reflexivity.
    nra.
  - apply bounded_range in Hf, Hg.
    destruct Hf as (Hm & He & Hn), Hg as (Hm' & He' & Hn').
    apply SFleb_finite in Hle. pose proof (bpow_pos e) as Hbe.
    destruct Hle as [Hlt|[-> Hmm]].
    + assert (H1 : (inject_Z (Zpos m) < bpow 53)%Q).
      { rewrite bpow_Z by lia. rewrite <- Zlt_Qlt. lia. }
      assert (H2 : (bpow 52 <= inject_Z (Zpos m'))%Q).
      { rewrite bpow_Z by lia. rewrite <- Zle_Qle. apply Hn'. lia. }
      assert (H3 : (bpow (53 + e) <= bpow (52 + e'))%Q) by (apply bpow_le; lia).
      rewrite !bpow_add in H3. pose proof (bpow_pos e'). nra.
    + rewrite Zle_Qle in Hmm. nra.
Qed.

Lemma Zdigits2_ge (m j : Z) : 0 <= j -> 2 ^ j <= m -> j + 1 <= Zdigits2 m.
Proof.
  intros Hj Hm. assert (0 < 2 ^ j) by (apply Z.pow_pos_nonneg; lia).
  assert (0 < m) as Hpos by lia.
  pose proof (Zdigits2_bounds Hpos) as [_ Dhi].
  pose proof (Zdigits2_pos Hpos).
  destruct (Z_lt_le_dec (Zdigits2 m) (j + 1)); [|lia].
  assert (2 ^ Zdigits2 m <= 2 ^ j) by (apply Z.pow_le_mono_r; lia). lia.
Qed.

Lemma SFleb_inf_r (f : spec_float) :
  nonneg_valid f = true -> SFleb f (S754_infinity false) = true.
Proof.
  destruct f as [[]|[]| |[] m e]; cbn [nonneg_valid]; intros H;
    try discriminate H; reflexivity.
Qed.

Lemma SFleb_inf_l (f : spec_float) :
  nonneg_valid f = true -> SFleb (S754_infinity false) f = true ->
  f = S754_infinity false.
Proof.
  destruct f as [[]|[]| |[] m e]; cbn [nonneg_valid]; intros H H';
    try discriminate H; try discriminate H'; reflexivity.
Qed.

Lemma nonneg_valid_cases (f : spec_float) :
  nonneg_valid f = true ->
  f = S754_zero false \/ f = S754_infinity false
  \/ exists m e, f = S754_finite false m e /\ bounded 53 1024 m e = true.
Proof.
  destruct f as [[]|[]| |[] m e]; cbn [nonneg_valid]; intros H;
    try discriminate H; auto.
  right. right. now exists m, e.
Qed.

Lemma binary_round_aux_valid (x : Q) (m e : Z) (l : location) :
  0 < m -> inb x m e l -> e <= fexp64 (Zdigits2 m + e) ->
  nonneg_valid (binary_round_aux 53 1024 false m e l) = true.
Proof.
  intros Hm Hin Hpre.
  destruct (binary_round_aux_rounds Hm Hin Hpre) as (m2 & E & Hr & ->).
  destruct (rounds_to_bounds Hr) as (B1 & B2 & B3).
  now apply finish_valid.
Qed.

(** *** Multiplication *)

Lemma mul_exponent_ok (mx : positive) (ex : Z) (my : positive) (ey : Z) :
  bounded 53 1024 mx ex = true -> bounded 53 1024 my ey = true ->
  ex + ey <= fexp64 (Zdigits2 (Zpos (mx * my)) + (ex + ey)).
Proof.
  intros Hx Hy. apply bounded_range in Hx, Hy.
  destruct Hx as (Hmx & Hex & Hnx), Hy as (Hmy & Hey & Hny).
  rewrite fexp64_eq, Pos2Z.inj_mul.
  destruct (Z_le_gt_dec (ex + ey) (-1074)); [lia|].
  assert (53 <= Zdigits2 (Zpos mx * Zpos my)); [|lia].
  change 53 with (52 + 1). apply Zdigits2_ge; [lia|].
  destruct (Z.eq_dec ex (-1074)) as [->|].
  - specialize (Hny ltac:(lia)). nia.
  - specialize (Hnx ltac:(lia)). nia.
Qed.

Lemma SFmul_finite (mx : positive) (ex : Z) (my : positive) (ey : Z) :
  SFmul 53 1024 (S754_finite false mx ex) (S754_finite false my ey)
  = binary_round_aux 53 1024 false (Zpos (mx * my)) (ex + ey) loc_Exact.
Proof. reflexivity. Qed.

Lemma Qval_mul (mx : positive) (ex : Z) (my : positive) (ey : Z) :
  (inject_Z (Zpos (mx * my)) * bpow (ex + ey)
   == Qval (S754_finite false mx ex) * Qval (S754_finite false my ey))%Q.
Proof.
  cbn [Qval]. rewrite Pos2Z.inj_mul, inject_Z_mult, bpow_add. ring.
Qed.

Lemma SFmul_valid (x p : spec_float) (mp : positive) (ep : Z) :
  nonneg_valid x = true -> p = S754_finite false mp ep ->
  bounded 53 1024 mp ep = true ->
  nonneg_valid (SFmul 53 1024 x p) = true.
Proof.
  intros Hx -> Hp.
  destruct (nonneg_valid_cases _ Hx) as [->|[->|(m & e & -> & Hb)]];
    try reflexivity.
  rewrite SFmul_finite.
  apply binary_round_aux_valid with (x := (inject_Z (Zpos (m * mp)) * bpow (e + ep))%Q).
  - lia.
  - apply inb_exact.
  - now apply mul_exponent_ok.
Qed.

(** Multiplying by a positive float is monotone. *)
Lemma SFmul_mono (x x' p : spec_float) (mp : positive) (ep : Z) :
  nonneg_valid x = true -> nonneg_valid x' = true ->
  p = S754_finite false mp ep -> bounded 53 1024 mp ep = true ->
  SFleb x x' = true ->
  SFleb (SFmul 53 1024 x p) (SFmul 53 1024 x' p) = true.
Proof.
  intros Hx Hx' Hp Hb Hle.
  pose proof (@SFmul_valid x p mp ep Hx Hp Hb) as Vx.
  pose proof (@SFmul_valid x' p mp ep Hx' Hp Hb) as Vx'.
  destruct (nonneg_valid_cases _ Hx') as [E'|[E'|(m' & e' & E' & Hb')]].
  - (* x' = 0 *)
    destruct (nonneg_valid_cases _ Hx) as [E|[E|(m & e & E & _)]];
      subst; try discriminate Hle. reflexivity.
  - (* x' = inf *)
    subst x' p. cbn [SFmul xorb]. now apply SFleb_inf_r.
  - destruct (nonneg_valid_cases _ Hx) as [E|[E|(m & e & E & Hbx)]].
    + subst x p. cbn [SFmul xorb]. apply SFleb_zero_l.
      destruct (nonneg_valid_cases _ Vx') as [->|[->|(? & ? & -> & _)]];
        exact I.
    + subst. discriminate Hle.
    + pose proof (@SFleb_Qval x x' Hx Hx' ltac:(subst; discriminate) Hle) as Hq.
      subst x x' p. rewrite !SFmul_finite.
      apply binary_round_aux_mono
        with (x := (inject_Z (Zpos (m * mp)) * bpow (e + ep))%Q)
             (y := (inject_Z (Zpos (m' * mp)) * bpow (e' + ep))%Q);
        try lia; try apply inb_exact; try now apply mul_exponent_ok.
      rewrite !Qval_mul.
      assert (0 < Qval (S754_finite false mp ep))%Q.
      { cbn [Qval]. pose proof (bpow_pos ep).
        assert (0 < inject_Z (Zpos mp))%Q by reflexivity. nra. }
      nra.
Qed.

(** *** Addition *)

Lemma mag_compat (x y : Q) (k : Z) : (x == y)%Q -> mag x k -> mag y k.
Proof. unfold mag. intros H [H1 H2]. split; lra. Qed.

Lemma shl_align_spec (m : positive) (e t : Z) :
  Zpos (fst (shl_align m e t)) = Zpos m * 2 ^ (e - snd (shl_align m e t))
  /\ snd (shl_align m e t) = Z.min e t.
Proof.
  unfold shl_align. destruct (t - e) as [|d|d] eqn:Hd; cbn [fst snd].
  - rewrite Z.sub_diag. split; lia.
  - rewrite Z.sub_diag. split; lia.
  - replace (e - t) with (Zpos d) by lia. split; [|lia].
    change (Pos.iter xO m d) with (shift_pos d m).
    rewrite shift_pos_correct. change (Zpower_pos 2 d) with (2 ^ Zpos d). ring.
Qed.

Lemma shl_align_value (m : positive) (e t : Z) :
  (inject_Z (Zpos (fst (shl_align m e t))) * bpow (snd (shl_align m e t))
   == inject_Z (Zpos m) * bpow e)%Q.
Proof.
  destruct (shl_align_spec m e t) as [Hm He]. rewrite Hm.
  set (e' := snd (shl_align m e t)) in *.
  rewrite inject_Z_mult. rewrite <- bpow_Z by lia.
  replace e with ((e - e') + e') at 2 by ring. rewrite bpow_add. ring.
Qed.

Lemma binary_round_spec (M : positive) (e : Z) :
  exists mz ez,
    binary_round 53 1024 false M e
    = binary_round_aux 53 1024 false (Zpos mz) ez loc_Exact
    /\ (inject_Z (Zpos mz) * bpow ez == inject_Z (Zpos M) * bpow e)%Q
    /\ ez <= fexp64 (Zdigits2 (Zpos mz) + ez).
Proof.
  unfold binary_round.
  fold (fexp64 (Zpos (digits2_pos M) + e)).
  change (Zpos (digits2_pos M)) with (Zdigits2 (Zpos M)).
  set (t := fexp64 (Zdigits2 (Zpos M) + e)).
  pose proof (shl_align_value M e t) as Hv.
  destruct (shl_align_spec M e t) as [_ He].
  destruct (shl_align M e t) as [mz ez]. cbn [fst snd] in *.
  exists mz, ez. split; [reflexivity|]. split; [exact Hv|].
  assert (Hk : Zdigits2 (Zpos mz) + ez = Zdigits2 (Zpos M) + e).
  { apply mag_unique with (x := (inject_Z (Zpos M) * bpow e)%Q).
    - apply mag_compat with (x := (inject_Z (Zpos mz) * bpow ez)%Q);
        [exact Hv|].
      apply (@inb_mag _ (Zpos mz) ez loc_Exact); [lia | apply inb_exact].
    - apply (@inb_mag _ (Zpos M) e loc_Exact); [lia | apply inb_exact]. }
  rewrite Hk. fold t. lia.
Qed.

Lemma SFadd_finite_spec (mx : positive) (ex : Z) (my : positive) (ey : Z) :
  exists mz ez,
    SFadd 53 1024 (S754_finite false mx ex) (S754_finite false my ey)
    = binary_round_aux 53 1024 false (Zpos mz) ez loc_Exact
    /\ (inject_Z (Zpos mz) * bpow ez
        == Qval (S754_finite false mx ex) + Qval (S754_finite false my ey))%Q
    /\ ez <= fexp64 (Zdigits2 (Zpos mz) + ez).
Proof.
  cbn [SFadd cond_Zopp Qval].
  set (ez := Z.min ex ey).
  pose proof (shl_align_value mx ex ez) as Vx.
  pose proof (shl_align_value my ey ez) as Vy.
  destruct (shl_align_spec mx ex ez) as [_ Ex].
  destruct (shl_align_spec my ey ez) as [_ Ey].
  replace (snd (shl_align mx ex ez)) with ez in Vx by (rewrite Ex; unfold ez; lia).
  replace (snd (shl_align my ey ez)) with ez in Vy by (rewrite Ey; unfold ez; lia).
  set (a := fst (shl_align mx ex ez)) in *.
  set (b := fst (shl_align my ey ez)) in *.
  change (Zpos a + Zpos b) with (Zpos (a + b)). cbn [binary_normalize].
  destruct (binary_round_spec (a + b) ez) as (mz & ez' & Hr & Hv & Hp).
  exists mz, ez'. split; [exact Hr|]. split; [|exact Hp].
  rewrite Hv, <- Vx, <- Vy, Pos2Z.inj_add, inject_Z_plus. ring.
Qed.

Lemma Qval_nonneg (f : spec_float) : (0 <= Qval f)%Q.
Proof.
  destruct f as [s|s| |[] m e]; cbn [Qval]; try lra.
  pose proof (bpow_pos e). assert (0 < inject_Z (Zpos m))%Q by reflexivity. nra.
Qed.

(** The sum of two finite non-negative floats, not both zero, is the
    rounding of the exact sum. *)
Lemma SFadd_spec (x y : spec_float) :
  nonneg_valid x = true -> nonneg_valid y = true ->
  x <> S754_infinity false -> y <> S754_infinity false ->
  (x = S754_zero false /\ y = S754_zero false
   /\ SFadd 53 1024 x y = S754_zero false)
  \/ exists mz ez,
       SFadd 53 1024 x y
       = binary_round_aux 53 1024 false (Zpos mz) ez loc_Exact
       /\ (inject_Z (Zpos mz) * bpow ez == Qval x + Qval y)%Q
       /\ ez <= fexp64 (Zdigits2 (Zpos mz) + ez).
Proof.
  intros Hx Hy Ix Iy.
  destruct (nonneg_valid_cases _ Hx) as [->|[->|(mx & ex & -> & Bx)]];
    [| congruence |];
    (destruct (nonneg_valid_cases _ Hy) as [->|[->|(my & ey & -> & By)]];
     [| congruence |]).
  - left. repeat split.
  - right. exists my, ey. cbn [SFadd]. split; [|split].
    + symmetry. now apply binary_round_aux_fixed.
    + cbn [Qval]. ring.
    + apply bounded_range in By. destruct By as (Hm & He & Hn).
      rewrite (@in_range_canonical (Zpos my) ey Hm ltac:(lia) Hn). lia.
  - right. exists mx, ex. cbn [SFadd]. split; [|split].
    + symmetry. now apply binary_round_aux_fixed.
    + cbn [Qval]. ring.
    + apply bounded_range in Bx. destruct Bx as (Hm & He & Hn).
      rewrite (@in_range_canonical (Zpos mx) ex Hm ltac:(lia) Hn). lia.
  - right. apply SFadd_finite_spec.
Qed.

Lemma SFadd_valid (x y : spec_float) :
  nonneg_valid x = true -> nonneg_valid y = true ->
  nonneg_valid (SFadd 53 1024 x y) = true.
Proof.
  intros Hx Hy.
  destruct (nonneg_valid_cases _ Hx) as [Ex|[Ex|Ex]];
    destruct (nonneg_valid_cases _ Hy) as [Ey|[Ey|Ey]];
    try (subst; reflexivity);
    try (destruct Ex as (mx & ex & -> & Bx); subst; reflexivity);
    try (destruct Ey as (my & ey & -> & By); subst; reflexivity).
  - destruct Ey as (my & ey & -> & By). subst. exact Hy.
  - destruct Ex as (mx & ex & -> & Bx). subst. exact Hx.
  - destruct Ex as (mx & ex & -> & Bx), Ey as (my & ey & -> & By).
    destruct (SFadd_finite_spec mx ex my ey) as (mz & ez & -> & Hv & Hp).
    apply binary_round_aux_valid with (x := (inject_Z (Zpos mz) * bpow ez)%Q);
      [lia | apply inb_exact | exact Hp].
Qed.

Lemma SFadd_inf (x y : spec_float) :
  nonneg_valid x = true -> nonneg_valid y = true ->
  x = S754_infinity false \/ y = S754_infinity false ->
  SFadd 53 1024 x y = S754_infinity false.
Proof.
  intros Hx Hy H.
  destruct (nonneg_valid_cases _ Hx) as [->|[->|(mx & ex & -> & Bx)]];
    destruct (nonneg_valid_cases _ Hy) as [->|[->|(my & ey & -> & By)]];
    try reflexivity; destruct H; discriminate.
Qed.

Lemma is_infinity_dec (f : spec_float) :
  {f = S754_infinity false} + {f <> S754_infinity false}.
Proof.
  destruct f as [s|[]| |s m e]; try (right; discriminate). now left.
Qed.

(** Addition of non-negative floats is monotone in both arguments. *)
Lemma SFadd_mono (x y x' y' : spec_float) :
  nonneg_valid x = true -> nonneg_valid y = true ->
  nonneg_valid x' = true -> nonneg_valid y' = true ->
  SFleb x x' = true -> SFleb y y' = true ->
  SFleb (SFadd 53 1024 x y) (SFadd 53 1024 x' y') = true.
Proof.
  intros Hx Hy Hx' Hy' Lx Ly.
  pose proof (@SFadd_valid x y Hx Hy) as V.
  pose proof (@SFadd_valid x' y' Hx' Hy') as V'.
  destruct (is_infinity_dec x') as [Ix'|Ix'].
  { rewrite (@SFadd_inf x' y' Hx' Hy' (or_introl Ix')). now apply SFleb_inf_r. }
  destruct (is_infinity_dec y') as [Iy'|Iy'].
  { rewrite (@SFadd_inf x' y' Hx' Hy' (or_intror Iy')). now apply SFleb_inf_r. }
  assert (Ix : x <> S754_infinity false).
  { intros ->. apply Ix'. now apply SFleb_inf_l. }
  assert (Iy : y <> S754_infinity false).
  { intros ->. apply Iy'. now apply SFleb_inf_l. }
  pose proof (@SFleb_Qval x x' Hx Hx' Ix' Lx) as Qx.
  pose proof (@SFleb_Qval y y' Hy Hy' Iy' Ly) as Qy.
  destruct (@SFadd_spec x y Hx Hy Ix Iy)
    as [(_ & _ & ->)|(mz & ez & -> & Hv & Hp)].
  { apply SFleb_zero_l.
    destruct (nonneg_valid_cases _ V') as [->|[->|(? & ? & -> & _)]]; exact I. }
  assert (Hpos : (0 < inject_Z (Zpos mz) * bpow ez)%Q).
  { pose proof (bpow_pos ez). assert (0 < inject_Z (Zpos mz))%Q by reflexivity.
    nra. }
  destruct (@SFadd_spec x' y' Hx' Hy' Ix' Iy')
    as [(-> & -> & _)|(mz' & ez' & -> & Hv' & Hp')].
  { cbn [Qval] in Qx, Qy. lra. }
  apply binary_round_aux_mono
    with (x := (inject_Z (Zpos mz) * bpow ez)%Q)
         (y := (inject_Z (Zpos mz') * bpow ez')%Q);
    try lia; try apply inb_exact; try assumption.
  lra.
Qed.

(** *** Division of integers *)

Lemma Zdigits2_le (m j : Z) : 0 <= j -> 0 < m < 2 ^ j -> Zdigits2 m <= j.
Proof.
  intros Hj [Hm Hlt]. pose proof (Zdigits2_bounds Hm) as [Dlo _].
  destruct (Z_lt_le_dec j (Zdigits2 m)); [|lia].
  assert (2 ^ j <= 2 ^ (Zdigits2 m - 1)) by (apply Z.pow_le_mono_r; lia). lia.
Qed.

Lemma new_location_spec (d r : Z) :
  0 < d -> 0 <= r < d ->
  new_location d r
  = if r =? 0 then loc_Exact else loc_Inexact (2 * r ?= d).
Proof.
  intros Hd Hr. unfold new_location, new_location_even, new_location_odd.
  destruct (Z.even d) eqn:Hev; [reflexivity|].
  destruct (r =? 0); [reflexivity|]. f_equal.
  assert (Hodd : Z.odd d = true) by (rewrite <- Z.negb_even, Hev; reflexivity).
  apply Z.odd_spec in Hodd. destruct Hodd as [h Hh].
  destruct (Z.compare_spec (2 * r + 1) d), (Z.compare_spec (2 * r) d);
    try reflexivity; lia.
Qed.

Lemma Qloc_fraction (r d : Z) (u step : Q) :
  0 < d -> 0 <= r < d -> (0 < step)%Q ->
  (u * inject_Z d == inject_Z r * step)%Q ->
  Qloc u step = if r =? 0 then loc_Exact else loc_Inexact (2 * r ?= d).
Proof.
  intros Hd Hr Hstep Hu.
  assert (HD : (0 < inject_Z d)%Q) by (change 0%Q with (inject_Z 0); now rewrite <- Zlt_Qlt).
  destruct (Z.eqb_spec r 0) as [->|Hr0].
  - apply Qloc_exact. change (inject_Z 0) with 0%Q in Hu. nra.
  - assert (HR : (1 <= inject_Z r)%Q)
      by (change 1%Q with (inject_Z 1); rewrite <- Zle_Qle; lia).
    apply Qloc_inexact. split.
    + intros E. rewrite E in Hu. nra.
    + destruct (Z.compare_spec (2 * r) d) as [H|H|H].
      * apply Qeq_alt.
        assert (2 * inject_Z r == inject_Z d)%Q
          by (rewrite <- H, inject_Z_mult; reflexivity).
        nra.
      * apply (proj1 (Qlt_alt _ _)).
        assert (2 * inject_Z r < inject_Z d)%Q
          by (change 2%Q with (inject_Z 2); rewrite <- inject_Z_mult, <- Zlt_Qlt; lia).
        nra.
      * apply (proj1 (Qgt_alt _ _)).
        assert (inject_Z d < 2 * inject_Z r)%Q
          by (change 2%Q with (inject_Z 2); rewrite <- inject_Z_mult, <- Zlt_Qlt; lia).
        nra.
Qed.

(** The quotient of two positive integers, [a / d], as [SFdiv] prepares it
    for rounding. *)
Lemma SFdiv_core_located (a d : positive) :
  Zpos d < 2 ^ 1000 ->
  exists q e l,
    SFdiv_core_binary 53 1024 (Zpos a) 0 (Zpos d) 0 = (q, e, l)
    /\ 0 < q
    /\ inb (inject_Z (Zpos a) / inject_Z (Zpos d))%Q q e l
    /\ e <= fexp64 (Zdigits2 q + e).
Proof.
  intros Hd. unfold SFdiv_core_binary.
  set (d1 := Zdigits2 (Zpos a)). set (d2 := Zdigits2 (Zpos d)).
  fold (fexp64 (d1 + 0 - (d2 + 0))).
  set (e := Z.min (fexp64 (d1 + 0 - (d2 + 0))) (0 - 0)).
  set (s := 0 - 0 - e).
  pose proof (@Zdigits2_bounds (Zpos a) ltac:(lia)) as [Alo Ahi].
  pose proof (@Zdigits2_bounds (Zpos d) ltac:(lia)) as [Dlo Dhi].
  pose proof (@Zdigits2_pos (Zpos a) ltac:(lia)) as Apos.
  pose proof (@Zdigits2_pos (Zpos d) ltac:(lia)) as Dpos.
  pose proof (@Zdigits2_le (Zpos d) 1000 ltac:(lia) ltac:(lia)) as Dle.
  fold d1 in Alo, Ahi, Apos. fold d2 in Dlo, Dhi, Dpos, Dle.
  assert (He : e = Z.min (d1 - d2 - 53) 0)
    by (unfold e; rewrite fexp64_eq; lia).
  assert (Hs : 0 <= s /\ d2 - d1 + 53 <= s /\ e = - s) by (unfold s; lia).
  destruct Hs as (Hs0 & Hs1 & Hes).
  assert (Hm' : match s with
                | Z0 => Zpos a
                | Zpos _ => Z.shiftl (Zpos a) s
                | Zneg _ => 0
                end = Zpos a * 2 ^ s).
  { destruct s as [|p|p]; [simpl; lia | | lia].
    apply Z.shiftl_mul_pow2. lia. }
  rewrite Hm'.
  pose proof (Z_div_mod (Zpos a * 2 ^ s) (Zpos d) ltac:(lia)) as Hdm.
  destruct (Z.div_eucl (Zpos a * 2 ^ s) (Zpos d)) as [q r].
  destruct Hdm as [Hqr Hr].
  exists q, e, (new_location (Zpos d) r). split; [reflexivity|].
  assert (Hq : 0 < q).
  { assert (2 ^ d2 <= Zpos a * 2 ^ s).
    { assert (2 ^ (d1 - 1) * 2 ^ s <= Zpos a * 2 ^ s)
        by (apply Z.mul_le_mono_nonneg_r; [apply Z.pow_nonneg|]; lia).
      rewrite <- Z.pow_add_r in H by lia.
      assert (2 ^ d2 <= 2 ^ (d1 - 1 + s)) by (apply Z.pow_le_mono_r; lia).
      lia. }
    nia. }
  split; [exact Hq|].
  set (x := (inject_Z (Zpos a) / inject_Z (Zpos d))%Q).
  assert (HD : (0 < inject_Z (Zpos d))%Q) by reflexivity.
  assert (Hx : (x * inject_Z (Zpos d) == inject_Z (Zpos a))%Q).
  { unfold x. field. intros E. rewrite E in HD. lra. }
  pose proof (bpow_pos e) as HP. pose proof (bpow_pos s) as HS.
  assert (HPS : (bpow e * bpow s == 1)%Q).
  { rewrite <- bpow_add. replace (e + s) with 0 by lia. reflexivity. }
  assert (HASq : (inject_Z (Zpos a) * bpow s
                  == inject_Z (Zpos d) * inject_Z q + inject_Z r)%Q).
  { rewrite bpow_Z by lia.
    rewrite <- !inject_Z_mult, <- inject_Z_plus. now rewrite Hqr. }
  assert (HR0 : (0 <= inject_Z r)%Q)
    by (change 0%Q with (inject_Z 0); rewrite <- Zle_Qle; lia).
  assert (HR1 : (inject_Z r < inject_Z (Zpos d))%Q)
    by (rewrite <- Zlt_Qlt; lia).
  (* x = (q + r/d) * 2^e, in a form free of division *)
  assert (Hxq : ((x - inject_Z q * bpow e) * inject_Z (Zpos d)
                 == inject_Z r * bpow e)%Q).
  { assert (Hstep : (x * inject_Z (Zpos d) * (bpow s * bpow e)
                     == (inject_Z (Zpos d) * inject_Z q + inject_Z r)
                        * bpow e)%Q).
    { rewrite Hx, <- HASq. ring. }
    assert (Hone : (bpow s * bpow e == 1)%Q) by (rewrite <- HPS; ring).
    rewrite Hone in Hstep. rewrite Qmult_1_r in Hstep.
    rewrite Qmult_minus_distr_l || idtac.
    setoid_replace ((x - inject_Z q * bpow e) * inject_Z (Zpos d))%Q
      with (x * inject_Z (Zpos d) - inject_Z q * bpow e * inject_Z (Zpos d))%Q
      by ring.
    rewrite Hstep. ring. }
  assert (Hin : inb x q e (new_location (Zpos d) r)).
  { unfold inb, located. split.
    - rewrite inject_Z_plus. change (inject_Z 1) with 1%Q. split; nra.
    - rewrite new_location_spec by lia. symmetry.
      apply Qloc_fraction; [lia | lia | exact HP | exact Hxq]. }
  split; [exact Hin|].
  pose proof (inb_mag Hq Hin) as [_ Hk].
  assert (Hlow : (bpow (d1 - d2 - 1) < x)%Q).
  { assert (HA : (bpow (d1 - 1) <= inject_Z (Zpos a))%Q)
      by (rewrite bpow_Z by lia; rewrite <- Zle_Qle; lia).
    assert (HD2 : (inject_Z (Zpos d) < bpow d2)%Q)
      by (rewrite bpow_Z by lia; rewrite <- Zlt_Qlt; lia).
    assert (Hb : (bpow (d1 - d2 - 1) * bpow d2 == bpow (d1 - 1))%Q)
      by (rewrite <- bpow_add; now replace (d1 - d2 - 1 + d2) with (d1 - 1) by ring).
    pose proof (bpow_pos (d1 - d2 - 1)).
    assert (0 < x)%Q by nra.
    nra. }
  assert (d1 - d2 - 1 < Zdigits2 q + e) by (apply bpow_lt_inv; lra).
  pose proof (@fexp64_mono (d1 - d2) (Zdigits2 q + e) ltac:(lia)) as Hf.
  rewrite fexp64_eq in Hf at 1. lia.
Qed.

Lemma nearest_pos (a d : positive) :
  Zpos d < 2 ^ 1000 ->
  exists q e l,
    PyFloat.nearest (Zpos a) (Zpos d) = binary_round_aux 53 1024 false q e l
    /\ 0 < q
    /\ inb (inject_Z (Zpos a) / inject_Z (Zpos d))%Q q e l
    /\ e <= fexp64 (Zdigits2 q + e).
Proof.
  intros Hd. destruct (SFdiv_core_located a Hd) as (q & e & l & Hc & H).
  exists q, e, l. split; [|exact H].
  unfold PyFloat.nearest, PyFloat.of_int, PyFloat.prec, PyFloat.emax, SFdiv.
  now rewrite Hc.
Qed.

Lemma nearest_valid (a d : Z) :
  0 <= a -> 0 < d < 2 ^ 1000 -> nonneg_valid (PyFloat.nearest a d) = true.
Proof.
  intros Ha Hd. destruct d as [|d|d]; try lia.
  destruct a as [|a|a]; try lia; [reflexivity|].
  destruct (@nearest_pos a d ltac:(lia)) as (q & e & l & -> & Hq & Hin & Hp).
  exact (binary_round_aux_valid Hq Hin Hp).
Qed.

(** The correctly rounded quotient is monotone in the dividend. *)
Lemma nearest_mono (a b d : Z) :
  0 <= a <= b -> 0 < d < 2 ^ 1000 ->
  SFleb (PyFloat.nearest a d) (PyFloat.nearest b d) = true.
Proof.
  intros Hab Hd.
  pose proof (@nearest_valid b d ltac:(lia) Hd) as Vb.
  destruct d as [|d|d]; try lia.
  destruct a as [|a|a]; try lia.
  - apply SFleb_zero_l.
    destruct (nonneg_valid_cases _ Vb) as [->|[->|(? & ? & -> & _)]]; exact I.
  - destruct b as [|b|b]; try lia.
    destruct (@nearest_pos a d ltac:(lia)) as (q & e & l & -> & Hq & Hin & Hp).
    destruct (@nearest_pos b d ltac:(lia)) as (q' & e' & l' & -> & Hq' & Hin' & Hp').
    apply (binary_round_aux_mono Hq Hin Hp Hq' Hin' Hp').
    assert (HD : (0 < inject_Z (Zpos d))%Q) by reflexivity.
    assert (inject_Z (Zpos a) <= inject_Z (Zpos b))%Q by (rewrite <- Zle_Qle; lia).
    apply Qmult_le_compat_r; [assumption|].
    apply Qlt_le_weak, Qinv_lt_0_compat, HD.
Qed.

(** No overflow below [2 ^ 1023]. *)
Lemma binary_round_aux_in_range (x : Q) (m e : Z) (l : location) :
  0 < m -> inb x m e l -> e <= fexp64 (Zdigits2 m + e) ->
  (x < bpow 1023)%Q ->
  binary_round_aux 53 1024 false m e l <> S754_infinity false.
Proof.
  intros Hm Hin Hpre Hx.
  destruct (binary_round_aux_rounds Hm Hin Hpre) as (m2 & E & Hr & ->).
  destruct (rounds_to_bounds Hr) as (B1 & B2 & B3).
  rewrite (finish_spec B1 B2 B3).
  destruct Hr as (k & m1 & l1 & [Hlo _] & HE & _).
  assert (k - 1 < 1023) by (apply bpow_lt_inv; lra).
  rewrite fexp64_eq in HE.
  assert (normal_exponent m2 E <= 971)
    by (unfold normal_exponent; destruct (m2 =? 2 ^ 53); lia).
  destruct (m2 =? 0); [discriminate|].
  destruct (Z.leb_spec (normal_exponent m2 E) 971); [discriminate|lia].
Qed.

Lemma nearest_in_range (a d : Z) :
  0 <= a < 2 ^ 1023 -> 0 < d < 2 ^ 1000 ->
  PyFloat.nearest a d <> S754_infinity false.
Proof.
  intros Ha Hd. destruct d as [|d|d]; try lia.
  destruct a as [|a|a]; try lia; [discriminate|].
  destruct (@nearest_pos a d ltac:(lia)) as (q & e & l & -> & Hq & Hin & Hp).
  apply (binary_round_aux_in_range Hq Hin Hp).
  assert (HD : (1 <= inject_Z (Zpos d))%Q)
    by (change 1%Q with (inject_Z 1); rewrite <- Zle_Qle; lia).
  assert (HA : (inject_Z (Zpos a) < bpow 1023)%Q)
    by (rewrite bpow_Z by lia; rewrite <- Zlt_Qlt; lia).
  set (x := (inject_Z (Zpos a) / inject_Z (Zpos d))%Q).
  assert (Hx : (x * inject_Z (Zpos d) == inject_Z (Zpos a))%Q).
  { unfold x. field. intros E. rewrite E in HD. lra. }
  assert (0 < inject_Z (Zpos a))%Q by reflexivity.
  assert (0 < x)%Q by nra.
  nra.
Qed.

(* ================================================================== *)
(** ** Price resolution *)

Section ScanVersusFind.

  Variable name : string.

(** The loop leaves in [model_key] the key of the first entry that matches
    by prefix, and that key maps to that entry; when no entry matches,
    [model_key] is unchanged. *)
Lemma prefix_scan_find (pricing : list (string * price_pair)) :
  match find (Spec.prefix_match name) pricing with
  | Some (k, v) =>
      prefix_scan (dict_keys pricing) name = k /\ dict_get pricing k = Some v
  | None => prefix_scan (dict_keys pricing) name = name
  end.
Proof.
  induction pricing as [|[k0 v0] rest IH]; simpl.
  - reflexivity.
  - unfold Spec.prefix_match at 1, startswith. simpl fst.
    destruct (String.prefix k0 name || String.prefix name k0) eqn:Hm.
    + rewrite String.eqb_refl. auto.
    + destruct (find (Spec.prefix_match name) rest) as [[k v]|] eqn:Hf.
      * destruct IH as [IH1 IH2]. split; [exact IH1|].
        destruct (String.eqb k0 k) eqn:Hk; [|exact IH2].
        apply String.eqb_eq in Hk. subst k0.
        apply find_some in Hf. destruct Hf as [_ Hp].
        unfold Spec.prefix_match in Hp. simpl in Hp. congruence.
      * exact IH.
Qed.

End ScanVersusFind.

(** [get_cost] is the catalog's [compute_cost] applied to [resolve], for any
    price table and alias table. *)
Lemma get_cost_in_resolve (pricing : list (string * price_pair))
    (aliases : list (string * string)) (model_ : string) (i o : Z) :
  get_cost_in pricing aliases model_ i o
  = Spec.compute_cost (Spec.resolve pricing aliases model_) i o.
Proof.
  unfold get_cost_in, Spec.resolve, Spec.canonical.
  generalize (match dict_get aliases model_ with
              | Some c => c | None => model_ end).
  intros name. unfold dict_mem.
  destruct (dict_get pricing name) as [[pi po]|] eqn:Hexact; cbn [negb].
  - rewrite Hexact. cbn [negb Spec.compute_cost]. unfold Spec.cost.
    destruct (PyFloat.int_truediv i 1000000); [|reflexivity].
    destruct (PyFloat.int_truediv o 1000000); reflexivity.
  - pose proof (prefix_scan_find name pricing) as Hscan.
    destruct (find (Spec.prefix_match name) pricing) as [[k [pi po]]|].
    + destruct Hscan as [Hk Hget]. rewrite Hk, Hget.
      cbn [negb option_map snd Spec.compute_cost]. unfold Spec.cost.
      destruct (PyFloat.int_truediv i 1000000); [|reflexivity].
      destruct (PyFloat.int_truediv o 1000000); reflexivity.
    + rewrite Hscan, Hexact. reflexivity.
Qed.

Lemma get_cost_resolve (model_ : string) (i o : Z) :
  get_cost model_ i o
  = Spec.compute_cost (Spec.resolve PRICING ALIASES model_) i o.
Proof. apply get_cost_in_resolve. Qed.

(** C1. For every model name, [get_cost] resolves it as the catalog's
    reference algorithm does: alias replacement first, then the exact match,
    then the first entry in the table's iteration order whose key is a prefix
    of the name or has the name as a prefix; costs are computed from the entry
    so found, and are zero when there is none.  This holds for the package's
    tables and for any other pair of tables. *)
Theorem C1_get_cost_is_reference_resolution :
  (forall model_ i o,
      get_cost model_ i o
      = Spec.compute_cost (Spec.resolve PRICING ALIASES model_) i o)
  /\ (forall pricing aliases model_ i o,
         get_cost_in pricing aliases model_ i o
         = Spec.compute_cost (Spec.resolve pricing aliases model_) i o).
Proof.
  split.
  - intros. apply get_cost_resolve.
  - intros. apply get_cost_in_resolve.
Qed.

(** The keys of the price table are pairwise distinct, as the keys of a dict
    are, and every alias leads to a key of the price table. *)
Lemma PRICING_keys_distinct : NoDup (dict_keys PRICING).
Proof.
  unfold PRICING, dict_keys; cbn [map fst].
  repeat (constructor;
          [ cbn [In]; intros H;
            repeat (destruct H as [H|H]; [discriminate H|]); exact H | ]).
  constructor.
Qed.

Lemma ALIASES_lead_to_keys :
  forallb (fun a => dict_mem PRICING (snd a)) ALIASES = true.
Proof. vm_compute. reflexivity. Qed.

Lemma alias_resolves_as_canonical (alias_ canonical_ : string) :
  dict_get ALIASES alias_ = Some canonical_ ->
  Spec.resolve PRICING ALIASES alias_ = Spec.resolve PRICING ALIASES canonical_.
Proof.
  unfold ALIASES. cbn [dict_get].
  repeat match goal with
         | |- (if String.eqb ?k alias_ then _ else _) = _ -> _ =>
             destruct (String.eqb_spec k alias_) as [<-|_];
             [ intros E; injection E as <-; vm_compute; reflexivity | ]
         end.
  discriminate.
Qed.

(** C8. For every alias of the alias table and all token counts, [get_cost]
    on the alias returns exactly what it returns on the canonical id; in
    particular "claude-3.5-sonnet" resolves to the price pair of
    "claude-3-5-sonnet-20241022". *)
Theorem C8_alias_costs_as_canonical (alias_ canonical_ : string) (i o : Z) :
  dict_get ALIASES alias_ = Some canonical_ ->
  get_cost alias_ i o = get_cost canonical_ i o
  /\ Spec.resolve PRICING ALIASES "claude-3.5-sonnet"
     = Spec.resolve PRICING ALIASES "claude-3-5-sonnet-20241022".
Proof.
  intros H. split.
  - rewrite !get_cost_resolve.
    now rewrite (alias_resolves_as_canonical _ H).
  - apply (@alias_resolves_as_canonical "claude-3.5-sonnet"). reflexivity.
Qed.

Lemma C8_witness :
  get_cost "gpt-4o-2024-08-06" 1000 500 = get_cost "gpt-4o" 1000 500
  /\ Spec.resolve PRICING ALIASES "claude-3.5-sonnet"
     = Spec.resolve PRICING ALIASES "claude-3-5-sonnet-20241022".
Proof.
  apply (@C8_alias_costs_as_canonical "gpt-4o-2024-08-06" "gpt-4o" 1000 500).
  reflexivity.
Defined.

Lemma o1_mini_suffix_resolves_to_o1 (c : ascii) (suffix : string) :
  Spec.resolve PRICING ALIASES ("o1-mini" ++ String c suffix)
  = Some (PyFloat.lit 1500 100, PyFloat.lit 6000 100).
Proof.
  unfold Spec.resolve, Spec.canonical.
  replace (dict_get ALIASES ("o1-mini" ++ String c suffix)) with (@None string)
    by reflexivity.
  replace (dict_get PRICING ("o1-mini" ++ String c suffix))
    with (@None price_pair) by reflexivity.
  reflexivity.
Qed.

(** C10. When several entries match a name by prefix, [get_cost] uses the one
    declared first, not the longest: every name made of "o1-mini" and a
    non-empty suffix, such as "o1-mini-2025", is priced with the "o1" entry
    (15.00, 60.00) and not with the "o1-mini" entry (3.00, 12.00), which also
    matches, is the longest match, and is declared after "o1". *)
Theorem C10_first_declared_prefix_wins :
  (forall (c : ascii) (suffix : string) (i o : Z),
      get_cost ("o1-mini" ++ String c suffix) i o
      = Spec.compute_cost (Some (PyFloat.lit 1500 100, PyFloat.lit 6000 100)) i o)
  /\ get_cost "o1-mini-2025" 1000000 1000000
     = Ok (PyFloat.lit 1500 100, PyFloat.lit 6000 100, PyFloat.lit 7500 100)
  /\ get_cost "o1-mini" 1000000 1000000
     = Ok (PyFloat.lit 300 100, PyFloat.lit 1200 100, PyFloat.lit 1500 100)
  /\ dict_get PRICING "o1" = Some (PyFloat.lit 1500 100, PyFloat.lit 6000 100)
  /\ longest_match PRICING "o1-mini-2025"
     = Some ("o1-mini", (PyFloat.lit 300 100, PyFloat.lit 1200 100))
  /\ filter (Spec.prefix_match "o1-mini-2025") PRICING
     = [ ("o1", (PyFloat.lit 1500 100, PyFloat.lit 6000 100));
         ("o1-mini", (PyFloat.lit 300 100, PyFloat.lit 1200 100)) ]
  /\ index_of "o1" (dict_keys PRICING) = Some 12%nat
  /\ index_of "o1-mini" (dict_keys PRICING) = Some 13%nat.
Proof.
  split.
  { intros. rewrite get_cost_resolve.
    now rewrite o1_mini_suffix_resolves_to_o1. }
  repeat split; vm_compute; reflexivity.
Qed.

(* ================================================================== *)
(** ** Running the dispatcher and [track] *)

Lemma post_then_check_run (self : APIClient) (u : string) (payload : json)
    (w : World) :
  try_except (status <- post self u payload ;; raise_for_status status)
             is_HTTPError (ret tt) w
  = dispatch {| url := u; authorization := auth_header self;
                body := payload; timeout := client_timeout self |} w.
Proof.
  unfold try_except, bind, post, dispatch. cbn [body].
  destruct (network w _ _) as [status|e].
  - destruct (json_encodable payload); [|reflexivity]. cbn [negb].
    unfold raise_for_status.
    destruct ((200 <=? status) && (status <=? 299)); reflexivity.
  - destruct e; try reflexivity;
      (destruct (json_encodable payload); reflexivity).
Qed.

Lemma send_event_run (self : APIClient) (event : UsageEvent) (w : World) :
  send_event self event w = dispatch (event_request self event) w.
Proof. unfold send_event. apply post_then_check_run. Qed.



(** What [track] does, step by step. *)
Lemma track_run (self : CostTracker) (model_ : string) (i o : Z)
    (u f : option string) (d : option Z)
    (md : option (list (string * json))) (w : World) :
  track self model_ i o u f d md w
  = match get_cost model_ i o with
    | Raise e => (Raise e, w)
    | Ok c =>
        let event := built_event self model_ i o c u f d md w in
        match _client self with
        | None => (Ok event, tick (tick w))
        | Some client =>
            match send_event client event (tick (tick w)) with
            | (Ok _, w') => (Ok event, w')
            | (Raise e, w') => (Raise e, w')
            end
        end
    end.
Proof.
  unfold track, bind, lift.
  destruct (get_cost model_ i o) as [[[ic oc] tc]|e]; [|reflexivity].
  cbv zeta. unfold uuid4, utcnow, built_event. cbn [fst snd ticks tick uuid4_source utc_clock].
  destruct (_client self) as [client|]; [|reflexivity].
  destruct (send_event client _ _) as [[[]|e] w']; reflexivity.
Qed.

Lemma dispatch_sends (r : request) (w : World) :
  json_encodable (body r) = true ->
  answers_or_fails (network w (List.length (requests w)) r) = true ->
  dispatch r w = (Ok tt, log_request r w).
Proof.
  intros Henc Hnet. unfold dispatch. rewrite Henc.
  destruct (network w _ _) as [status|e]; [reflexivity|].
  destruct e; try reflexivity; discriminate Hnet.
Qed.



(** With a transport that answers or fails as a transport does and a payload
    that can be encoded, [track] returns the event it built and leaves one
    request, or none without a dispatcher. *)
Lemma track_world (self : CostTracker) (model_ : string)
    (i o : Z) (u f : option string) (d : option Z)
    (md : option (list (string * json))) (w : World) (c : costs) :
  get_cost model_ i o = Ok c ->
  (forall n r, answers_or_fails (network w n r) = true) ->
  (forall client, _client self = Some client ->
     json_encodable (event_payload (built_event self model_ i o c u f d md w))
     = true) ->
  track self model_ i o u f d md w
  = (Ok (built_event self model_ i o c u f d md w),
     match _client self with
     | Some client =>
         log_request
           (event_request client (built_event self model_ i o c u f d md w))
           (tick (tick w))
     | None => tick (tick w)
     end).
Proof.
  intros Hc Hnet Henc. rewrite track_run, Hc. cbv zeta.
  destruct (_client self) as [client|]; [|reflexivity].
  rewrite send_event_run, dispatch_sends; [reflexivity| |].
  - exact (Henc client eq_refl).
  - cbn [network tick requests]. apply Hnet.
Qed.

(* ================================================================== *)
(** ** Costs *)

Lemma PRICING_prices_ok :
  forallb (fun entry => price_ok (fst (snd entry)) && price_ok (snd (snd entry)))
          PRICING = true.
Proof. vm_compute. reflexivity. Qed.

Lemma dict_get_In {V : Type} (d : list (string * V)) (k : string) (v : V) :
  dict_get d k = Some v -> In (k, v) d.
Proof.
  induction d as [|[k0 v0] rest IH]; cbn [dict_get]; [discriminate|].
  destruct (String.eqb_spec k0 k) as [->|_].
  - intros E. injection E as ->. now left.
  - intros E. right. now apply IH.
Qed.

Lemma resolve_In (pricing : list (string * price_pair))
    (aliases : list (string * string)) (model_ : string) (p : price_pair) :
  Spec.resolve pricing aliases model_ = Some p ->
  exists k, In (k, p) pricing.
Proof.
  unfold Spec.resolve.
  destruct (dict_get pricing (Spec.canonical aliases model_)) as [e|] eqn:Hg.
  - intros E. injection E as ->. eexists. apply (dict_get_In _ _ Hg).
  - destruct (find _ pricing) as [[k v]|] eqn:Hf; [|discriminate].
    intros E. injection E as <-. exists k.
    apply (find_some _ _ Hf).
Qed.

Lemma resolved_prices_ok (model_ : string) (pi po : float) :
  Spec.resolve PRICING ALIASES model_ = Some (pi, po) ->
  price_ok pi = true /\ price_ok po = true.
Proof.
  intros H. destruct (resolve_In _ _ _ H) as [k Hin].
  pose proof PRICING_prices_ok as Hall. rewrite forallb_forall in Hall.
  specialize (Hall _ Hin). cbn [fst snd] in Hall.
  now apply andb_true_iff in Hall.
Qed.

Lemma price_ok_finite (p : float) :
  price_ok p = true ->
  exists m e, p = S754_finite false m e /\ bounded 53 1024 m e = true.
Proof.
  destruct p as [s|s| |[] m e]; cbn [price_ok]; intros H; try discriminate H.
  now exists m, e.
Qed.

(** [n / 1_000_000] returns the correctly rounded quotient, or raises
    [OverflowError]. *)
Lemma int_truediv_million (n : Z) :
  PyFloat.int_truediv n 1000000
  = match PyFloat.nearest n 1000000 with
    | S754_infinity _ => Raise OverflowError
    | q => Ok q
    end.
Proof. reflexivity. Qed.

Lemma int_truediv_Ok (n : Z) (q : float) :
  PyFloat.int_truediv n 1000000 = Ok q ->
  q = PyFloat.nearest n 1000000.
Proof.
  rewrite int_truediv_million.
  destruct (PyFloat.nearest n 1000000); intros E; now inversion E.
Qed.

(** Token counts below [2 ^ 1023] are within the range of the division. *)
Lemma int_truediv_returns (n : Z) :
  0 <= n < 2 ^ 1023 ->
  PyFloat.int_truediv n 1000000 = Ok (PyFloat.nearest n 1000000).
Proof.
  intros Hn. rewrite int_truediv_million.
  pose proof (@nearest_valid n 1000000 ltac:(lia) ltac:(lia)) as V.
  pose proof (@nearest_in_range n 1000000 Hn ltac:(lia)) as R.
  destruct (PyFloat.nearest n 1000000) as [s|[]| |s m e];
    try reflexivity; try discriminate V. congruence.
Qed.

(** One cost, [tokens / 1_000_000 * price]: a non-negative float, and
    monotone in the token count. *)
Lemma cost_valid (tokens : Z) (price c : float) :
  0 <= tokens -> price_ok price = true ->
  Spec.cost tokens price = Ok c -> nonneg_valid c = true.
Proof.
  intros Ht Hp. unfold Spec.cost.
  destruct (PyFloat.int_truediv tokens 1000000) as [q|e] eqn:Hq; [|discriminate].
  intros E. injection E as <-. apply int_truediv_Ok in Hq. subst q.
  destruct (price_ok_finite _ Hp) as (m & e & Hpe & Hb).
  unfold PyFloat.mul, PyFloat.prec, PyFloat.emax.
  apply (@SFmul_valid _ price m e); [|exact Hpe|exact Hb].
  apply nearest_valid; lia.
Qed.

Lemma cost_mono (t t' : Z) (price c c' : float) :
  0 <= t <= t' -> price_ok price = true ->
  Spec.cost t price = Ok c -> Spec.cost t' price = Ok c' ->
  PyFloat.leb c c' = true.
Proof.
  intros Ht Hp. unfold Spec.cost.
  destruct (PyFloat.int_truediv t 1000000) as [q|e] eqn:Hq; [|discriminate].
  destruct (PyFloat.int_truediv t' 1000000) as [q'|e'] eqn:Hq'; [|discriminate].
  intros E E'. injection E as <-. injection E' as <-.
  apply int_truediv_Ok in Hq, Hq'. subst q q'.
  destruct (price_ok_finite _ Hp) as (m & e & Hpe & Hb).
  unfold PyFloat.leb, PyFloat.mul, PyFloat.prec, PyFloat.emax.
  apply (@SFmul_mono _ _ price m e); try assumption.
  - apply nearest_valid; lia.
  - apply nearest_valid; lia.
  - apply nearest_mono; lia.
Qed.

Lemma nonneg_valid_leb_zero (c : float) :
  nonneg_valid c = true -> PyFloat.leb PyFloat.zero c = true.
Proof.
  intros V. apply SFleb_zero_l.
  destruct (nonneg_valid_cases _ V) as [->|[->|(? & ? & -> & _)]]; exact I.
Qed.

(** [get_cost] returns for every model name and all token counts from [0]
    to below [2 ^ 1023]. *)
Lemma get_cost_returns (model_ : string) (i o : Z) :
  0 <= i < 2 ^ 1023 -> 0 <= o < 2 ^ 1023 ->
  exists c, get_cost model_ i o = Ok c.
Proof.
  intros Hi Ho. rewrite get_cost_resolve.
  destruct (Spec.resolve PRICING ALIASES model_) as [[pi po]|];
    cbn [Spec.compute_cost]; [|eexists; reflexivity].
  unfold Spec.cost. rewrite (int_truediv_returns Hi), (int_truediv_returns Ho).
  eexists. reflexivity.
Qed.

Lemma get_cost_nonnegative_monotone (model_ : string)
    (i o i' o' : Z) (c c' : costs) :
  0 <= i <= i' -> 0 <= o <= o' ->
  get_cost model_ i o = Ok c -> get_cost model_ i' o' = Ok c' ->
  costs_nonnegative c /\ costs_nonnegative c' /\ costs_le c c'.
Proof.
  intros Hi Ho. rewrite !get_cost_resolve.
  unfold costs_nonnegative, costs_le.
  destruct (Spec.resolve PRICING ALIASES model_) as [[pi po]|] eqn:Hres;
    cbn [Spec.compute_cost].
  - destruct (resolved_prices_ok _ Hres) as [Hpi Hpo].
    destruct (Spec.cost i pi) as [ic|] eqn:Hic; [|discriminate].
    destruct (Spec.cost o po) as [oc|] eqn:Hoc; [|discriminate].
    destruct (Spec.cost i' pi) as [ic'|] eqn:Hic'; [|discriminate].
    destruct (Spec.cost o' po) as [oc'|] eqn:Hoc'; [|discriminate].
    intros E E'. injection E as <-. injection E' as <-. cbn [fst snd].
    pose proof (@cost_valid i pi ic ltac:(lia) Hpi Hic) as Vi.
    pose proof (@cost_valid o po oc ltac:(lia) Hpo Hoc) as Vo.
    pose proof (@cost_valid i' pi ic' ltac:(lia) Hpi Hic') as Vi'.
    pose proof (@cost_valid o' po oc' ltac:(lia) Hpo Hoc') as Vo'.
    pose proof (@cost_mono i i' pi ic ic' Hi Hpi Hic Hic') as Mi.
    pose proof (@cost_mono o o' po oc oc' Ho Hpo Hoc Hoc') as Mo.
    assert (Vt : nonneg_valid (PyFloat.add ic oc) = true)
      by (unfold PyFloat.add, PyFloat.prec, PyFloat.emax; now apply SFadd_valid).
    assert (Vt' : nonneg_valid (PyFloat.add ic' oc') = true)
      by (unfold PyFloat.add, PyFloat.prec, PyFloat.emax; now apply SFadd_valid).
    repeat split; try (now apply nonneg_valid_leb_zero); try assumption.
    unfold PyFloat.leb, PyFloat.add, PyFloat.prec, PyFloat.emax.
    now apply SFadd_mono.
  - intros E E'. injection E as <-. injection E' as <-.
    repeat split; reflexivity.
Qed.

(** C9. For every model name and all non-negative token counts, the three
    costs [get_cost] returns are each [>= 0], and none of them decreases
    when [input_tokens] or [output_tokens] grows with the model fixed.
    Counts below [2 ^ 1023] are in the range where [get_cost] returns. *)
Theorem C9_costs_nonnegative_and_monotone (model_ : string)
    (i o i' o' : Z) :
  0 <= i <= i' -> 0 <= o <= o' ->
  (forall c c',
      get_cost model_ i o = Ok c -> get_cost model_ i' o' = Ok c' ->
      costs_nonnegative c /\ costs_nonnegative c' /\ costs_le c c')
  /\ (i' < 2 ^ 1023 -> o' < 2 ^ 1023 ->
      exists c c',
        get_cost model_ i o = Ok c /\ get_cost model_ i' o' = Ok c'
        /\ costs_nonnegative c /\ costs_nonnegative c' /\ costs_le c c').
Proof.
  intros Hi Ho. split.
  - intros c c'. now apply get_cost_nonnegative_monotone.
  - intros Hi' Ho'.
    destruct (@get_cost_returns model_ i o ltac:(lia) ltac:(lia)) as [c Hc].
    destruct (@get_cost_returns model_ i' o' ltac:(lia) ltac:(lia)) as [c' Hc'].
    exists c, c'. split; [exact Hc|]. split; [exact Hc'|].
    now apply (@get_cost_nonnegative_monotone model_ i o i' o').
Qed.

Lemma C9_witness :
  costs_nonnegative
    (PyFloat.lit 25 10000, PyFloat.lit 5 1000, PyFloat.lit 75 10000)
  /\ costs_nonnegative
       (PyFloat.lit 5 1000, PyFloat.lit 1 100, PyFloat.lit 15 1000)
  /\ costs_le (PyFloat.lit 25 10000, PyFloat.lit 5 1000, PyFloat.lit 75 10000)
              (PyFloat.lit 5 1000, PyFloat.lit 1 100, PyFloat.lit 15 1000).
Proof.
  apply (proj1 (@C9_costs_nonnegative_and_monotone "gpt-4o" 1000 500 2000 1000
                  ltac:(lia) ltac:(lia)));
    vm_compute; reflexivity.
Defined.

(* ================================================================== *)
(** ** Payloads that can be encoded, and the range of [get_cost] *)

(** *** Rounded results are within binary64 *)

Lemma shr_fexp_exact_bound (m e : Z) :
  0 < m ->
  0 <= shr_m (fst (shr_fexp 53 1024 m e loc_Exact)) < 2 ^ 53.
Proof.
  intros Hm. unfold shr_fexp.
  set (n := fexp 53 1024 (Zdigits2 m + e) - e).
  destruct (@shr_located (inject_Z m * bpow e)%Q m e loc_Exact n
              ltac:(lia) (inb_exact m e)) as (He & Hpos & Hin).
  set (m' := shr_m (fst (shr (shr_record_of_loc m loc_Exact) e n))) in *.
  split; [exact Hpos|].
  destruct Hin as [[Hlo _] _].
  pose proof (Zdigits2_bounds Hm) as [_ HD].
  pose proof (Zdigits2_pos Hm) as HDpos.
  set (D := Zdigits2 m) in *.
  assert (Hfexp : fexp 53 1024 (D + e) = Z.max (D + e - 53) (-1074))
    by reflexivity.
  assert (HmQ : (inject_Z m < bpow D)%Q).
  { rewrite bpow_Z by lia. now rewrite <- Zlt_Qlt. }
  pose proof (bpow_pos e) as Pe.
  destruct (Z_le_gt_dec n 0) as [Hn|Hn].
  - (* no shift *)
    rewrite Z.max_r in Hlo by lia. rewrite Z.add_0_r in Hlo.
    assert (Hle : (inject_Z m' <= inject_Z m)%Q) by nra.
    rewrite <- Zle_Qle in Hle.
    assert (D <= 53) by (unfold n in Hn; lia).
    assert (2 ^ D <= 2 ^ 53) by (apply Z.pow_le_mono_r; lia).
    lia.
  - rewrite Z.max_l in Hlo by lia.
    set (e' := e + n) in *.
    assert (He' : D + e - e' <= 53) by (unfold e', n; lia).
    pose proof (bpow_pos e') as Pe'.
    assert (Hsplit : (bpow (D + e) == bpow (D + e - e') * bpow e')%Q).
    { rewrite <- bpow_add. now replace (D + e - e' + e') with (D + e) by lia. }
    assert (Hde : (bpow (D + e) == bpow D * bpow e)%Q) by apply bpow_add.
    assert (Hlt : (inject_Z m' < bpow (D + e - e'))%Q) by nra.
    assert (Hle53 : (bpow (D + e - e') <= bpow 53)%Q) by (apply bpow_le; lia).
    assert (H53 : (inject_Z m' < inject_Z (2 ^ 53))%Q).
    { rewrite <- bpow_Z by lia. lra. }
    now rewrite <- Zlt_Qlt in H53.
Qed.

Lemma binary_round_aux_finite_bound (s s' : bool) (M : positive) (E : Z)
    (m : positive) (e : Z) :
  binary_round_aux 53 1024 s (Zpos M) E loc_Exact = S754_finite s' m e ->
  Zpos m < 2 ^ 53 /\ e <= 971.
Proof.
  unfold binary_round_aux.
  destruct (shr_fexp 53 1024 (Zpos M) E loc_Exact) as [mrs1 e1] eqn:E1.
  set (m2 := round_nearest_even (shr_m mrs1) (loc_of_shr_record mrs1)).
  destruct (shr_fexp 53 1024 m2 e1 loc_Exact) as [mrs2 e2] eqn:E2.
  assert (H1 : 0 <= shr_m mrs1).
  { pose proof (@shr_fexp_exact_bound (Zpos M) E ltac:(lia)) as H.
    rewrite E1 in H. cbn [fst] in H. lia. }
  assert (Hm2 : 0 <= m2).
  { pose proof (round_nearest_even_bounds (shr_m mrs1)
                  (loc_of_shr_record mrs1)). unfold m2. lia. }
  destruct (shr_m mrs2) as [|p|p] eqn:Hp; try discriminate.
  destruct (e2 <=? 1024 - 53) eqn:Hle; [|discriminate].
  intros H. injection H as _ <- <-.
  apply Z.leb_le in Hle. split; [|lia].
  destruct (Z.eq_dec m2 0) as [Hz|Hnz].
  - (* a zero mantissa stays zero *)
    rewrite Hz in E2. unfold shr_fexp in E2. cbn [Zdigits2 Z.add] in E2.
    exfalso.
    assert (Hstep : forall (k : Z) (a : shr_record),
               shr_m a = 0 -> shr_m (shr_1 a) = 0).
    { intros _ [mm r0 s0] Hm. cbn [shr_m] in Hm. subst mm. reflexivity. }
    unfold shr in E2.
    destruct (fexp 53 1024 e1 - e1) as [|k|k].
    + injection E2 as <- _. discriminate Hp.
    + injection E2 as <- _.
      pose proof (@iter_pos_invariant _ shr_1 (fun _ a => shr_m a = 0) Hstep
                    k 0 (shr_record_of_loc 0 loc_Exact) eq_refl) as Hk.
      cbv beta in Hk. cbn [shr_record_of_loc] in Hk. congruence.
    + injection E2 as <- _. discriminate Hp.
  - pose proof (@shr_fexp_exact_bound m2 e1 ltac:(lia)) as H.
    rewrite E2 in H. cbn [fst] in H. lia.
Qed.

Lemma SFmul_finite_bound (x y : spec_float) (s : bool) (m : positive)
    (e : Z) :
  SFmul 53 1024 x y = S754_finite s m e -> Zpos m < 2 ^ 53 /\ e <= 971.
Proof.
  destruct x as [sx|sx| |sx mx ex], y as [sy|sy| |sy my ey];
    cbn [SFmul]; try discriminate.
  apply binary_round_aux_finite_bound.
Qed.

Lemma to_int_bound (s : bool) (m : positive) (e : Z) (d : Z) :
  Zpos m < 2 ^ 53 -> e <= 971 ->
  PyFloat.to_int (S754_finite s m e) = Ok d -> Z.abs d < 2 ^ 1024.
Proof.
  intros Hm He. cbn [PyFloat.to_int]. intros H. injection H as <-.
  assert (Ha : 0 <= match e with
                    | 0 => Zpos m
                    | Zpos _ => Z.shiftl (Zpos m) e
                    | Zneg p => Z.shiftr (Zpos m) (Zpos p)
                    end < 2 ^ 1024).
  { destruct e as [|p|p].
    - assert (2 ^ 53 < 2 ^ 1024) by (apply Z.pow_lt_mono_r; lia). lia.
    - rewrite Z.shiftl_mul_pow2 by lia.
      assert (0 < 2 ^ Zpos p) by (apply Z.pow_pos_nonneg; lia).
      assert (2 ^ Zpos p <= 2 ^ 971) by (apply Z.pow_le_mono_r; lia).
      assert (E1024 : 2 ^ 1024 = 2 ^ 53 * 2 ^ 971)
        by (rewrite <- Z.pow_add_r by lia; reflexivity).
      rewrite E1024. split; [nia|].
      apply Z.lt_le_trans with (2 ^ 53 * 2 ^ Zpos p); nia.
    - rewrite Z.shiftr_div_pow2 by lia.
      assert (0 < 2 ^ Zpos p) by (apply Z.pow_pos_nonneg; lia).
      assert (Zpos m / 2 ^ Zpos p <= Zpos m)
        by (apply Z.div_le_upper_bound; nia).
      assert (0 <= Zpos m / 2 ^ Zpos p) by (apply Z.div_pos; lia).
      assert (2 ^ 53 < 2 ^ 1024) by (apply Z.pow_lt_mono_r; lia). lia. }
  destruct s; lia.
Qed.

Lemma elapsed_ms_bound (start stop : float) (d : Z) :
  elapsed_ms start stop = Ok d -> Z.abs d < 2 ^ 1024.
Proof.
  unfold elapsed_ms, PyFloat.mul, PyFloat.prec, PyFloat.emax.
  destruct (SFmul 53 1024 (PyFloat.sub stop start) (PyFloat.lit 1000 1))
    as [s|s| |s m e] eqn:Hm; cbn [PyFloat.to_int]; try discriminate.
  - intros H. injection H as <-. reflexivity.
  - destruct (SFmul_finite_bound _ _ Hm) as [Hb He].
    apply (@to_int_bound s m e d Hb He).
Qed.

(** *** Payloads *)

Lemma event_payload_encodable (ev : UsageEvent) :
  json_encodable (event_payload ev) = event_encodable ev.
Proof.
  unfold event_payload, event_encodable.
  cbn [json_encodable forallb snd].
  destruct (duration_ms ev), (user_id ev), (feature ev);
    cbn [json_opt json_encodable];
    rewrite ?andb_true_r, ?andb_true_l, ?andb_assoc; reflexivity.
Qed.

Lemma small_int_encodable (n : Z) :
  Z.abs n < 2 ^ 1024 -> int_encodable n = true.
Proof.
  intros H. unfold int_encodable. apply Z.ltb_lt.
  assert (2 ^ 1024 <= 10 ^ int_max_str_digits)
    by (apply Z.leb_le; vm_compute; reflexivity).
  lia.
Qed.

Lemma leb_finite_is_finite (x y : spec_float) :
  nonneg_valid x = true -> nonneg_valid y = true ->
  SFleb x y = true -> is_finite y = true -> is_finite x = true.
Proof.
  intros Vx Vy Hle Hy.
  destruct (nonneg_valid_cases x Vx) as [->|[->|(m & e & -> & _)]];
    try reflexivity.
  rewrite (@SFleb_inf_l y Vy Hle) in Hy. discriminate Hy.
Qed.

Lemma PRICING_largest_costs_finite :
  forallb (fun entry =>
             is_finite (fst (fst (largest_costs entry)))
             && is_finite (snd (fst (largest_costs entry)))
             && is_finite (snd (largest_costs entry)))
          PRICING = true.
Proof. vm_compute. reflexivity. Qed.

Lemma get_cost_finite (model_ : string) (i o : Z) (a b t : float) :
  0 <= i < 2 ^ 1023 -> 0 <= o < 2 ^ 1023 ->
  get_cost model_ i o = Ok (a, b, t) ->
  is_finite a = true /\ is_finite b = true /\ is_finite t = true.
Proof.
  intros Hi Ho. rewrite get_cost_resolve.
  destruct (Spec.resolve PRICING ALIASES model_) as [[pi po]|] eqn:Hr;
    cbn [Spec.compute_cost].
  2: { intros E. injection E as <- <- <-. repeat split; reflexivity. }
  destruct (@resolved_prices_ok model_ pi po Hr) as [Hpi Hpo].
  destruct (@resolve_In PRICING ALIASES model_ (pi, po) Hr) as [k Hin].
  pose proof (proj1 (forallb_forall _ _) PRICING_largest_costs_finite _ Hin)
    as Hfin.
  unfold largest_costs in Hfin. cbn [fst snd] in Hfin.
  apply andb_true_iff in Hfin. destruct Hfin as [Hfin Ft].
  apply andb_true_iff in Hfin. destruct Hfin as [Fa Fb].
  set (N := 2 ^ 1023 - 1) in *.
  assert (HN : 0 <= N < 2 ^ 1023) by (unfold N; lia).
  assert (Ca : Spec.cost N pi
               = Ok (PyFloat.mul (PyFloat.nearest N 1000000) pi)).
  { unfold Spec.cost. now rewrite (int_truediv_returns HN). }
  assert (Cb : Spec.cost N po
               = Ok (PyFloat.mul (PyFloat.nearest N 1000000) po)).
  { unfold Spec.cost. now rewrite (int_truediv_returns HN). }
  destruct (Spec.cost i pi) as [ci|e] eqn:Hci; [|discriminate].
  destruct (Spec.cost o po) as [co|e] eqn:Hco; [|discriminate].
  intros E. injection E as <- <- <-.
  pose proof (@cost_valid i pi ci ltac:(lia) Hpi Hci) as Va.
  pose proof (@cost_valid o po co ltac:(lia) Hpo Hco) as Vb.
  pose proof (@cost_valid N pi _ ltac:(lia) Hpi Ca) as VA.
  pose proof (@cost_valid N po _ ltac:(lia) Hpo Cb) as VB.
  pose proof (@cost_mono i N pi ci _ ltac:(unfold N; lia) Hpi Hci Ca) as La.
  pose proof (@cost_mono o N po co _ ltac:(unfold N; lia) Hpo Hco Cb) as Lb.
  split; [exact (@leb_finite_is_finite _ _ Va VA La Fa)|].
  split; [exact (@leb_finite_is_finite _ _ Vb VB Lb Fb)|].
  apply (@leb_finite_is_finite _
           (PyFloat.add (PyFloat.mul (PyFloat.nearest N 1000000) pi)
                        (PyFloat.mul (PyFloat.nearest N 1000000) po))).
  - now apply SFadd_valid.
  - now apply SFadd_valid.
  - unfold PyFloat.add, PyFloat.prec, PyFloat.emax. now apply SFadd_mono.
  - exact Ft.
Qed.

Lemma built_event_encodable (self : CostTracker) (model_ : string)
    (i o : Z) (c : costs) (u f : option string) (d : option Z)
    (md : option (list (string * json))) (w : World) :
  event_encodable (built_event self model_ i o c u f d md w)
  = int_encodable i && int_encodable o
    && is_finite (fst (fst c)) && is_finite (snd (fst c))
    && is_finite (snd c)
    && optional_args_encodable d md.
Proof.
  unfold event_encodable, optional_args_encodable.
  cbn [built_event input_tokens output_tokens input_cost output_cost
       total_cost duration_ms metadata].
  now rewrite !andb_assoc.
Qed.

(** In the range of ordinary token counts the payload of the event can be
    encoded as soon as the optional arguments can. *)
Lemma track_payload_in_range (self : CostTracker) (model_ : string)
    (i o : Z) (c : costs) (u f : option string) (d : option Z)
    (md : option (list (string * json))) (w : World) :
  0 <= i < 2 ^ 1023 -> 0 <= o < 2 ^ 1023 ->
  get_cost model_ i o = Ok c ->
  optional_args_encodable d md = true ->
  json_encodable (event_payload (built_event self model_ i o c u f d md w))
  = true.
Proof.
  intros Hi Ho Hc Hopt.
  rewrite event_payload_encodable, built_event_encodable, Hopt.
  destruct c as [[a b] t]. cbn [fst snd].
  destruct (@get_cost_finite model_ i o a b t Hi Ho Hc) as (Fa & Fb & Ft).
  rewrite Fa, Fb, Ft.
  assert (H1023 : 2 ^ 1023 < 2 ^ 1024) by (apply Z.pow_lt_mono_r; lia).
  rewrite !small_int_encodable by lia. reflexivity.
Qed.

(** A measured duration can be encoded. *)
Lemma measured_duration_encodable (start stop : float) (d : Z) :
  elapsed_ms start stop = Ok d ->
  optional_args_encodable (Some d) None = true.
Proof.
  intros H. unfold optional_args_encodable.
  rewrite (@small_int_encodable d (@elapsed_ms_bound start stop d H)).
  reflexivity.
Qed.

(** *** Where the division overflows *)















(* ================================================================== *)
(** ** The dispatcher swallows transport failures *)



(** What the dispatcher does not swallow: an exception of the transport that
    is no [httpx.HTTPError] goes through [send_event]. *)
Lemma send_event_lets_other_exceptions_through (self : APIClient)
    (event : UsageEvent) (w : World) :
  network w (List.length (requests w)) (event_request self event)
  = Fails InvalidURL ->
  fst (send_event self event w) = Raise (Httpx InvalidURL).
Proof. intros H. rewrite send_event_run. unfold dispatch. now rewrite H. Qed.

Lemma send_event_lets_other_exceptions_through_witness :
  fst (send_event (APIClient_init "key" "https://api.cost-gpt.com/")
         (built_event hosted_tracker "gpt-4o" 1000 500
            (PyFloat.zero, PyFloat.zero, PyFloat.zero) None None None None
            (example_world (fun _ _ => Fails InvalidURL) reply_with_usage))
         (example_world (fun _ _ => Fails InvalidURL) reply_with_usage))
  = Raise (Httpx InvalidURL).
Proof.
  apply send_event_lets_other_exceptions_through. reflexivity.
Defined.

(* ================================================================== *)
(** ** Attribution defaults *)

(** C7, as stated, fails: an explicit but empty [user_id] is given, and the
    event carries the tracker's default instead of it. *)
Lemma C7_empty_argument_yields_default :
  exists ev,
    fst (track local_tracker "gpt-4o" 1000 500 (Some "") None None None
               (example_world accepts reply_with_usage)) = Ok ev
    /\ user_id ev = Some "bob"
    /\ user_id ev
       <> Attribution.effective (Some "") (default_user_id local_tracker).
Proof.
  eexists. split; [|split].
  - rewrite track_run.
    replace (get_cost "gpt-4o" 1000 500)
      with (Ok (PyFloat.lit 25 10000, PyFloat.lit 5 1000, PyFloat.lit 75 10000))
      by (vm_compute; reflexivity).
    reflexivity.
  - reflexivity.
  - discriminate.
Qed.

(** C7, amended. For every call to [track] that returns, the [user_id]
    (respectively [feature]) of the event is the explicit argument when one
    is given and it is not the empty string; otherwise it is the tracker's
    configured default, which may be absent. *)
Theorem C7_explicit_nonempty_else_default (self : CostTracker)
    (model_ : string) (i o : Z) (u f : option string) (d : option Z)
    (md : option (list (string * json))) (w w' : World) (ev : UsageEvent) :
  track self model_ i o u f d md w = (Ok ev, w') ->
  (forall s, u = Some s -> s <> "" -> user_id ev = Some s)
  /\ (u = None \/ u = Some "" -> user_id ev = default_user_id self)
  /\ (forall s, f = Some s -> s <> "" -> feature ev = Some s)
  /\ (f = None \/ f = Some "" -> feature ev = default_feature self).
Proof.
  intros Hrun. rewrite track_run in Hrun.
  destruct (get_cost model_ i o) as [c|e]; [|discriminate].
  cbv zeta in Hrun.
  assert (Hev : ev = built_event self model_ i o c u f d md w).
  { destruct (_client self) as [client|].
    - destruct (send_event client _ _) as [[[]|e] w1]; congruence.
    - congruence. }
  subst ev. cbn [user_id feature built_event]. unfold or_str, truthy_str.
  repeat split.
  - intros s -> Hs. apply String.eqb_neq in Hs. now rewrite Hs.
  - intros [->| ->]; reflexivity.
  - intros s -> Hs. apply String.eqb_neq in Hs. now rewrite Hs.
  - intros [->| ->]; reflexivity.
Qed.

Lemma C7_witness :
  exists ev w',
    track local_tracker "gpt-4o" 1000 500 (Some "alice") None None None
          (example_world accepts reply_with_usage) = (Ok ev, w')
    /\ user_id ev = Some "alice"
    /\ feature ev = Some "chat".
Proof.
  pose (w := example_world accepts reply_with_usage).
  pose (ev := built_event local_tracker "gpt-4o" 1000 500
                (PyFloat.lit 25 10000, PyFloat.lit 5 1000, PyFloat.lit 75 10000)
                (Some "alice") None None None w).
  assert (Hrun : track local_tracker "gpt-4o" 1000 500 (Some "alice") None
                       None None w = (Ok ev, tick (tick w))).
  { rewrite track_run.
    replace (get_cost "gpt-4o" 1000 500)
      with (Ok (PyFloat.lit 25 10000, PyFloat.lit 5 1000, PyFloat.lit 75 10000))
      by (vm_compute; reflexivity).
    reflexivity. }
  exists ev, (tick (tick w)). split; [exact Hrun|].
  destruct (C7_explicit_nonempty_else_default _ _ _ _ _ _ _ _ _ Hrun)
    as (Hu & _ & _ & Hf).
  split.
  - apply Hu; [reflexivity | discriminate].
  - apply Hf. now left.
Defined.

(* ================================================================== *)
(** ** The hook state machine *)

Lemma provider_eqb_refl (p : provider) : provider_eqb p p = true.
Proof. now destruct p. Qed.

Lemma hooks_set_hook_same (p : provider) (h : HookState) (w : World) :
  hooks (set_hook p h w) p = h.
Proof. cbn [hooks set_hook]. now rewrite provider_eqb_refl. Qed.

Lemma hooks_set_hook_other (p q : provider) (h : HookState) (w : World) :
  p <> q -> hooks (set_hook p h w) q = hooks w q.
Proof. cbn [hooks set_hook]. destruct p, q; simpl; congruence. Qed.

Lemma instrument_run (p : provider) (tracker : CostTracker) (w : World) :
  instrument p tracker w
  = match library_create (hooks w p), _original_create (hooks w p) with
    | None, _ => (Raise (ImportError (not_installed_message p)), w)
    | Some _, Some _ => (Ok tt, w)
    | Some current, None =>
        (Ok tt, set_hook p {| library_create := Some (tracked_create p);
                              _original_create := Some current;
                              _tracker := Some tracker |} w)
    end.
Proof.
  unfold instrument, bind, get_hook.
  destruct (library_create (hooks w p)); [|reflexivity].
  destruct (_original_create (hooks w p)); reflexivity.
Qed.

Lemma uninstrument_run (p : provider) (w : World) :
  uninstrument p w
  = match _original_create (hooks w p), library_create (hooks w p) with
    | None, _ => (Ok tt, w)
    | Some _, None => (Ok tt, w)
    | Some original, Some _ =>
        (Ok tt, set_hook p {| library_create := Some original;
                              _original_create := None;
                              _tracker := None |} w)
    end.
Proof.
  unfold uninstrument, bind, get_hook.
  destruct (_original_create (hooks w p)); [|reflexivity].
  destruct (library_create (hooks w p)); reflexivity.
Qed.

(** Every sequence of operations keeps the hook in one of two shapes. *)
Lemma run_ops_invariant (p : provider) (f : callable) (ops : list hook_op)
    (w : World) :
  (hooks w p = not_installed_hook f
   \/ exists t, hooks w p = installed_hook p f t) ->
  hooks (run_ops p ops w) p = not_installed_hook f
  \/ exists t, hooks (run_ops p ops w) p = installed_hook p f t.
Proof.
  revert w. induction ops as [|op rest IH]; intros w Hw; [exact Hw|].
  cbn [run_ops]. apply IH. destruct op as [t|]; cbn [run_op].
  - rewrite instrument_run. destruct Hw as [Hw|[t0 Hw]]; rewrite Hw; cbn.
    + right. exists t. now rewrite provider_eqb_refl.
    + right. exists t0. exact Hw.
  - rewrite uninstrument_run. destruct Hw as [Hw|[t0 Hw]]; rewrite Hw; cbn.
    + left. exact Hw.
    + left. now rewrite provider_eqb_refl.
Qed.

(** The operations on one provider leave the other provider's hook alone. *)
Lemma run_ops_other (p q : provider) (ops : list hook_op) (w : World) :
  q <> p -> hooks (run_ops p ops w) q = hooks w q.
Proof.
  intros Hq. revert w. induction ops as [|op rest IH]; intros w; [reflexivity|].
  cbn [run_ops]. rewrite IH. destruct op as [t|]; cbn [run_op].
  - rewrite instrument_run.
    destruct (library_create (hooks w p)); [|reflexivity].
    destruct (_original_create (hooks w p)); [reflexivity|].
    cbn [snd]. apply hooks_set_hook_other. congruence.
  - rewrite uninstrument_run.
    destruct (_original_create (hooks w p)); [|reflexivity].
    destruct (library_create (hooks w p)); [|reflexivity].
    cbn [snd]. apply hooks_set_hook_other. congruence.
Qed.

(** Without the library, no sequence of operations changes anything. *)
Lemma run_ops_library_absent (p : provider) (ops : list hook_op) (w : World) :
  library_create (hooks w p) = None -> run_ops p ops w = w.
Proof.
  intros Habsent. induction ops as [|op rest IH]; [reflexivity|].
  cbn [run_ops].
  assert (Hop : snd (run_op p op w) = w).
  { destruct op as [t|]; cbn [run_op].
    - rewrite instrument_run, Habsent. reflexivity.
    - rewrite uninstrument_run, Habsent.
      destruct (_original_create (hooks w p)); reflexivity. }
  rewrite Hop. exact IH.
Qed.

(** C6. The hook state machine of a provider, after every sequence of
    install and uninstall operations from a fresh state (the library's
    callable [f] in the slot, nothing captured).  The hook is then
    NOT_INSTALLED or INSTALLED.  When NOT_INSTALLED, the slot holds [f];
    [instrument] moves to INSTALLED, capturing [f] and putting the wrapper in
    the slot, and [uninstrument] does nothing.  When INSTALLED, the slot holds
    the wrapper and [f] is captured, so [f] is wrapped exactly once;
    [instrument] does nothing, and [uninstrument] puts [f] back and returns to
    NOT_INSTALLED.  The other provider's hook is untouched.  With the library
    absent, [instrument] raises the configuration error and the state stays
    as it was, NOT_INSTALLED from a fresh state. *)
Theorem C6_hook_state_machine (p : provider) (f : callable)
    (ops : list hook_op) (w : World) :
  hooks w p = not_installed_hook f ->
  match status_of (hooks (run_ops p ops w) p) with
  | NOT_INSTALLED =>
      hooks (run_ops p ops w) p = not_installed_hook f
      /\ (forall t,
             instrument p t (run_ops p ops w)
             = (Ok tt, set_hook p (installed_hook p f t) (run_ops p ops w))
             /\ status_of (hooks (snd (instrument p t (run_ops p ops w))) p)
                = INSTALLED)
      /\ uninstrument p (run_ops p ops w) = (Ok tt, run_ops p ops w)
  | INSTALLED =>
      (exists t0, hooks (run_ops p ops w) p = installed_hook p f t0)
      /\ (forall t,
             instrument p t (run_ops p ops w) = (Ok tt, run_ops p ops w))
      /\ uninstrument p (run_ops p ops w)
         = (Ok tt, set_hook p (not_installed_hook f) (run_ops p ops w))
      /\ status_of (hooks (snd (uninstrument p (run_ops p ops w))) p)
         = NOT_INSTALLED
  end
  /\ (forall n, f = Foreign n ->
        wrap_depth (hooks (run_ops p ops w) p)
        = Some (match status_of (hooks (run_ops p ops w) p) with
                | NOT_INSTALLED => 0
                | INSTALLED => 1
                end)%nat)
  /\ (forall q, q <> p -> hooks (run_ops p ops w) q = hooks w q)
  /\ (forall t w0,
         library_create (hooks w0 p) = None ->
         instrument p t w0
         = (Raise (ImportError (not_installed_message p)), w0)
         /\ forall ops0, run_ops p ops0 w0 = w0).
Proof.
  intros Hw.
  split; [|split; [|split]].
  - destruct (@run_ops_invariant p f ops w (or_introl Hw)) as [H|[t0 H]];
      rewrite H; cbn [status_of _original_create not_installed_hook installed_hook].
    + split; [reflexivity|]. split.
      * intros t. rewrite instrument_run, H. cbn. split; [reflexivity|].
        now rewrite provider_eqb_refl.
      * rewrite uninstrument_run, H. reflexivity.
    + split; [now exists t0|]. split; [|split].
      * intros t. rewrite instrument_run, H. reflexivity.
      * rewrite uninstrument_run, H. reflexivity.
      * rewrite uninstrument_run, H. cbn. now rewrite provider_eqb_refl.
  - intros n ->.
    destruct (@run_ops_invariant p (Foreign n) ops w (or_introl Hw))
      as [H|[t0 H]]; rewrite H; reflexivity.
  - intros q Hq. now apply run_ops_other.
  - intros t w0 Habsent. split.
    + rewrite instrument_run, Habsent. reflexivity.
    + intros ops0. now apply run_ops_library_absent.
Qed.

Lemma C6_witness :
  (exists t0,
      hooks (run_ops anthropic
               [Install local_tracker; Uninstall; Install hosted_tracker;
                Install local_tracker]
               (example_world accepts reply_with_usage)) anthropic
      = installed_hook anthropic (Foreign 0) t0)
  /\ wrap_depth
       (hooks (run_ops anthropic
                 [Install local_tracker; Uninstall; Install hosted_tracker;
                  Install local_tracker]
                 (example_world accepts reply_with_usage)) anthropic)
     = Some 1%nat.
Proof.
  pose proof (@C6_hook_state_machine anthropic (Foreign 0)
                [Install local_tracker; Uninstall; Install hosted_tracker;
                 Install local_tracker]
                (example_world accepts reply_with_usage) eq_refl) as H.
  split.
  - exact (proj1 (proj1 H)).
  - exact (proj1 (proj2 H) O eq_refl).
Defined.

(* ================================================================== *)
(** ** The wrappers *)

Lemma call_site_run (p : provider) (n : nat) (t : CostTracker)
    (a : call_args) (w : World) (r : Response) (d : Z) :
  hooks w p = installed_hook p (Foreign n) t ->
  foreign_code w n (List.length (calls w)) a = Ok r ->
  elapsed_ms (perf_clock w (ticks w)) (perf_clock w (S (ticks w))) = Ok d ->
  call_site p a w = after_result p t r d (after_original_call n a w).
Proof.
  intros Hh Hf Hd.
  unfold call_site, bind at 1, get_hook at 1. rewrite Hh.
  cbn [library_create installed_hook].
  change (call recursion_limit (tracked_create p) a w)
    with (tracked_create_body p (call 999) a w).
  unfold tracked_create_body.
  cbv [bind perf_counter get_hook ret lift].
  cbn [hooks tick]. rewrite Hh. cbn [_original_create installed_hook].
  change (call 999 (Foreign n) a (tick w))
    with (foreign_code (tick w) n (List.length (calls (tick w))) a,
          log_call n a (tick w)).
  cbn [foreign_code calls tick]. rewrite Hf.
  cbn [perf_clock ticks log_call tick]. rewrite Hd.
  fold (after_original_call n a w).
  assert (Hh' : hooks (after_original_call n a w) p
                = installed_hook p (Foreign n) t) by exact Hh.
  unfold after_result.
  destruct p.
  - rewrite Hh'. cbn [_tracker installed_hook].
    destruct (resp_model r) as [|m]; [reflexivity|].
    destruct (resp_usage r) as [|[us|]]; reflexivity.
  - destruct (resp_usage r) as [|[us|]]; try reflexivity.
    cbn [getattr]. cbv [ret]. rewrite Hh'. cbn [_tracker installed_hook].
    destruct (resp_model r) as [|m]; reflexivity.
Qed.

(** The wrapper of either provider, on a result that carries usage: the
    original callable receives the caller's arguments once, the event is
    dispatched once (and the server's error is swallowed), and the caller
    gets the original result. *)
Lemma wrapper_returns_result_with_usage (p : provider) :
  let w := instrumented_world p reply_with_usage in
  fst (call_site p example_args w) = Ok reply_with_usage
  /\ calls (snd (call_site p example_args w)) = [(0%nat, example_args)]
  /\ List.length (requests (snd (call_site p example_args w))) = 1%nat.
Proof. destruct p; vm_compute; repeat split; reflexivity. Qed.



(** On a result whose usage is [None], the OpenAI wrapper returns the
    result untracked, and the Anthropic wrapper raises. *)
Lemma wrapper_without_usage (p : provider) (n : nat)
    (t : CostTracker) (a : call_args) (w : World) (r : Response) (d : Z)
    (m : string) :
  hooks w p = installed_hook p (Foreign n) t ->
  foreign_code w n (List.length (calls w)) a = Ok r ->
  elapsed_ms (perf_clock w (ticks w)) (perf_clock w (S (ticks w))) = Ok d ->
  resp_model r = Present m -> resp_usage r = Present None ->
  call_site p a w
  = (match p with
     | openai => Ok r
     | anthropic => Raise (AttributeError "input_tokens")
     end, after_original_call n a w).
Proof.
  intros Hh Hf Hd Hm Hu.
  rewrite (@call_site_run p n t a w r d Hh Hf Hd). unfold after_result.
  rewrite Hm, Hu. destruct p; reflexivity.
Qed.

Lemma wrapper_without_usage_witness :
  call_site anthropic example_args
    (instrumented_world anthropic reply_without_usage)
  = (Raise (AttributeError "input_tokens"),
     after_original_call 0 example_args
       (instrumented_world anthropic reply_without_usage)).
Proof.
  apply (@wrapper_without_usage anthropic 0 hosted_tracker example_args
           (instrumented_world anthropic reply_without_usage)
           reply_without_usage 250 "claude-3-5-sonnet-20241022");
    reflexivity.
Defined.

(** C5, at a result without usage.  The OpenAI wrapper checks
    [result.usage], skips tracking and returns the original result.  The
    Anthropic wrapper has no such check: it evaluates
    [result.usage.input_tokens], the [AttributeError] leaves the wrapper, and
    the caller, whose call to the original callable succeeded, gets no
    result.  On a streaming result, which has neither [model] nor [usage],
    both wrappers raise [AttributeError] after the original call. *)
Theorem C5_anthropic_wrapper_raises_without_usage :
  (let w := instrumented_world openai reply_without_usage in
   fst (call_site openai example_args w) = Ok reply_without_usage
   /\ calls (snd (call_site openai example_args w)) = [(0%nat, example_args)]
   /\ requests (snd (call_site openai example_args w)) = [])
  /\ (let w := instrumented_world anthropic reply_without_usage in
      fst (call_site anthropic example_args w)
      = Raise (AttributeError "input_tokens")
      /\ calls (snd (call_site anthropic example_args w))
         = [(0%nat, example_args)]
      /\ requests (snd (call_site anthropic example_args w)) = [])
  /\ (let w := instrumented_world anthropic reply_stream in
      fst (call_site anthropic example_args w) = Raise (AttributeError "model")
      /\ calls (snd (call_site anthropic example_args w))
         = [(0%nat, example_args)])
  /\ (let w := instrumented_world openai reply_stream in
      fst (call_site openai example_args w) = Raise (AttributeError "usage")
      /\ calls (snd (call_site openai example_args w))
         = [(0%nat, example_args)]).
Proof. vm_compute. repeat split; reflexivity. Qed.

(* ================================================================== *)
(** ** Prices of the catalog's own models *)

Lemma In_PRICING_own_entry (k : string) (v : price_pair) :
  In (k, v) PRICING -> Spec.resolve PRICING ALIASES k = Some v.
Proof.
  unfold PRICING. cbn [In]. intros H.
  repeat (destruct H as [H|H]; [injection H as <- <-; vm_compute; reflexivity|]).
  destruct H.
Qed.

(** Every model id of the price table is priced by its own entry, also when
    an earlier key is a prefix of it ("gpt-4o-mini" after "gpt-4o"), and the
    prices are per million tokens: one million input tokens cost exactly the
    listed input price, one million output tokens exactly the listed output
    price. *)
Theorem catalog_models_priced_at_listed_price (k : string) (pi po : float) :
  In (k, (pi, po)) PRICING ->
  (forall i o, get_cost k i o = Spec.compute_cost (Some (pi, po)) i o)
  /\ get_cost k 1000000 0 = Ok (pi, PyFloat.zero, pi)
  /\ get_cost k 0 1000000 = Ok (PyFloat.zero, po, po)
  /\ get_cost k 1000000 1000000 = Ok (pi, po, PyFloat.add pi po).
Proof.
  intros Hin. split.
  - intros i o. rewrite get_cost_resolve.
    now rewrite (In_PRICING_own_entry Hin).
  - revert Hin. unfold PRICING. cbn [In]. intros H.
    repeat (destruct H as [H|H];
            [injection H as <- <- <-; vm_compute; repeat split; reflexivity|]).
    destruct H.
Qed.

Lemma catalog_models_priced_at_listed_price_witness :
  get_cost "gpt-4o-mini" 1000000 1000000
  = Ok (PyFloat.lit 15 100, PyFloat.lit 60 100,
        PyFloat.add (PyFloat.lit 15 100) (PyFloat.lit 60 100)).
Proof.
  apply (@catalog_models_priced_at_listed_price "gpt-4o-mini"
           (PyFloat.lit 15 100) (PyFloat.lit 60 100)).
  unfold PRICING. cbn [In]. do 8 right. left. reflexivity.
Defined.

Lemma mul_zero_price (p : float) :
  price_ok p = true -> PyFloat.mul PyFloat.zero p = PyFloat.zero.
Proof.
  destruct p as [| | |[] m e]; cbn [price_ok]; try discriminate.
  intros _. reflexivity.
Qed.

Lemma add_zero_l (x : float) :
  nonneg_valid x = true -> PyFloat.add PyFloat.zero x = x.
Proof.
  destruct x as [[]|[]| |[] m e]; cbn; intros H; try discriminate H;
    reflexivity.
Qed.

Lemma add_zero_r (x : float) :
  nonneg_valid x = true -> PyFloat.add x PyFloat.zero = x.
Proof.
  destruct x as [[]|[]| |[] m e]; cbn; intros H; try discriminate H;
    reflexivity.
Qed.

Lemma int_truediv_zero : PyFloat.int_truediv 0 1000000 = Ok PyFloat.zero.
Proof. vm_compute. reflexivity. Qed.

Lemma cost_zero_tokens (p : float) :
  price_ok p = true -> Spec.cost 0 p = Ok PyFloat.zero.
Proof.
  intros Hp. unfold Spec.cost. rewrite int_truediv_zero.
  now rewrite (@mul_zero_price p Hp).
Qed.

Lemma get_cost_zero_tokens (m : string) :
  get_cost m 0 0 = Ok (PyFloat.zero, PyFloat.zero, PyFloat.zero).
Proof.
  rewrite get_cost_resolve.
  destruct (Spec.resolve PRICING ALIASES m) as [[pi po]|] eqn:Hr;
    cbn [Spec.compute_cost]; [|reflexivity].
  destruct (@resolved_prices_ok m pi po Hr) as [Hpi Hpo].
  now rewrite (@cost_zero_tokens pi Hpi), (@cost_zero_tokens po Hpo).
Qed.

(** A side without tokens costs nothing, for every model name: with no input
    tokens the input cost is 0.0 and the total is exactly the output cost;
    with no output tokens the output cost is 0.0 and the total is exactly the
    input cost; with no tokens at all the three costs are 0.0. *)
Theorem unused_side_costs_nothing (m : string) (n : Z) (c : costs) :
  0 <= n ->
  (get_cost m 0 n = Ok c ->
   fst (fst c) = PyFloat.zero /\ snd c = snd (fst c))
  /\ (get_cost m n 0 = Ok c ->
      snd (fst c) = PyFloat.zero /\ snd c = fst (fst c))
  /\ get_cost m 0 0 = Ok (PyFloat.zero, PyFloat.zero, PyFloat.zero).
Proof.
  intros Hn. split; [|split; [|apply get_cost_zero_tokens]].
  - rewrite get_cost_resolve.
    destruct (Spec.resolve PRICING ALIASES m) as [[pi po]|] eqn:Hr;
      cbn [Spec.compute_cost].
    + destruct (@resolved_prices_ok m pi po Hr) as [Hpi Hpo].
      rewrite (@cost_zero_tokens pi Hpi).
      destruct (Spec.cost n po) as [co|e] eqn:Hco; [|discriminate].
      intros E. injection E as <-. cbn [fst snd].
      split; [reflexivity|]. apply add_zero_l.
      now apply (@cost_valid n po co).
    + intros E. injection E as <-. split; reflexivity.
  - rewrite get_cost_resolve.
    destruct (Spec.resolve PRICING ALIASES m) as [[pi po]|] eqn:Hr;
      cbn [Spec.compute_cost].
    + destruct (@resolved_prices_ok m pi po Hr) as [Hpi Hpo].
      rewrite (@cost_zero_tokens po Hpo).
      destruct (Spec.cost n pi) as [ci|e] eqn:Hci; [|discriminate].
      intros E. injection E as <-. cbn [fst snd].
      split; [reflexivity|]. apply add_zero_r.
      now apply (@cost_valid n pi ci).
    + intros E. injection E as <-. split; reflexivity.
Qed.

Lemma unused_side_costs_nothing_witness :
  (let c := (PyFloat.zero, PyFloat.lit 5 1000, PyFloat.lit 5 1000) in
   get_cost "gpt-4o" 0 500 = Ok c
   /\ fst (fst c) = PyFloat.zero /\ snd c = snd (fst c))
  /\ (let c := (PyFloat.lit 125 100000, PyFloat.zero, PyFloat.lit 125 100000) in
      get_cost "gpt-4o" 500 0 = Ok c
      /\ snd (fst c) = PyFloat.zero /\ snd c = fst (fst c)).
Proof.
  assert (Hn : 0 <= 500) by discriminate.
  assert (H1 : get_cost "gpt-4o" 0 500
               = Ok (PyFloat.zero, PyFloat.lit 5 1000, PyFloat.lit 5 1000))
    by (vm_compute; reflexivity).
  assert (H2 : get_cost "gpt-4o" 500 0
               = Ok (PyFloat.lit 125 100000, PyFloat.zero,
                     PyFloat.lit 125 100000))
    by (vm_compute; reflexivity).
  cbv zeta. split.
  - split; [exact H1|].
    exact (proj1 (@unused_side_costs_nothing "gpt-4o" 500 _ Hn) H1).
  - split; [exact H2|].
    exact (proj1 (proj2 (@unused_side_costs_nothing "gpt-4o" 500 _ Hn)) H2).
Defined.

Lemma SFleb_refl (x : spec_float) : nonneg_valid x = true -> SFleb x x = true.
Proof.
  intros H. destruct (nonneg_valid_cases x H) as [->|[->|(m & e & -> & _)]];
    try reflexivity.
  apply SFleb_finite. right. split; [reflexivity|lia].
Qed.

(** For non-negative token counts the total is the float sum of the two
    costs and is never below either of them. *)
Theorem total_cost_at_least_each_part (m : string) (i o : Z) (a b t : float) :
  0 <= i -> 0 <= o -> get_cost m i o = Ok (a, b, t) ->
  t = PyFloat.add a b
  /\ PyFloat.leb a t = true /\ PyFloat.leb b t = true.
Proof.
  intros Hi Ho. rewrite get_cost_resolve.
  destruct (Spec.resolve PRICING ALIASES m) as [[pi po]|] eqn:Hr;
    cbn [Spec.compute_cost].
  - destruct (@resolved_prices_ok m pi po Hr) as [Hpi Hpo].
    destruct (Spec.cost i pi) as [ci|e] eqn:Hci; [|discriminate].
    destruct (Spec.cost o po) as [co|e] eqn:Hco; [|discriminate].
    intros E. injection E as <- <- <-.
    pose proof (@cost_valid i pi ci Hi Hpi Hci) as Va.
    pose proof (@cost_valid o po co Ho Hpo Hco) as Vb.
    split; [reflexivity|].
    assert (Vz : nonneg_valid PyFloat.zero = true) by reflexivity.
    split.
    + rewrite <- (@add_zero_r ci Va) at 1.
      unfold PyFloat.leb, PyFloat.add, PyFloat.prec, PyFloat.emax.
      apply SFadd_mono; try assumption.
      * now apply SFleb_refl.
      * now apply nonneg_valid_leb_zero.
    + rewrite <- (@add_zero_l co Vb) at 1.
      unfold PyFloat.leb, PyFloat.add, PyFloat.prec, PyFloat.emax.
      apply SFadd_mono; try assumption.
      * now apply nonneg_valid_leb_zero.
      * now apply SFleb_refl.
  - intros E. injection E as <- <- <-. repeat split; reflexivity.
Qed.

Lemma total_cost_at_least_each_part_witness :
  PyFloat.lit 75 10000 = PyFloat.add (PyFloat.lit 25 10000) (PyFloat.lit 5 1000)
  /\ PyFloat.leb (PyFloat.lit 25 10000) (PyFloat.lit 75 10000) = true
  /\ PyFloat.leb (PyFloat.lit 5 1000) (PyFloat.lit 75 10000) = true.
Proof.
  apply (@total_cost_at_least_each_part "gpt-4o" 1000 500).
  - discriminate.
  - discriminate.
  - vm_compute. reflexivity.
Defined.

(* ================================================================== *)
(** ** Names matched by prefix *)

Lemma alias_target_is_priced (alias_ canonical_ : string) :
  dict_get ALIASES alias_ = Some canonical_ ->
  exists v, dict_get PRICING canonical_ = Some v.
Proof.
  unfold ALIASES. cbn [dict_get].
  repeat match goal with
         | |- (if String.eqb ?k alias_ then _ else _) = _ -> _ =>
             destruct (String.eqb_spec k alias_) as [<-|_];
             [ intros E; injection E as <-; eexists; vm_compute; reflexivity | ]
         end.
  discriminate.
Qed.

Lemma find_first_match {A : Type} (f : A -> bool) (l : list A) (x : A) :
  In x l -> f x = true -> exists y, find f l = Some y.
Proof.
  intros Hin Hf. destruct (find f l) as [y|] eqn:E; [now exists y|].
  pose proof (find_none f l E x Hin). congruence.
Qed.

(** The zero-cost fallback is never taken for a name that starts with a key
    of the price table, or that a key starts with: such a name is priced
    with an entry of the table. *)
Theorem names_related_by_prefix_are_priced (k : string) (v : price_pair)
    (name : string) :
  In (k, v) PRICING ->
  startswith name k = true \/ startswith k name = true ->
  exists k' v',
    In (k', v') PRICING
    /\ forall i o, get_cost name i o = Spec.compute_cost (Some v') i o.
Proof.
  intros Hin Hrel.
  assert (Hres : exists k' v', In (k', v') PRICING
                   /\ Spec.resolve PRICING ALIASES name = Some v').
  { unfold Spec.resolve, Spec.canonical.
    destruct (dict_get ALIASES name) as [c|] eqn:Ha.
    - destruct (alias_target_is_priced _ Ha) as [v' Hv'].
      exists c, v'. rewrite Hv'. split; [now apply dict_get_In|reflexivity].
    - destruct (dict_get PRICING name) as [v'|] eqn:Hd.
      + exists name, v'. split; [now apply dict_get_In|reflexivity].
      + destruct (@find_first_match _ (Spec.prefix_match name) PRICING (k, v)
                    Hin)
          as [[k' v'] Hf].
        { unfold Spec.prefix_match, startswith in *. cbn [fst].
          apply orb_true_iff. tauto. }
        exists k', v'. rewrite Hf. split; [|reflexivity].
        apply (find_some _ _ Hf). }
  destruct Hres as (k' & v' & Hin' & Hr).
  exists k', v'. split; [exact Hin'|].
  intros i o. now rewrite get_cost_resolve, Hr.
Qed.

Lemma names_related_by_prefix_are_priced_witness :
  exists k' v',
    In (k', v') PRICING
    /\ forall i o, get_cost "mistral" i o = Spec.compute_cost (Some v') i o.
Proof.
  apply (@names_related_by_prefix_are_priced "mistral-small"
           (PyFloat.lit 20 100, PyFloat.lit 60 100) "mistral").
  - unfold PRICING. cbn [In]. do 19 right. left. reflexivity.
  - right. reflexivity.
Defined.

(** The empty model name is a prefix of every key, so it is priced with the
    first entry of the price table, whatever the tables are (as long as the
    empty name is itself neither an alias nor a key); in the package that is
    "claude-opus-4-20250514" at (15.00, 75.00). *)
Theorem empty_model_name_takes_first_entry
    (k0 : string) (v0 : price_pair) (rest : list (string * price_pair))
    (aliases : list (string * string)) (i o : Z) :
  dict_get aliases "" = None ->
  dict_get ((k0, v0) :: rest) "" = None ->
  get_cost_in ((k0, v0) :: rest) aliases "" i o
  = Spec.compute_cost (Some v0) i o.
Proof.
  intros Ha Hd. rewrite get_cost_in_resolve.
  unfold Spec.resolve, Spec.canonical. rewrite Ha, Hd.
  cbn [find]. unfold Spec.prefix_match. cbn [fst].
  replace (String.prefix "" k0) with true by (destruct k0; reflexivity).
  now rewrite orb_true_r.
Qed.

Lemma empty_model_name_takes_first_entry_witness :
  get_cost "" 1000000 1000000
  = Spec.compute_cost (Some (PyFloat.lit 1500 100, PyFloat.lit 7500 100))
      1000000 1000000.
Proof.
  apply (@empty_model_name_takes_first_entry "claude-opus-4-20250514"
           (PyFloat.lit 1500 100, PyFloat.lit 7500 100) (tl PRICING) ALIASES
           1000000 1000000); reflexivity.
Defined.

Lemma find_in_front {A : Type} (f : A -> bool) (pre post : list A) (x : A) :
  f x = true ->
  exists y, find f (pre ++ x :: post) = Some y /\ In y (pre ++ [x]).
Proof.
  intros Hx. induction pre as [|a pre IH]; cbn [app find].
  - rewrite Hx. exists x. split; [reflexivity|now left].
  - destruct (f a) eqn:Ha.
    + exists a. split; [reflexivity|now left].
    + destruct IH as (y & Hy & Hin). exists y. split; [exact Hy|now right].
Qed.

(** The prefix scan stops at the first entry that matches.  For any tables:
    when a key [k1] is a prefix of a name that is neither an alias nor a key,
    the name is priced with [k1]'s entry or one declared before it; an entry
    declared after [k1] is never used for it, however well its key fits. *)
Theorem prefix_scan_stops_at_first_match
    (pricing : list (string * price_pair)) (aliases : list (string * string))
    (pre post : list (string * price_pair)) (k1 : string) (v1 : price_pair)
    (name : string) :
  pricing = pre ++ (k1, v1) :: post ->
  startswith name k1 = true ->
  dict_get aliases name = None ->
  dict_get pricing name = None ->
  exists k v,
    In (k, v) (pre ++ [(k1, v1)])
    /\ forall i o,
         get_cost_in pricing aliases name i o
         = Spec.compute_cost (Some v) i o.
Proof.
  intros -> Hpre Ha Hd.
  destruct (@find_in_front _ (Spec.prefix_match name) pre post (k1, v1))
    as ([k v] & Hf & Hin).
  { unfold Spec.prefix_match, startswith in *. cbn [fst]. now rewrite Hpre. }
  exists k, v. split; [exact Hin|].
  intros i o. rewrite get_cost_in_resolve.
  unfold Spec.resolve, Spec.canonical. now rewrite Ha, Hd, Hf.
Qed.

Lemma prefix_scan_stops_at_first_match_witness :
  exists k v,
    In (k, v) (firstn 7 PRICING
               ++ [("gpt-4o", (PyFloat.lit 250 100, PyFloat.lit 1000 100))])
    /\ forall i o,
         get_cost_in PRICING ALIASES "gpt-4o-mini-2024-07-18" i o
         = Spec.compute_cost (Some v) i o.
Proof.
  apply (@prefix_scan_stops_at_first_match PRICING ALIASES
           (firstn 7 PRICING) (skipn 8 PRICING) "gpt-4o"
           (PyFloat.lit 250 100, PyFloat.lit 1000 100)
           "gpt-4o-mini-2024-07-18"); reflexivity.
Defined.

(** In the package's table, "gpt-4o" is declared before "gpt-4o-mini" and
    "o1" before "o1-preview".  Every name that extends "gpt-4o-mini" by a
    non-empty suffix (a dated version, say) is therefore priced as "gpt-4o",
    at (2.50, 10.00) and not at (0.15, 0.60); every name that extends
    "o1-preview" is priced as "o1". *)
Theorem versioned_names_priced_by_the_earlier_entry (c : ascii)
    (suffix : string) (i o : Z) :
  get_cost ("gpt-4o-mini" ++ String c suffix) i o
  = Spec.compute_cost (dict_get PRICING "gpt-4o") i o
  /\ get_cost ("o1-preview" ++ String c suffix) i o
     = Spec.compute_cost (dict_get PRICING "o1") i o
  /\ dict_get PRICING "gpt-4o"
     = Some (PyFloat.lit 250 100, PyFloat.lit 1000 100)
  /\ dict_get PRICING "gpt-4o-mini"
     = Some (PyFloat.lit 15 100, PyFloat.lit 60 100).
Proof.
  assert (H1 : Spec.resolve PRICING ALIASES ("gpt-4o-mini" ++ String c suffix)
               = dict_get PRICING "gpt-4o").
  { unfold Spec.resolve, Spec.canonical.
    replace (dict_get ALIASES ("gpt-4o-mini" ++ String c suffix))
      with (@None string) by reflexivity.
    replace (dict_get PRICING ("gpt-4o-mini" ++ String c suffix))
      with (@None price_pair) by reflexivity.
    reflexivity. }
  assert (H2 : Spec.resolve PRICING ALIASES ("o1-preview" ++ String c suffix)
               = dict_get PRICING "o1").
  { unfold Spec.resolve, Spec.canonical.
    replace (dict_get ALIASES ("o1-preview" ++ String c suffix))
      with (@None string) by reflexivity.
    replace (dict_get PRICING ("o1-preview" ++ String c suffix))
      with (@None price_pair) by reflexivity.
    reflexivity. }
  rewrite !get_cost_resolve, H1, H2. repeat split; reflexivity.
Qed.

(* ================================================================== *)
(** ** The client's base URL and its requests *)












(* ================================================================== *)
(** ** The [track_usage] decorator *)

Lemma track_usage_run (sdk : provider) (tracker : CostTracker)
    (model_ : string) (u f : option string) (n : nat) (a : call_args)
    (w : World) (r : Response) (d : Z) :
  foreign_code w n (List.length (calls w)) a = Ok r ->
  elapsed_ms (perf_clock w (ticks w)) (perf_clock w (S (ticks w))) = Ok d ->
  track_usage sdk tracker model_ u f (Foreign n) a w
  = match track tracker model_
            (usage_tokens_or_zero sdk r "input_tokens")
            (usage_tokens_or_zero sdk r "output_tokens")
            u f (Some d) None (after_original_call n a w) with
    | (Ok _, w') => (Ok r, w')
    | (Raise e, w') => (Raise e, w')
    end.
Proof.
  intros Hf Hd.
  unfold track_usage.
  cbv [bind perf_counter ret lift].
  change (call recursion_limit (Foreign n) a (tick w))
    with (foreign_code (tick w) n (List.length (calls (tick w))) a,
          log_call n a (tick w)).
  cbn [foreign_code calls tick]. rewrite Hf.
  cbn [perf_clock ticks log_call tick]. rewrite Hd.
  fold (after_original_call n a w).
  destruct (track tracker model_ _ _ u f (Some d) None
              (after_original_call n a w)) as [[ev|e] w']; reflexivity.
Qed.

Lemma track_events (self : CostTracker) (model_ : string)
    (i o : Z) (u f : option string) (d : option Z)
    (md : option (list (string * json))) (w : World) (c : costs) :
  get_cost model_ i o = Ok c ->
  (forall n r, answers_or_fails (network w n r) = true) ->
  json_encodable (event_payload (built_event self model_ i o c u f d md w))
  = true ->
  exists w',
    track self model_ i o u f d md w
    = (Ok (built_event self model_ i o c u f d md w), w')
    /\ requests w' = requests w
         ++ event_requests self (built_event self model_ i o c u f d md w)
    /\ calls w' = calls w /\ ticks w' = S (S (ticks w))
    /\ network w' = network w /\ perf_clock w' = perf_clock w.
Proof.
  intros Hc Hnet Henc.
  rewrite (@track_world self model_ i o u f d md w c Hc Hnet
             (fun _ _ => Henc)).
  eexists. split; [reflexivity|]. unfold event_requests.
  destruct (_client self); cbn; rewrite ?app_nil_r; repeat split; reflexivity.
Qed.

(** The decorated function is called once with the caller's arguments and
    its result is returned; one event is tracked, under the model, user and
    feature given to the decorator (not the model of the result), with the
    token counts read from the result ([0] where they cannot be read) and the
    measured duration. *)
Theorem track_usage_returns_result_and_tracks_once (sdk : provider)
    (tracker : CostTracker) (model_ : string) (u f : option string)
    (n : nat) (a : call_args) (w : World) (r : Response) (d : Z) :
  foreign_code w n (List.length (calls w)) a = Ok r ->
  elapsed_ms (perf_clock w (ticks w)) (perf_clock w (S (ticks w))) = Ok d ->
  0 <= usage_tokens_or_zero sdk r "input_tokens" < 2 ^ 1023 ->
  0 <= usage_tokens_or_zero sdk r "output_tokens" < 2 ^ 1023 ->
  (forall k rq, answers_or_fails (network w k rq) = true) ->
  exists c,
    get_cost model_ (usage_tokens_or_zero sdk r "input_tokens")
                    (usage_tokens_or_zero sdk r "output_tokens") = Ok c
    /\ fst (track_usage sdk tracker model_ u f (Foreign n) a w) = Ok r
    /\ calls (snd (track_usage sdk tracker model_ u f (Foreign n) a w))
       = calls w ++ [(n, a)]
    /\ requests (snd (track_usage sdk tracker model_ u f (Foreign n) a w))
       = requests w
         ++ event_requests tracker
              (built_event tracker model_
                 (usage_tokens_or_zero sdk r "input_tokens")
                 (usage_tokens_or_zero sdk r "output_tokens")
                 c u f (Some d) None (after_original_call n a w)).
Proof.
  intros Hf Hd Hi Ho Hnet.
  destruct (@get_cost_returns model_ _ _ Hi Ho) as [c Hc]. exists c.
  split; [exact Hc|].
  rewrite (@track_usage_run sdk tracker model_ u f n a w r d Hf Hd).
  destruct (@track_events tracker model_ _ _ u f (Some d) None
              (after_original_call n a w) c Hc Hnet
              (@track_payload_in_range tracker model_ _ _ c u f (Some d) None
                 (after_original_call n a w) Hi Ho Hc
                 (@measured_duration_encodable _ _ d Hd)))
    as (w' & Ht & Hr & Hcl & _).
  rewrite Ht. cbn [fst snd]. split; [reflexivity|].
  split; [rewrite Hcl; reflexivity|]. rewrite Hr. reflexivity.
Qed.

Lemma track_usage_returns_result_and_tracks_once_witness :
  exists c,
    get_cost "claude-sonnet-4-20250514" 1000 500 = Ok c
    /\ fst (track_usage anthropic hosted_tracker "claude-sonnet-4-20250514"
              (Some "alice") None (Foreign 0) example_args
              (example_world accepts reply_with_usage))
       = Ok reply_with_usage.
Proof.
  assert (Hi : 0 <= 1000 < 2 ^ 1023) by (split; [discriminate | reflexivity]).
  assert (Ho : 0 <= 500 < 2 ^ 1023) by (split; [discriminate | reflexivity]).
  destruct (@track_usage_returns_result_and_tracks_once anthropic
              hosted_tracker "claude-sonnet-4-20250514" (Some "alice") None
              0%nat example_args (example_world accepts reply_with_usage)
              reply_with_usage 250 eq_refl eq_refl Hi Ho
              (fun _ _ => eq_refl))
    as [c [Hc [Hr _]]].
  exists c. split; [exact Hc | exact Hr].
Defined.

(** When the decorated function raises, the wrapper raises the same
    exception: nothing is tracked, no request is made, and only the start of
    the timing has been read. *)
Theorem track_usage_propagates_failure (sdk : provider)
    (tracker : CostTracker) (model_ : string) (u f : option string)
    (n : nat) (a : call_args) (w : World) (e : exn) :
  foreign_code w n (List.length (calls w)) a = Raise e ->
  fst (track_usage sdk tracker model_ u f (Foreign n) a w) = Raise e
  /\ calls (snd (track_usage sdk tracker model_ u f (Foreign n) a w))
     = calls w ++ [(n, a)]
  /\ requests (snd (track_usage sdk tracker model_ u f (Foreign n) a w))
     = requests w
  /\ ticks (snd (track_usage sdk tracker model_ u f (Foreign n) a w))
     = S (ticks w).
Proof.
  intros Hf.
  assert (Hrun : track_usage sdk tracker model_ u f (Foreign n) a w
                 = (Raise e, log_call n a (tick w))).
  2: { rewrite Hrun. repeat split; reflexivity. }
  unfold track_usage.
  cbv [bind perf_counter ret lift].
  change (call recursion_limit (Foreign n) a (tick w))
    with (foreign_code (tick w) n (List.length (calls (tick w))) a,
          log_call n a (tick w)).
  cbn [foreign_code calls tick]. rewrite Hf. reflexivity.
Qed.

Lemma track_usage_propagates_failure_witness :
  fst (track_usage anthropic hosted_tracker "gpt-4o" None None (Foreign 0)
         example_args (raising_world TypeError))
  = Raise TypeError
  /\ calls (snd (track_usage anthropic hosted_tracker "gpt-4o" None None
                   (Foreign 0) example_args (raising_world TypeError)))
     = [] ++ [(0%nat, example_args)]
  /\ requests (snd (track_usage anthropic hosted_tracker "gpt-4o" None None
                      (Foreign 0) example_args (raising_world TypeError)))
     = []
  /\ ticks (snd (track_usage anthropic hosted_tracker "gpt-4o" None None
                   (Foreign 0) example_args (raising_world TypeError)))
     = 1%nat.
Proof.
  apply (@track_usage_propagates_failure anthropic hosted_tracker "gpt-4o"
           None None 0%nat example_args (raising_world TypeError) TypeError).
  reflexivity.
Defined.






(* ================================================================== *)
(** ** The instrumentation wrappers when the SDK raises, and after removal *)

(** When the SDK's own [create] raises, the instrumentation wrapper of
    either provider raises the same exception: nothing is tracked and no
    request is made. *)
Theorem wrapper_propagates_original_failure (p : provider) (n : nat)
    (t : CostTracker) (a : call_args) (w : World) (e : exn) :
  hooks w p = installed_hook p (Foreign n) t ->
  foreign_code w n (List.length (calls w)) a = Raise e ->
  fst (call_site p a w) = Raise e
  /\ calls (snd (call_site p a w)) = calls w ++ [(n, a)]
  /\ requests (snd (call_site p a w)) = requests w
  /\ ticks (snd (call_site p a w)) = S (ticks w).
Proof.
  intros Hh Hf.
  assert (Hrun : call_site p a w = (Raise e, log_call n a (tick w))).
  2: { rewrite Hrun. repeat split; reflexivity. }
  unfold call_site, bind at 1, get_hook at 1. rewrite Hh.
  cbn [library_create installed_hook].
  change (call recursion_limit (tracked_create p) a w)
    with (tracked_create_body p (call 999) a w).
  unfold tracked_create_body.
  cbv [bind perf_counter get_hook ret lift].
  cbn [hooks tick]. rewrite Hh. cbn [_original_create installed_hook].
  change (call 999 (Foreign n) a (tick w))
    with (foreign_code (tick w) n (List.length (calls (tick w))) a,
          log_call n a (tick w)).
  cbn [foreign_code calls tick]. rewrite Hf. reflexivity.
Qed.

Lemma wrapper_propagates_original_failure_witness :
  let w := snd (instrument openai hosted_tracker (raising_world TypeError)) in
  fst (call_site openai example_args w) = Raise TypeError
  /\ calls (snd (call_site openai example_args w))
     = calls w ++ [(0%nat, example_args)]
  /\ requests (snd (call_site openai example_args w)) = requests w
  /\ ticks (snd (call_site openai example_args w)) = S (ticks w).
Proof.
  apply (@wrapper_propagates_original_failure openai 0%nat hosted_tracker
           example_args
           (snd (instrument openai hosted_tracker (raising_world TypeError)))
           TypeError); reflexivity.
Defined.

(** [instrument] followed by [uninstrument] is a round trip for the host
    program: a call then goes straight to the SDK's callable, with the same
    result as if the SDK had never been instrumented, no timing read, no
    request made, and the hooks of both providers as they were. *)
Theorem uninstrument_restores_direct_calls (p : provider) (n : nat)
    (t : CostTracker) (a : call_args) (w : World) :
  hooks w p = not_installed_hook (Foreign n) ->
  let w' := snd (uninstrument p (snd (instrument p t w))) in
  fst (call_site p a w') = fst (call_site p a w)
  /\ fst (call_site p a w) = foreign_code w n (List.length (calls w)) a
  /\ calls (snd (call_site p a w')) = calls w ++ [(n, a)]
  /\ requests (snd (call_site p a w')) = requests w
  /\ ticks (snd (call_site p a w')) = ticks w
  /\ forall q, hooks (snd (call_site p a w')) q = hooks w q.
Proof.
  intros Hh w'.
  assert (Hw' : w' = set_hook p (not_installed_hook (Foreign n))
                       (set_hook p (installed_hook p (Foreign n) t) w)).
  { unfold w'. rewrite instrument_run, Hh.
    cbn [library_create _original_create not_installed_hook snd].
    rewrite uninstrument_run, hooks_set_hook_same. reflexivity. }
  assert (Hh' : hooks w' p = not_installed_hook (Foreign n)).
  { rewrite Hw'. apply hooks_set_hook_same. }
  assert (Hc : forall w0, hooks w0 p = not_installed_hook (Foreign n) ->
                 call_site p a w0
                 = (foreign_code w0 n (List.length (calls w0)) a,
                    log_call n a w0)).
  { intros w0 H0. unfold call_site, bind, get_hook. rewrite H0. reflexivity. }
  rewrite (Hc w' Hh'), (Hc w Hh). rewrite Hw'. cbn [fst snd].
  repeat split.
  intros q. cbn [hooks log_call set_hook].
  destruct (provider_eqb q p) eqn:E; [|reflexivity].
  destruct q, p; try discriminate E; now rewrite Hh.
Qed.

Lemma uninstrument_restores_direct_calls_witness :
  let w := example_world accepts reply_with_usage in
  let w' := snd (uninstrument anthropic
                   (snd (instrument anthropic hosted_tracker w))) in
  fst (call_site anthropic example_args w')
  = fst (call_site anthropic example_args w)
  /\ fst (call_site anthropic example_args w)
     = foreign_code w 0 (List.length (calls w)) example_args
  /\ calls (snd (call_site anthropic example_args w'))
     = calls w ++ [(0%nat, example_args)]
  /\ requests (snd (call_site anthropic example_args w')) = requests w
  /\ ticks (snd (call_site anthropic example_args w')) = ticks w
  /\ forall q, hooks (snd (call_site anthropic example_args w')) q = hooks w q.
Proof.
  apply (@uninstrument_restores_direct_calls anthropic 0%nat hosted_tracker
           example_args (example_world accepts reply_with_usage)).
  reflexivity.
Defined.

(* ================================================================== *)
(** ** The instrumentation methods of a tracker *)

(** [tracker.instrument_anthropic()] and [tracker.instrument_openai()]
    install the wrapper of their own SDK with this tracker and leave the
    other SDK alone, so that after both, in either order, both SDKs are
    instrumented with the tracker.  When an SDK is not installed, its method
    raises the [ImportError] that names the package, and changes nothing. *)
Theorem tracker_methods_instrument_both_sdks (t : CostTracker)
    (fa fo : callable) (w : World) :
  hooks w anthropic = not_installed_hook fa ->
  hooks w openai = not_installed_hook fo ->
  let wa := snd (instrument_anthropic t w) in
  let wo := snd (instrument_openai t w) in
  let wao := snd (instrument_openai t wa) in
  let woa := snd (instrument_anthropic t wo) in
  fst (instrument_anthropic t w) = Ok tt
  /\ fst (instrument_openai t wa) = Ok tt
  /\ hooks wa anthropic = installed_hook anthropic fa t
  /\ hooks wa openai = not_installed_hook fo
  /\ hooks wao anthropic = installed_hook anthropic fa t
  /\ hooks wao openai = installed_hook openai fo t
  /\ (forall q, hooks woa q = hooks wao q)
  /\ forall w0,
       library_create (hooks w0 anthropic) = None ->
       instrument_anthropic t w0
       = (Raise (ImportError
                   "anthropic package not installed. Run: pip install anthropic"),
          w0).
Proof.
  intros Ha Ho wa wo wao woa.
  assert (Ewa : wa = set_hook anthropic (installed_hook anthropic fa t) w).
  { unfold wa, instrument_anthropic. rewrite instrument_run, Ha. reflexivity. }
  assert (Ewo : wo = set_hook openai (installed_hook openai fo t) w).
  { unfold wo, instrument_openai. rewrite instrument_run, Ho. reflexivity. }
  assert (Hwa_o : hooks wa openai = not_installed_hook fo).
  { rewrite Ewa. exact Ho. }
  assert (Hwo_a : hooks wo anthropic = not_installed_hook fa).
  { rewrite Ewo. exact Ha. }
  assert (Ewao : wao = set_hook openai (installed_hook openai fo t) wa).
  { unfold wao, instrument_openai. rewrite instrument_run, Hwa_o.
    reflexivity. }
  assert (Ewoa : woa = set_hook anthropic (installed_hook anthropic fa t) wo).
  { unfold woa, instrument_anthropic. rewrite instrument_run, Hwo_a.
    reflexivity. }
  split; [unfold instrument_anthropic; rewrite instrument_run, Ha;
          reflexivity|].
  split; [unfold instrument_openai; rewrite instrument_run, Hwa_o;
          reflexivity|].
  split; [rewrite Ewa; reflexivity|].
  split; [exact Hwa_o|].
  split; [rewrite Ewao, Ewa; reflexivity|].
  split; [rewrite Ewao; reflexivity|].
  split.
  - intros q. rewrite Ewoa, Ewao, Ewo, Ewa. destruct q; reflexivity.
  - intros w0 H0. unfold instrument_anthropic.
    rewrite instrument_run, H0. reflexivity.
Qed.

Lemma tracker_methods_instrument_both_sdks_witness :
  let w := example_world accepts reply_with_usage in
  let wa := snd (instrument_anthropic hosted_tracker w) in
  let wao := snd (instrument_openai hosted_tracker wa) in
  hooks wao anthropic = installed_hook anthropic (Foreign 0) hosted_tracker
  /\ hooks wao openai = installed_hook openai (Foreign 0) hosted_tracker.
Proof.
  destruct (@tracker_methods_instrument_both_sdks hosted_tracker (Foreign 0)
              (Foreign 0) (example_world accepts reply_with_usage)
              eq_refl eq_refl)
    as (_ & _ & _ & _ & Ha & Ho & _).
  split; [exact Ha | exact Ho].
Defined.

(* ================================================================== *)
(** ** The hosted service: the pool of db.py *)

(** The life of the pool.  Before [init_db], [get_db] raises
    ["Database not initialized"].  [init_db] creates a pool from
    [DATABASE_URL] with 2 to 10 connections, and [get_db] then returns it;
    [close_db] closes that pool, after which [get_db] raises again and a
    second [close_db] does nothing.  Without [DATABASE_URL], or with an empty
    one, [init_db] raises and creates nothing. *)
Theorem pool_lifecycle (s : Hosted.Server) (database_url : string)
    (pool : Hosted.Pool) :
  Hosted._pool s = None ->
  Hosted.environ s "DATABASE_URL" = Some database_url ->
  database_url <> "" ->
  Hosted.create_pool s (List.length (Hosted.pools_created s))
                     database_url 2 10 = Hosted.Returns pool ->
  Hosted.close_pool s pool = None ->
  let s1 := snd (Hosted.init_db s) in
  let s2 := snd (Hosted.close_db s1) in
  Hosted.get_db s
  = (Hosted.Raises (Hosted.RuntimeError "Database not initialized"), s)
  /\ Hosted.init_db s = (Hosted.Returns tt, s1)
  /\ Hosted.get_db s1 = (Hosted.Returns pool, s1)
  /\ Hosted.close_db s1 = (Hosted.Returns tt, s2)
  /\ Hosted.get_db s2
     = (Hosted.Raises (Hosted.RuntimeError "Database not initialized"), s2)
  /\ Hosted.close_db s2 = (Hosted.Returns tt, s2)
  /\ Hosted.pools_created s2 = Hosted.pools_created s ++ [pool]
  /\ Hosted.pools_closed s2 = Hosted.pools_closed s ++ [pool]
  /\ forall s0,
       Hosted.environ s0 "DATABASE_URL" = None
       \/ Hosted.environ s0 "DATABASE_URL" = Some "" ->
       Hosted.init_db s0
       = (Hosted.Raises
            (Hosted.ValueError "DATABASE_URL environment variable not set"),
          s0).
Proof.
  intros Hnone Henv Hne Hcreate Hclose s1 s2.
  assert (E1 : Hosted.init_db s
               = (Hosted.Returns tt,
                  Hosted.pool_created pool s)).
  { unfold Hosted.init_db. rewrite Henv.
    destruct (String.eqb_spec database_url "") as [->|_]; [congruence|].
    now rewrite Hcreate. }
  assert (Es1 : s1 = Hosted.pool_created pool s).
  { unfold s1. now rewrite E1. }
  assert (E2 : Hosted.close_db s1
               = (Hosted.Returns tt, Hosted.pool_closed pool s1)).
  { rewrite Es1. unfold Hosted.close_db.
    cbn [Hosted._pool Hosted.pool_created Hosted.close_pool].
    now rewrite Hclose. }
  assert (Es2 : s2 = Hosted.pool_closed pool s1).
  { unfold s2. now rewrite E2. }
  split; [unfold Hosted.get_db; now rewrite Hnone|].
  split; [now rewrite Es1|].
  split; [rewrite Es1; reflexivity|].
  split; [now rewrite Es2|].
  split; [rewrite Es2; reflexivity|].
  split; [rewrite Es2; reflexivity|].
  split; [rewrite Es2, Es1; reflexivity|].
  split; [rewrite Es2, Es1; reflexivity|].
  intros s0 [H0|H0]; unfold Hosted.init_db; rewrite H0; reflexivity.
Qed.

Lemma pool_lifecycle_witness :
  let s := example_server None None in
  let s1 := snd (Hosted.init_db s) in
  let s2 := snd (Hosted.close_db s1) in
  Hosted.get_db s
  = (Hosted.Raises (Hosted.RuntimeError "Database not initialized"), s)
  /\ Hosted.init_db s = (Hosted.Returns tt, s1)
  /\ Hosted.get_db s1 = (Hosted.Returns 0%nat, s1)
  /\ Hosted.close_db s1 = (Hosted.Returns tt, s2)
  /\ Hosted.get_db s2
     = (Hosted.Raises (Hosted.RuntimeError "Database not initialized"), s2)
  /\ Hosted.close_db s2 = (Hosted.Returns tt, s2)
  /\ Hosted.pools_created s2 = Hosted.pools_created s ++ [0%nat]
  /\ Hosted.pools_closed s2 = Hosted.pools_closed s ++ [0%nat]
  /\ forall s0,
       Hosted.environ s0 "DATABASE_URL" = None
       \/ Hosted.environ s0 "DATABASE_URL" = Some "" ->
       Hosted.init_db s0
       = (Hosted.Raises
            (Hosted.ValueError "DATABASE_URL environment variable not set"),
          s0).
Proof.
  apply (@pool_lifecycle (example_server None None)
           "postgresql://localhost/costgpt" 0%nat);
    try reflexivity.
  discriminate.
Defined.

(** [init_db] does not close a pool that is already there: after a second
    [init_db], [get_db] returns the second pool, [close_db] closes the second
    pool only, and the first pool has been created and is not closed. *)
Theorem second_init_db_abandons_first_pool (s : Hosted.Server)
    (database_url : string) (pool1 pool2 : Hosted.Pool) :
  Hosted.environ s "DATABASE_URL" = Some database_url ->
  database_url <> "" ->
  Hosted.create_pool s (List.length (Hosted.pools_created s))
                     database_url 2 10 = Hosted.Returns pool1 ->
  Hosted.create_pool s (S (List.length (Hosted.pools_created s)))
                     database_url 2 10 = Hosted.Returns pool2 ->
  Hosted.close_pool s pool2 = None ->
  let s2 := snd (Hosted.init_db (snd (Hosted.init_db s))) in
  let s3 := snd (Hosted.close_db s2) in
  fst (Hosted.init_db (snd (Hosted.init_db s))) = Hosted.Returns tt
  /\ Hosted.get_db s2 = (Hosted.Returns pool2, s2)
  /\ Hosted.close_db s2 = (Hosted.Returns tt, s3)
  /\ Hosted._pool s3 = None
  /\ Hosted.pools_created s3 = Hosted.pools_created s ++ [pool1; pool2]
  /\ Hosted.pools_closed s3 = Hosted.pools_closed s ++ [pool2].
Proof.
  intros Henv Hne Hc1 Hc2 Hclose s2 s3.
  assert (E1 : Hosted.init_db s
               = (Hosted.Returns tt, Hosted.pool_created pool1 s)).
  { unfold Hosted.init_db. rewrite Henv.
    destruct (String.eqb_spec database_url "") as [->|_]; [congruence|].
    now rewrite Hc1. }
  assert (E2 : Hosted.init_db (Hosted.pool_created pool1 s)
               = (Hosted.Returns tt,
                  Hosted.pool_created pool2 (Hosted.pool_created pool1 s))).
  { unfold Hosted.init_db.
    cbn [Hosted.environ Hosted.pool_created Hosted.create_pool
         Hosted.pools_created].
    rewrite Henv.
    destruct (String.eqb_spec database_url "") as [->|_]; [congruence|].
    rewrite length_app. cbn [List.length].
    replace (List.length (Hosted.pools_created s) + 1)%nat
      with (S (List.length (Hosted.pools_created s))) by lia.
    now rewrite Hc2. }
  assert (Es2 : s2 = Hosted.pool_created pool2 (Hosted.pool_created pool1 s)).
  { unfold s2. rewrite E1. cbn [snd]. now rewrite E2. }
  assert (E3 : Hosted.close_db s2 = (Hosted.Returns tt, Hosted.pool_closed pool2 s2)).
  { rewrite Es2. unfold Hosted.close_db.
    cbn [Hosted._pool Hosted.pool_created Hosted.close_pool].
    now rewrite Hclose. }
  assert (Es3 : s3 = Hosted.pool_closed pool2 s2).
  { unfold s3. now rewrite E3. }
  split; [rewrite E1; cbn [snd]; now rewrite E2|].
  split; [rewrite Es2; reflexivity|].
  split; [now rewrite Es3|].
  split; [rewrite Es3; reflexivity|].
  split; [rewrite Es3, Es2; cbn; now rewrite <- app_assoc|].
  rewrite Es3, Es2. reflexivity.
Qed.

Lemma second_init_db_abandons_first_pool_witness :
  let s := example_server None None in
  let s2 := snd (Hosted.init_db (snd (Hosted.init_db s))) in
  let s3 := snd (Hosted.close_db s2) in
  fst (Hosted.init_db (snd (Hosted.init_db s))) = Hosted.Returns tt
  /\ Hosted.get_db s2 = (Hosted.Returns 1%nat, s2)
  /\ Hosted.close_db s2 = (Hosted.Returns tt, s3)
  /\ Hosted._pool s3 = None
  /\ Hosted.pools_created s3 = Hosted.pools_created s ++ [0%nat; 1%nat]
  /\ Hosted.pools_closed s3 = Hosted.pools_closed s ++ [1%nat].
Proof.
  apply (@second_init_db_abandons_first_pool (example_server None None)
           "postgresql://localhost/costgpt" 0%nat 1%nat);
    try reflexivity.
  discriminate.
Defined.

(* ================================================================== *)
(** ** The hosted service: API keys *)

Lemma get_auth_context_malformed (token : string) (s : Hosted.Server) :
  startswith token "cg_live_" = false ->
  Hosted.get_auth_context token s
  = (Hosted.Raises (Hosted.HTTPException 401 "Invalid API key format"), s).
Proof. intros H. unfold Hosted.get_auth_context. now rewrite H. Qed.

Lemma get_auth_context_run (token : string) (s : Hosted.Server)
    (pool : Hosted.Pool) (lookup : option Hosted.ApiKeyRow) :
  startswith token "cg_live_" = true ->
  Hosted._pool s = Some pool ->
  (forall n op, Hosted.database_fails s n op = None) ->
  (forall n, Hosted.select_api_key s n (substring 0 12 token) = lookup) ->
  Hosted.get_auth_context token s
  = let s2 := Hosted.log_operation
                (Hosted.SelectApiKey (substring 0 12 token))
                (Hosted.log_operation (Hosted.Acquire pool) s) in
    match lookup with
    | None =>
        (Hosted.Raises (Hosted.HTTPException 401 "Invalid API key"), s2)
    | Some row =>
        match Hosted.checkpw s token (Hosted.ak_key_hash row) with
        | Hosted.Raises e => (Hosted.Raises e, s2)
        | Hosted.Returns false =>
            (Hosted.Raises (Hosted.HTTPException 401 "Invalid API key"), s2)
        | Hosted.Returns true =>
            (Hosted.Returns {| Hosted.customer_id := Hosted.ak_customer_id row;
                               Hosted.api_key_id := Hosted.ak_id row |},
             Hosted.log_operation (Hosted.UpdateLastUsed (Hosted.ak_id row))
                                  s2)
        end
    end.
Proof.
  intros Hfmt Hpool Hdb Hsel.
  unfold Hosted.get_auth_context. rewrite Hfmt. cbn [negb].
  unfold Hosted.bind at 1. unfold Hosted.get_db. rewrite Hpool.
  unfold Hosted.bind at 1. unfold Hosted.database at 1. rewrite Hdb.
  unfold Hosted.bind at 1. unfold Hosted.fetchrow_api_key.
  cbn [Hosted.database_fails Hosted.select_api_key Hosted.log_operation].
  rewrite Hdb, Hsel.
  destruct lookup as [row|]; [|reflexivity].
  unfold Hosted.bind at 1, Hosted.verify_api_key.
  cbn [Hosted.checkpw Hosted.log_operation].
  destruct (Hosted.checkpw s token (Hosted.ak_key_hash row)) as [[]|e];
    try reflexivity.
  cbn [negb]. unfold Hosted.bind, Hosted.database, Hosted.ret.
  cbn [Hosted.database_fails Hosted.log_operation]. now rewrite Hdb.
Qed.

(** With the database up, a well-formed token is accepted exactly when the
    database has a live key for its first twelve characters and bcrypt
    verifies the token against that key's hash; the caller then is the key's
    customer, and the key's last use is updated.  An unknown prefix and a
    wrong secret are refused alike, with 401 "Invalid API key", and update
    nothing. *)
Theorem authentication_accepts_exactly_verified_keys (token : string)
    (s : Hosted.Server) (pool : Hosted.Pool)
    (lookup : option Hosted.ApiKeyRow) :
  startswith token "cg_live_" = true ->
  Hosted._pool s = Some pool ->
  (forall n op, Hosted.database_fails s n op = None) ->
  (forall n, Hosted.select_api_key s n (substring 0 12 token) = lookup) ->
  (forall ctx,
      fst (Hosted.get_auth_context token s) = Hosted.Returns ctx
      <-> exists row,
            lookup = Some row
            /\ Hosted.checkpw s token (Hosted.ak_key_hash row)
               = Hosted.Returns true
            /\ ctx = {| Hosted.customer_id := Hosted.ak_customer_id row;
                        Hosted.api_key_id := Hosted.ak_id row |})
  /\ Hosted.operations (snd (Hosted.get_auth_context token s))
     = Hosted.operations s
       ++ [Hosted.Acquire pool; Hosted.SelectApiKey (substring 0 12 token)]
       ++ match lookup with
          | Some row =>
              match Hosted.checkpw s token (Hosted.ak_key_hash row) with
              | Hosted.Returns true => [Hosted.UpdateLastUsed (Hosted.ak_id row)]
              | _ => []
              end
          | None => []
          end
  /\ (lookup = None
      \/ (exists row,
             lookup = Some row
             /\ Hosted.checkpw s token (Hosted.ak_key_hash row)
                = Hosted.Returns false) ->
      fst (Hosted.get_auth_context token s)
      = Hosted.Raises (Hosted.HTTPException 401 "Invalid API key")).
Proof.
  intros Hfmt Hpool Hdb Hsel.
  rewrite (@get_auth_context_run token s pool lookup Hfmt Hpool Hdb Hsel).
  cbv zeta.
  destruct lookup as [row|].
  - destruct (Hosted.checkpw s token (Hosted.ak_key_hash row)) as [[]|e] eqn:Hc;
      cbn [fst snd Hosted.operations Hosted.log_operation];
      (split; [|split]).
    + intros ctx. split.
      * intros E. injection E as <-. exists row. repeat split; assumption.
      * intros (row' & E & _ & ->). injection E as <-. reflexivity.
    + rewrite <- !app_assoc. reflexivity.
    + intros [E|(row' & E & Hc')]; [discriminate E|].
      injection E as <-. congruence.
    + intros ctx. split; [discriminate|].
      intros (row' & E & Hc' & _). injection E as <-. congruence.
    + rewrite <- !app_assoc. reflexivity.
    + reflexivity.
    + intros ctx. split; [discriminate|].
      intros (row' & E & Hc' & _). injection E as <-. congruence.
    + rewrite <- !app_assoc. reflexivity.
    + intros [E|(row' & E & Hc')]; [discriminate E|].
      injection E as <-. congruence.
  - cbn [fst snd Hosted.operations Hosted.log_operation].
    split; [|split].
    + intros ctx. split; [discriminate|]. intros (row' & E & _). discriminate E.
    + rewrite <- !app_assoc. reflexivity.
    + reflexivity.
Qed.

Lemma authentication_accepts_exactly_verified_keys_witness :
  fst (Hosted.get_auth_context "cg_live_abcdXXXX"
         (example_server (Some 0%nat) None))
  = Hosted.Raises (Hosted.HTTPException 401 "Invalid API key").
Proof.
  apply (@authentication_accepts_exactly_verified_keys "cg_live_abcdXXXX"
           (example_server (Some 0%nat) None) 0%nat (Some example_row)
           eq_refl eq_refl (fun _ _ => eq_refl) (fun _ => eq_refl)).
  right. exists example_row. split; reflexivity.
Defined.

(** A key made by [generate_api_key] is "cg_live_" followed by the random
    part; its stored prefix is "cg_live_" and the first four characters of
    the random part, and that is the prefix [get_auth_context] looks the key
    up by.  So when the database holds the key's row and bcrypt verifies the
    key against the stored hash, the key authenticates as the row's
    customer. *)
Theorem generated_key_authenticates (s0 s : Hosted.Server)
    (full_key key_prefix key_hash : string) (pool : Hosted.Pool)
    (row : Hosted.ApiKeyRow) :
  fst (Hosted.generate_api_key s0)
  = Hosted.Returns (full_key, key_prefix, key_hash) ->
  Hosted._pool s = Some pool ->
  (forall n op, Hosted.database_fails s n op = None) ->
  (forall n, Hosted.select_api_key s n key_prefix = Some row) ->
  Hosted.ak_key_hash row = key_hash ->
  Hosted.checkpw s full_key key_hash = Hosted.Returns true ->
  full_key
  = ("cg_live_" ++ Hosted.token_urlsafe s0 (Hosted.draws s0) 32)%string
  /\ key_prefix
     = ("cg_live_"
        ++ substring 0 4 (Hosted.token_urlsafe s0 (Hosted.draws s0) 32))%string
  /\ Hosted.hashpw s0 full_key (Hosted.gensalt s0 (S (Hosted.draws s0)))
     = Hosted.Returns key_hash
  /\ fst (Hosted.get_auth_context full_key s)
     = Hosted.Returns {| Hosted.customer_id := Hosted.ak_customer_id row;
                         Hosted.api_key_id := Hosted.ak_id row |}.
Proof.
  intros Hgen Hpool Hdb Hsel Hhash Hcheck.
  unfold Hosted.generate_api_key in Hgen.
  set (random_part := Hosted.token_urlsafe s0 (Hosted.draws s0) 32) in *.
  set (k := String.append "cg_live_" random_part) in *.
  destruct (Hosted.hashpw s0 k (Hosted.gensalt s0 (S (Hosted.draws s0))))
    as [h|e] eqn:Hh; [|discriminate Hgen].
  assert (E : (k, substring 0 12 k, h) = (full_key, key_prefix, key_hash)).
  { change (fst (Hosted.Returns (k, substring 0 12 k, h),
                 Hosted.draw (Hosted.draw s0)))
      with (Hosted.Returns (A := string * string * string)
              (k, substring 0 12 k, h)) in Hgen.
    injection Hgen as E1 E2 E3. rewrite <- E1, <- E2, <- E3. reflexivity. }
  injection E as <- <- <-.
  split; [reflexivity|]. split; [reflexivity|]. split; [exact Hh|].
  assert (Hfmt : startswith k "cg_live_" = true).
  { unfold startswith, k. cbn. destruct random_part; reflexivity. }
  rewrite (@get_auth_context_run k s pool (Some row) Hfmt Hpool Hdb Hsel).
  cbv zeta. rewrite Hhash, Hcheck. reflexivity.
Qed.

Lemma generated_key_authenticates_witness :
  fst (Hosted.get_auth_context "cg_live_abcdefgh"
         (example_server (Some 0%nat) None))
  = Hosted.Returns example_auth.
Proof.
  apply (@generated_key_authenticates (example_server None None)
           (example_server (Some 0%nat) None)
           "cg_live_abcdefgh" "cg_live_abcd" "$2b$12$hash" 0%nat example_row
           eq_refl eq_refl (fun _ _ => eq_refl) (fun _ => eq_refl)
           eq_refl eq_refl).
Defined.

(* ================================================================== *)
(** ** The hosted service: storing events *)

Lemma operations_log_operations (l : list Hosted.db_operation)
    (s : Hosted.Server) :
  Hosted.operations (log_operations l s) = Hosted.operations s ++ l
  /\ Hosted.database_fails (log_operations l s) = Hosted.database_fails s
  /\ Hosted._pool (log_operations l s) = Hosted._pool s.
Proof.
  revert s. induction l as [|op l IH]; intros s; cbn [log_operations fold_left].
  - now rewrite app_nil_r.
  - destruct (IH (Hosted.log_operation op s)) as (H1 & H2 & H3).
    unfold log_operations in *. rewrite H1, H2, H3.
    cbn [Hosted.operations Hosted.database_fails Hosted._pool
         Hosted.log_operation].
    now rewrite <- app_assoc.
Qed.

Lemma log_operations_app (l1 l2 : list Hosted.db_operation)
    (s : Hosted.Server) :
  log_operations (l1 ++ l2) s = log_operations l2 (log_operations l1 s).
Proof. unfold log_operations. apply fold_left_app. Qed.

Lemma get_auth_context_logs (token : string) (s : Hosted.Server) :
  exists l,
    snd (Hosted.get_auth_context token s) = log_operations l s
    /\ Forall not_an_insert l.
Proof.
  unfold Hosted.get_auth_context.
  destruct (startswith token "cg_live_"); cbn [negb].
  2: { exists []. split; [reflexivity|constructor]. }
  unfold Hosted.bind at 1. unfold Hosted.get_db.
  destruct (Hosted._pool s) as [pool|].
  2: { exists []. split; [reflexivity|constructor]. }
  unfold Hosted.bind at 1. unfold Hosted.database at 1.
  destruct (Hosted.database_fails s _ (Hosted.Acquire pool)).
  { exists [Hosted.Acquire pool]. split; [reflexivity|].
    repeat constructor. }
  unfold Hosted.bind at 1. unfold Hosted.fetchrow_api_key.
  destruct (Hosted.database_fails _ _ (Hosted.SelectApiKey _)).
  { exists [Hosted.Acquire pool; Hosted.SelectApiKey (substring 0 12 token)].
    split; [reflexivity|]. repeat constructor. }
  destruct (Hosted.select_api_key _ _ _) as [row|].
  2: { exists [Hosted.Acquire pool; Hosted.SelectApiKey (substring 0 12 token)].
       split; [reflexivity|]. repeat constructor. }
  unfold Hosted.bind at 1, Hosted.verify_api_key.
  destruct (Hosted.checkpw _ token (Hosted.ak_key_hash row)) as [[]|e];
    cbn [negb].
  - unfold Hosted.bind, Hosted.database, Hosted.ret.
    exists [Hosted.Acquire pool; Hosted.SelectApiKey (substring 0 12 token);
            Hosted.UpdateLastUsed (Hosted.ak_id row)].
    destruct (Hosted.database_fails _ _ (Hosted.UpdateLastUsed _));
      (split; [reflexivity|repeat constructor]).
  - exists [Hosted.Acquire pool; Hosted.SelectApiKey (substring 0 12 token)].
    split; [reflexivity|]. repeat constructor.
  - exists [Hosted.Acquire pool; Hosted.SelectApiKey (substring 0 12 token)].
    split; [reflexivity|]. repeat constructor.
Qed.

(** A request that is not authenticated stores nothing: when
    [get_auth_context] raises, [create_event] and [create_events_batch] raise
    the same exception and do nothing more, and no INSERT has been sent.  A
    token that does not start with "cg_live_" is refused with 401
    "Invalid API key format" before the database is touched. *)
Theorem rejected_requests_write_nothing (token : string)
    (s : Hosted.Server) (e : Hosted.exn) (request : Hosted.EventRequest)
    (events : list Hosted.EventRequest) :
  fst (Hosted.get_auth_context token s) = Hosted.Raises e ->
  Hosted.create_event request token s
  = (Hosted.Raises e, snd (Hosted.get_auth_context token s))
  /\ Hosted.create_events_batch events token s
     = (Hosted.Raises e, snd (Hosted.get_auth_context token s))
  /\ (forall p,
         In (Hosted.InsertEvent p)
            (Hosted.operations (snd (Hosted.get_auth_context token s))) ->
         In (Hosted.InsertEvent p) (Hosted.operations s))
  /\ (startswith token "cg_live_" = false ->
      Hosted.get_auth_context token s
      = (Hosted.Raises (Hosted.HTTPException 401 "Invalid API key format"),
         s)).
Proof.
  intros Hrej.
  split; [|split; [|split]].
  - unfold Hosted.create_event, Hosted.bind at 1.
    destruct (Hosted.get_auth_context token s) as [[ctx|e'] s1];
      cbn [fst] in Hrej; [discriminate Hrej|].
    now injection Hrej as ->.
  - unfold Hosted.create_events_batch, Hosted.bind at 1.
    destruct (Hosted.get_auth_context token s) as [[ctx|e'] s1];
      cbn [fst] in Hrej; [discriminate Hrej|].
    now injection Hrej as ->.
  - intros p Hin.
    destruct (get_auth_context_logs token s) as (l & El & Hl).
    destruct (operations_log_operations l s) as (Hops & _).
    rewrite El, Hops in Hin. apply in_app_or in Hin.
    destruct Hin as [Hin|Hin]; [exact Hin|].
    rewrite Forall_forall in Hl. destruct (Hl _ Hin).
  - apply get_auth_context_malformed.
Qed.

Lemma rejected_requests_write_nothing_witness :
  Hosted.create_event (example_body "gpt-4o") "Bearer-token"
    (example_server (Some 0%nat) None)
  = (Hosted.Raises (Hosted.HTTPException 401 "Invalid API key format"),
     snd (Hosted.get_auth_context "Bearer-token"
            (example_server (Some 0%nat) None))).
Proof.
  apply (@rejected_requests_write_nothing "Bearer-token"
           (example_server (Some 0%nat) None)
           (Hosted.HTTPException 401 "Invalid API key format")
           (example_body "gpt-4o") [] eq_refl).
Defined.

(** What [create_event] and [create_events_batch] store does not depend on
    the [id] and the [timestamp] of the request: two bodies that differ only
    there are handled alike, the server keeping neither.  A body without
    metadata is stored like one with empty metadata. *)
Theorem stored_event_ignores_id_and_timestamp
    (id1 id2 : option UUID) (ts1 ts2 : option datetime) (m : string)
    (i o : Z) (ic oc tc : float) (d : option Z) (u f : option string)
    (md : option (list (string * json))) (token : string)
    (s : Hosted.Server) :
  let body i0 t0 md0 :=
    {| Hosted.req_id := i0; Hosted.req_timestamp := t0;
       Hosted.req_model := m;
       Hosted.req_input_tokens := i; Hosted.req_output_tokens := o;
       Hosted.req_input_cost := ic; Hosted.req_output_cost := oc;
       Hosted.req_total_cost := tc; Hosted.req_duration_ms := d;
       Hosted.req_user_id := u; Hosted.req_feature := f;
       Hosted.req_metadata := md0 |} in
  Hosted.create_event (body id1 ts1 md) token s
  = Hosted.create_event (body id2 ts2 md) token s
  /\ Hosted.create_events_batch [body id1 ts1 md] token s
     = Hosted.create_events_batch [body id2 ts2 md] token s
  /\ Hosted.create_event (body id1 ts1 None) token s
     = Hosted.create_event (body id1 ts1 (Some [])) token s.
Proof. repeat split. Qed.

Lemma insert_events_run (auth : Hosted.AuthContext)
    (events : list Hosted.EventRequest) (s : Hosted.Server) :
  (forall k op,
      (List.length (Hosted.operations s) <= k
       < List.length (Hosted.operations s) + List.length events)%nat ->
      Hosted.database_fails s k op = None) ->
  Hosted.insert_events auth events s
  = (Hosted.Returns tt, log_operations (map (insert_of auth) events) s).
Proof.
  revert s. induction events as [|ev rest IH]; intros s Hdb.
  - reflexivity.
  - cbn [Hosted.insert_events map log_operations fold_left].
    unfold Hosted.bind, Hosted.database.
    rewrite Hdb by (cbn [List.length]; lia).
    fold (insert_of auth ev).
    rewrite IH; [reflexivity|].
    intros k op Hk.
    cbn [Hosted.operations Hosted.database_fails Hosted.log_operation] in *.
    apply Hdb. rewrite length_app in Hk. cbn [List.length] in *. lia.
Qed.

Lemma insert_events_failure (auth : Hosted.AuthContext)
    (before after : list Hosted.EventRequest) (ev : Hosted.EventRequest)
    (s : Hosted.Server) (e : Hosted.exn) :
  (forall k op,
      (List.length (Hosted.operations s) <= k
       < List.length (Hosted.operations s) + List.length before)%nat ->
      Hosted.database_fails s k op = None) ->
  Hosted.database_fails s
    (List.length (Hosted.operations s) + List.length before)
    (insert_of auth ev) = Some e ->
  Hosted.insert_events auth (before ++ ev :: after) s
  = (Hosted.Raises e,
     log_operations (map (insert_of auth) before ++ [insert_of auth ev]) s).
Proof.
  revert s. induction before as [|b rest IH]; intros s Hdb Hfail.
  - cbn [app Hosted.insert_events map log_operations fold_left].
    unfold Hosted.bind, Hosted.database. fold (insert_of auth ev).
    cbn [List.length] in Hfail. rewrite Nat.add_0_r in Hfail.
    now rewrite Hfail.
  - cbn [app Hosted.insert_events map log_operations fold_left].
    unfold Hosted.bind at 1, Hosted.database at 1.
    rewrite Hdb by (cbn [List.length]; lia).
    fold (insert_of auth b).
    rewrite IH; [reflexivity| |].
    + intros k op Hk.
      cbn [Hosted.operations Hosted.database_fails Hosted.log_operation] in *.
      apply Hdb. rewrite length_app in Hk. cbn [List.length] in *. lia.
    + cbn [Hosted.operations Hosted.database_fails Hosted.log_operation].
      rewrite length_app. cbn [List.length] in *.
      replace (List.length (Hosted.operations s) + 1 + List.length rest)%nat
        with (List.length (Hosted.operations s) + S (List.length rest))%nat
        by lia.
      exact Hfail.
Qed.

Lemma after_authentication (token : string) (s s1 : Hosted.Server)
    (auth : Hosted.AuthContext) :
  Hosted.get_auth_context token s = (Hosted.Returns auth, s1) ->
  Hosted._pool s1 = Hosted._pool s
  /\ Hosted.database_fails s1 = Hosted.database_fails s.
Proof.
  intros Hauth.
  destruct (get_auth_context_logs token s) as (l & Hl & _).
  rewrite Hauth in Hl. cbn [snd] in Hl. subst s1.
  destruct (operations_log_operations l s) as (_ & H2 & H3). now split.
Qed.

(** For an authenticated caller and a database that does not fail,
    [create_events_batch] sends one INSERT per event, in the order of the
    body and with the parameters [create_event] would send for it, all on one
    connection, and answers with the number of events; for an empty body it
    sends no INSERT and answers with count 0. *)
Theorem batch_inserts_every_event_in_order
    (events : list Hosted.EventRequest) (token : string)
    (s s1 : Hosted.Server) (auth : Hosted.AuthContext) (pool : Hosted.Pool) :
  Hosted.get_auth_context token s = (Hosted.Returns auth, s1) ->
  Hosted._pool s = Some pool ->
  (forall n op, Hosted.database_fails s n op = None) ->
  Hosted.create_events_batch events token s
  = (Hosted.Returns
       (JDict [("status", JStr "ok");
               ("count", JInt (Z.of_nat (List.length events)))]),
     log_operations (Hosted.Acquire pool :: map (insert_of auth) events) s1)
  /\ (forall event,
         Hosted.create_event event token s
         = (Hosted.Returns (JDict [("status", JStr "ok")]),
            log_operations [Hosted.Acquire pool; insert_of auth event] s1))
  /\ Hosted.operations (snd (Hosted.create_events_batch events token s))
     = Hosted.operations s1
       ++ Hosted.Acquire pool :: map (insert_of auth) events.
Proof.
  intros Hauth Hpool Hdb.
  destruct (after_authentication _ _ Hauth) as [Hp1 Hd1].
  assert (Hbatch :
            Hosted.create_events_batch events token s
            = (Hosted.Returns
                 (JDict [("status", JStr "ok");
                         ("count", JInt (Z.of_nat (List.length events)))]),
               log_operations
                 (Hosted.Acquire pool :: map (insert_of auth) events) s1)).
  { unfold Hosted.create_events_batch, Hosted.bind at 1. rewrite Hauth.
    unfold Hosted.bind at 1, Hosted.get_db. rewrite Hp1, Hpool.
    unfold Hosted.bind at 1, Hosted.database at 1. rewrite Hd1, Hdb.
    unfold Hosted.bind at 1.
    rewrite insert_events_run; [reflexivity|].
    intros k op _.
    cbn [Hosted.database_fails Hosted.log_operation]. rewrite Hd1.
    apply Hdb. }
  split; [exact Hbatch|]. split.
  - intros event.
    unfold Hosted.create_event, Hosted.bind at 1. rewrite Hauth.
    unfold Hosted.bind at 1, Hosted.get_db. rewrite Hp1, Hpool.
    unfold Hosted.bind at 1, Hosted.database at 1. rewrite Hd1, Hdb.
    unfold Hosted.bind, Hosted.database, Hosted.ret.
    cbn [Hosted.database_fails Hosted.log_operation]. rewrite Hd1, Hdb.
    reflexivity.
  - rewrite Hbatch. cbn [snd].
    now destruct (operations_log_operations
                    (Hosted.Acquire pool :: map (insert_of auth) events) s1)
      as (-> & _).
Qed.

Lemma batch_inserts_every_event_in_order_witness :
  let s := example_server (Some 0%nat) None in
  Hosted.operations
    (snd (Hosted.create_events_batch
            [example_body "gpt-4o"; example_body "o1"] "cg_live_abcdefgh" s))
  = Hosted.operations (snd (Hosted.get_auth_context "cg_live_abcdefgh" s))
    ++ [Hosted.Acquire 0%nat;
        insert_of example_auth (example_body "gpt-4o");
        insert_of example_auth (example_body "o1")].
Proof.
  apply (@batch_inserts_every_event_in_order
           [example_body "gpt-4o"; example_body "o1"] "cg_live_abcdefgh"
           (example_server (Some 0%nat) None)
           (snd (Hosted.get_auth_context "cg_live_abcdefgh"
                   (example_server (Some 0%nat) None)))
           example_auth 0%nat eq_refl eq_refl (fun _ _ => eq_refl)).
Defined.

(** [create_events_batch] stops at the first INSERT that fails: the
    exception leaves the handler, the events before the failing one have been
    sent to the database and nothing takes them back, and the events after it
    are never sent. *)
Theorem batch_stops_at_first_failure
    (before after : list Hosted.EventRequest) (ev : Hosted.EventRequest)
    (token : string) (s s1 : Hosted.Server) (auth : Hosted.AuthContext)
    (pool : Hosted.Pool) (e : Hosted.exn) :
  Hosted.get_auth_context token s = (Hosted.Returns auth, s1) ->
  Hosted._pool s = Some pool ->
  (forall k op,
      (k < List.length (Hosted.operations s1) + 1 + List.length before)%nat ->
      Hosted.database_fails s k op = None) ->
  Hosted.database_fails s
    (List.length (Hosted.operations s1) + 1 + List.length before)
    (insert_of auth ev) = Some e ->
  Hosted.create_events_batch (before ++ ev :: after) token s
  = (Hosted.Raises e,
     log_operations
       (Hosted.Acquire pool :: map (insert_of auth) before
        ++ [insert_of auth ev]) s1)
  /\ Hosted.operations
       (snd (Hosted.create_events_batch (before ++ ev :: after) token s))
     = Hosted.operations s1
       ++ Hosted.Acquire pool :: map (insert_of auth) before
       ++ [insert_of auth ev].
Proof.
  intros Hauth Hpool Hdb Hfail.
  destruct (after_authentication _ _ Hauth) as [Hp1 Hd1].
  assert (Hbatch :
            Hosted.create_events_batch (before ++ ev :: after) token s
            = (Hosted.Raises e,
               log_operations
                 (Hosted.Acquire pool :: map (insert_of auth) before
                  ++ [insert_of auth ev]) s1)).
  { unfold Hosted.create_events_batch, Hosted.bind at 1. rewrite Hauth.
    unfold Hosted.bind at 1, Hosted.get_db. rewrite Hp1, Hpool.
    unfold Hosted.bind at 1, Hosted.database at 1. rewrite Hd1.
    rewrite Hdb by lia.
    unfold Hosted.bind at 1.
    rewrite (@insert_events_failure auth before after ev
               (Hosted.log_operation (Hosted.Acquire pool) s1) e);
      [reflexivity| |].
    - intros k op Hk.
      cbn [Hosted.operations Hosted.database_fails Hosted.log_operation] in *.
      rewrite Hd1. apply Hdb. rewrite length_app in Hk.
      cbn [List.length] in Hk. lia.
    - cbn [Hosted.operations Hosted.database_fails Hosted.log_operation].
      rewrite Hd1, length_app. cbn [List.length]. exact Hfail. }
  split; [exact Hbatch|].
  rewrite Hbatch. cbn [snd].
  now destruct (operations_log_operations
                  (Hosted.Acquire pool :: map (insert_of auth) before
                   ++ [insert_of auth ev]) s1)
    as (-> & _).
Qed.

Lemma batch_stops_at_first_failure_witness :
  let s := example_server (Some 0%nat) (Some 5%nat) in
  Hosted.operations
    (snd (Hosted.create_events_batch
            [example_body "gpt-4o"; example_body "o1"; example_body "gpt-4"]
            "cg_live_abcdefgh" s))
  = Hosted.operations (snd (Hosted.get_auth_context "cg_live_abcdefgh" s))
    ++ [Hosted.Acquire 0%nat;
        insert_of example_auth (example_body "gpt-4o");
        insert_of example_auth (example_body "o1")].
Proof.
  apply (@batch_stops_at_first_failure
           [example_body "gpt-4o"] [example_body "gpt-4"] (example_body "o1")
           "cg_live_abcdefgh"
           (example_server (Some 0%nat) (Some 5%nat))
           (snd (Hosted.get_auth_context "cg_live_abcdefgh"
                   (example_server (Some 0%nat) (Some 5%nat))))
           example_auth 0%nat (Hosted.PostgresError 0) eq_refl eq_refl).
  - intros k op Hk. cbn [Hosted.database_fails example_server].
    destruct (Nat.eqb_spec k 5) as [->|_]; [|reflexivity].
    exfalso. revert Hk. vm_compute. lia.
  - reflexivity.
Defined.
